(** * Threads uploader (eclipse.py): a shallow embedding and its properties

    The program posts one media file per account from a Dropbox folder to
    Threads, deletes the file, and reports over Telegram.  Every call that
    leaves the process (HTTP, Dropbox SDK, Telegram, clock, random source)
    is answered by a [World]: the n-th call of a kind gets the n-th answer
    of that kind, and an answer is either a value or a raised exception.
    The program itself is a state-and-exception computation over the log
    buffer of the uploader and the trace of calls made so far. *)

From Stdlib Require Import String Ascii DecimalString.
From Stdlib Require Import ZArith NArith Bool Arith Lia List.
Import ListNotations.

Set Warnings "-register-all".

(** ** Python strings: sequences of Unicode code points *)

Definition codepoint := N.
Definition pystr := list codepoint.

(** An ASCII literal of the source. *)
Definition lit (s : string) : pystr :=
  map N_of_ascii (list_ascii_of_string s).

Arguments lit s%_string : simpl never.

Fixpoint str_eqb (a b : pystr) : bool :=
  match a, b with
  | [], [] => true
  | x :: a', y :: b' => N.eqb x y && str_eqb a' b'
  | _, _ => false
  end.

(** [sep.join(parts)] *)
Fixpoint join (sep : pystr) (parts : list pystr) : pystr :=
  match parts with
  | [] => []
  | [p] => p
  | p :: rest => p ++ sep ++ join sep rest
  end.

(** [s[i:j]] for [0 <= i <= j] *)
Definition slice (s : pystr) (i j : nat) : pystr :=
  firstn (j - i) (skipn i s).

(** [s.endswith(suffix)] *)
Definition endswith (s suffix : pystr) : bool :=
  (length suffix <=? length s) &&
  str_eqb (skipn (length s - length suffix) s) suffix.

(** [s.endswith((a, b, ...))] *)
Definition endswith_any (s : pystr) (suffixes : list pystr) : bool :=
  existsb (endswith s) suffixes.

(** [str(n)] for a non-negative int *)
Definition str_of_nat (n : nat) : pystr :=
  lit (NilEmpty.string_of_uint (Nat.to_uint n)).

(** [range(start, stop, step)] for a positive step *)
Definition py_range (start stop step : nat) : list nat :=
  map (fun k => start + k * step)
      (seq 0 ((stop - start + (step - 1)) / step)).

Definition nl : pystr := [10%N].

(** ** Python values (what [json()] and [os.getenv] hand back) *)

(** A float is kept by its exact value [m * 2^e]. *)
Inductive pyfloat :=
| FNaN
| FInf (negative : bool)
| FFin (m e : Z).

Inductive pyval :=
| PNone
| PBool (b : bool)
| PInt (z : Z)
| PFloat (f : pyfloat)
| PStr (s : pystr)
| PList (l : list pyval)
| PDict (d : list (pystr * pyval)).

(** Exceptions carry the text [str(e)] shows. *)
Inductive exn := Exn (msg : pystr).

Definition exn_msg (e : exn) : pystr := let 'Exn m := e in m.

Inductive result (A : Type) :=
| Ok (a : A)
| Raise (e : exn).

Arguments Ok {A} a.
Arguments Raise {A} e.

Fixpoint dict_get (d : list (pystr * pyval)) (k : pystr) : option pyval :=
  match d with
  | [] => None
  | (k', v) :: d' => if str_eqb k' k then Some v else dict_get d' k
  end.

Definition type_name (v : pyval) : pystr :=
  match v with
  | PNone => lit "NoneType"
  | PBool _ => lit "bool"
  | PInt _ => lit "int"
  | PFloat _ => lit "float"
  | PStr _ => lit "str"
  | PList _ => lit "list"
  | PDict _ => lit "dict"
  end.

(** [v.get(k, default)]: only a dict has [get]. *)
Definition py_get (v : pyval) (k : pystr) (default : pyval) : result pyval :=
  match v with
  | PDict d =>
      Ok (match dict_get d k with Some x => x | None => default end)
  | _ =>
      Raise (Exn (lit "'" ++ type_name v
                  ++ lit "' object has no attribute 'get'"))
  end.

(** Truth value of [v] in [if v:] and [not v]. *)
Definition truthy (v : pyval) : bool :=
  match v with
  | PNone => false
  | PBool b => b
  | PInt z => negb (z =? 0)%Z
  | PFloat (FFin m _) => negb (m =? 0)%Z
  | PFloat _ => true
  | PStr s => match s with [] => false | _ => true end
  | PList l => match l with [] => false | _ => true end
  | PDict d => match d with [] => false | _ => true end
  end.

(** [v == n] for an int literal [n]: numbers compare by value. *)
Definition py_eq_int (v : pyval) (n : Z) : bool :=
  match v with
  | PInt z => (z =? n)%Z
  | PBool b => ((if b then 1 else 0) =? n)%Z
  | PFloat (FFin m e) =>
      if (0 <=? e)%Z then (m * 2 ^ e =? n)%Z
      else (m =? n * 2 ^ (- e))%Z
  | _ => false
  end.

(** [v == s] for a str literal [s] *)
Definition py_eq_str (v : pyval) (s : pystr) : bool :=
  match v with
  | PStr t => str_eqb t s
  | _ => false
  end.

(** ** Calls that leave the process *)

Inductive level := INFO | WARNING | ERROR.

Record file := { name : pystr; path_lower : pystr }.

Definition form := list (pystr * pyval).

Record response := {
  status_code : Z;
  text : pystr;
  json : result pyval      (* what [res.json()] does *)
}.

Inductive event :=
| EBotNew (token : pyval)                 (* Bot(token=...) *)
| ETokenPost (data : form)                (* requests.post(DROPBOX_TOKEN_URL) *)
| EDropboxNew (access_token : pyval)      (* dropbox.Dropbox(...) *)
| EListFolder (folder : pystr)            (* dbx.files_list_folder *)
| ETempLink (path : pystr)                (* dbx.files_get_temporary_link *)
| EDelete (path : pystr)                  (* dbx.files_delete_v2 *)
| ELoadConfig (path : pystr)              (* open + json.load *)
| EClock                                  (* datetime.now / time.time *)
| EChoice (len : nat)                     (* random.choice *)
| ECreate (user_id : pyval) (data : form) (* POST .../{user}/threads *)
| EPoll (creation_id : pyval)             (* GET .../{creation_id} *)
| EPublish (user_id : pyval) (data : form)(* POST .../{user}/threads_publish *)
| ETelegram (chat_id : pyval) (msg : pystr) (* bot.send_message *)
| ESleep (seconds : nat)                  (* time.sleep *)
| ELog (lvl : level) (msg : pystr).       (* logger.log *)

Inductive kind :=
| KBotNew | KTokenPost | KDropboxNew | KListFolder | KTempLink | KDelete
| KLoadConfig | KClock | KChoice | KCreate | KPoll | KPublish | KTelegram
| KSleep | KLog.

Definition kind_of (e : event) : kind :=
  match e with
  | EBotNew _ => KBotNew
  | ETokenPost _ => KTokenPost
  | EDropboxNew _ => KDropboxNew
  | EListFolder _ => KListFolder
  | ETempLink _ => KTempLink
  | EDelete _ => KDelete
  | ELoadConfig _ => KLoadConfig
  | EClock => KClock
  | EChoice _ => KChoice
  | ECreate _ _ => KCreate
  | EPoll _ => KPoll
  | EPublish _ _ => KPublish
  | ETelegram _ _ => KTelegram
  | ESleep _ => KSleep
  | ELog _ _ => KLog
  end.

Definition kind_eq_dec (a b : kind) : {a = b} + {a <> b}.
Proof. decide equality. Defined.

(** How many calls of kind [k] a trace holds. *)
Definition calls (k : kind) (tr : list event) : nat :=
  count_occ kind_eq_dec (map kind_of tr) k.

(** The environment: the n-th call of each kind gets the n-th answer. *)
Record World := {
  getenv : pystr -> option pystr;         (* os.getenv *)
  str_lower : pystr -> pystr;             (* str.lower *)
  str_strip : pystr -> pystr;             (* str.strip *)
  bot_new : nat -> result unit;
  token_post : nat -> result response;
  dropbox_new : nat -> result unit;
  list_folder : nat -> result (list file);
  temp_link : nat -> result pyval;
  delete_v2 : nat -> result unit;
  load_config : nat -> result pyval;
  strftime : nat -> pystr -> pystr;       (* n-th clock read, formatted *)
  elapsed : nat -> pystr;                 (* n-th clock read as [{d:.1f}] *)
  rand : nat -> nat;
  create_post : nat -> result response;
  poll_get : nat -> result response;
  publish_post : nat -> result response;
  telegram_send : nat -> result unit
}.

(** ** The state-and-exception computation *)

Record state := {
  trace : list event;          (* calls made so far, oldest first *)
  log_buffer : list pystr      (* [self.log_buffer] of the current uploader *)
}.

Definition M (A : Type) := state -> result A * state.

Definition ret {A} (a : A) : M A := fun s => (Ok a, s).

Definition bind {A B} (m : M A) (f : A -> M B) : M B :=
  fun s =>
    match m s with
    | (Ok a, s') => f a s'
    | (Raise e, s') => (Raise e, s')
    end.

Definition lift {A} (r : result A) : M A := fun s => (r, s).

(** [try: m  except Exception as e: h e] *)
Definition try_except {A} (m : M A) (h : exn -> M A) : M A :=
  fun s =>
    match m s with
    | (Ok a, s') => (Ok a, s')
    | (Raise e, s') => h e s'
    end.

(** [try: m  finally: f] *)
Definition finally {A} (m : M A) (f : M unit) : M A :=
  fun s =>
    let (r, s') := m s in
    match f s' with
    | (Ok _, s'') => (r, s'')
    | (Raise e, s'') => (Raise e, s'')
    end.

Declare Scope m_scope.
Delimit Scope m_scope with m.
Notation "x <- c1 ;; c2" := (bind c1 (fun x => c2))
  (at level 61, c1 at next level, right associativity) : m_scope.
Notation "c1 ;; c2" := (bind c1 (fun _ => c2))
  (at level 61, right associativity) : m_scope.
Open Scope m_scope.

(** Record a call and return its index among the calls of its kind. *)
Definition emit (e : event) : M nat :=
  fun s =>
    (Ok (calls (kind_of e) (trace s)),
     {| trace := trace s ++ [e]; log_buffer := log_buffer s |}).

Definition get_log_buffer : M (list pystr) := fun s => (Ok (log_buffer s), s).

Definition set_log_buffer (b : list pystr) : M unit :=
  fun s => (Ok tt, {| trace := trace s; log_buffer := b |}).

Definition sleep (seconds : nat) : M unit := emit (ESleep seconds) ;; ret tt.

Definition logger_log (lvl : level) (msg : pystr) : M unit :=
  emit (ELog lvl msg) ;; ret tt.

(** [for x in xs: body x], with no [break] or [return] inside. *)
Fixpoint for_each {A} (xs : list A) (body : A -> M unit) : M unit :=
  match xs with
  | [] => ret tt
  | x :: xs' => body x ;; for_each xs' body
  end.

(** ** The program *)

(** Non-ASCII characters of the messages. *)
Definition sparkles : pystr := [0x2728%N].
Definition rocket : pystr := [0x1F680%N].
Definition triangular_ruler : pystr := [0x1F4D0%N].
Definition package : pystr := [0x1F4E6%N].
Definition cross_mark : pystr := [0x274C%N].
Definition check_mark : pystr := [0x2705%N].
Definition warning_sign : pystr := [0x26A0%N; 0xFE0F%N].
Definition hourglass : pystr := [0x23F3%N].
Definition satellite : pystr := [0x1F4E1%N].
Definition mailbox : pystr := [0x1F4ED%N].
Definition wastebasket : pystr := [0x1F5D1%N; 0xFE0F%N].
Definition chequered_flag : pystr := [0x1F3C1%N].

Definition of_env (o : option pystr) : pyval :=
  match o with
  | Some s => PStr s
  | None => PNone
  end.

(** One entry of [ACCOUNTS]. *)
Record account := {
  acc_account_name : pystr;
  acc_threads_user_id : option pystr;
  acc_threads_access_token : option pystr;
  acc_dropbox_app_key : option pystr;
  acc_dropbox_app_secret : option pystr;
  acc_dropbox_refresh_token : option pystr;
  acc_dropbox_folder : pystr
}.

(** The fields of a [DropboxToThreadsUploader] that never change after
    [__init__]; [log_buffer] lives in the state. *)
Record uploader := {
  account_name : pystr;
  script_name : pystr;
  schedule_file : pystr;
  threads_access_token : pyval;
  threads_user_id : pyval;
  dropbox_app_key : pyval;
  dropbox_app_secret : pyval;
  dropbox_refresh_token : pyval;
  dropbox_folder : pystr;
  telegram_bot_token : pyval;
  telegram_chat_id : pyval;
  telegram_bot : bool          (* [self.telegram_bot is not None] *)
}.

Definition max_len : nat := 4000.
Definition max_retries : nat := 20.
Definition retryable_subcode : Z := 2207032.
Definition valid_exts : list pystr :=
  [lit ".mp4"; lit ".mov"; lit ".jpg"; lit ".jpeg"; lit ".png"].

Section Program.

Variable w : World.

(** [a or os.getenv(key)] for an optional str [a] *)
Definition or_getenv (a : option pystr) (key : pystr) : option pystr :=
  if truthy (of_env a) then a else getenv w key.

(** [DropboxToThreadsUploader.__init__], called with the keys of an
    [ACCOUNTS] entry: the Telegram arguments and [schedule_file] keep their
    defaults. *)
Definition init (a : account) : M uploader :=
  let token := or_getenv None (lit "TELEGRAM_BOT_TOKEN") in
  let chat := or_getenv None (lit "TELEGRAM_CHAT_ID") in
  bot <- match token with
         | Some t =>
             i <- emit (EBotNew (PStr t)) ;; lift (bot_new w i) ;; ret true
         | None => ret false
         end ;;
  emit EClock ;;
  set_log_buffer [] ;;
  ret {| account_name := acc_account_name a;
         script_name := acc_account_name a ++ lit "_threads_post.py";
         schedule_file := lit "caption/config.json";
         threads_access_token :=
           match acc_threads_access_token a with
           | Some t => if truthy (PStr t) then PStr (str_strip w t) else PNone
           | None => PNone
           end;
         threads_user_id := of_env (acc_threads_user_id a);
         dropbox_app_key := of_env (acc_dropbox_app_key a);
         dropbox_app_secret := of_env (acc_dropbox_app_secret a);
         dropbox_refresh_token := of_env (acc_dropbox_refresh_token a);
         dropbox_folder := acc_dropbox_folder a;
         telegram_bot_token := of_env token;
         telegram_chat_id := of_env chat;
         telegram_bot := bot |}.

Definition bot_send_message (chat_id : pyval) (msg : pystr) : M unit :=
  i <- emit (ETelegram chat_id msg) ;; lift (telegram_send w i).

Definition send_message (u : uploader) (msg : pystr) (lvl : level)
    (immediate : bool) : M unit :=
  let full_msg :=
    lit "[" ++ account_name u ++ lit "] [" ++ script_name u ++ lit "]"
    ++ nl ++ msg in
  b <- get_log_buffer ;;
  set_log_buffer (b ++ [full_msg]) ;;
  logger_log lvl full_msg ;;
  if immediate then
    if telegram_bot u then
      try_except (bot_send_message (telegram_chat_id u) full_msg)
        (fun e => logger_log ERROR (lit "Telegram send error: " ++ exn_msg e))
    else
      logger_log WARNING
        (lit "Telegram bot is not configured. Message not sent to Telegram.")
  else ret tt.

Definition send_log_summary (u : uploader) : M unit :=
  b <- get_log_buffer ;;
  (if telegram_bot u && match b with [] => false | _ => true end then
     let summary := join nl b in
     for_each (py_range 0 (length summary) max_len) (fun i =>
       try_except
         (bot_send_message (telegram_chat_id u)
            (slice summary i (i + max_len)))
         (fun e =>
            logger_log ERROR (lit "Telegram send error: " ++ exn_msg e)))
   else ret tt) ;;
  set_log_buffer [].

(** [r.raise_for_status()]; the text of the error stands for the message
    of the [HTTPError]. *)
Definition raise_for_status (r : response) : result unit :=
  if ((400 <=? status_code r) && (status_code r <? 600))%Z
  then Raise (Exn (text r))
  else Ok tt.

Definition refresh_dropbox_token (u : uploader) : M pyval :=
  let data := [ (lit "grant_type", PStr (lit "refresh_token"));
                (lit "refresh_token", dropbox_refresh_token u);
                (lit "client_id", dropbox_app_key u);
                (lit "client_secret", dropbox_app_secret u) ] in
  i <- emit (ETokenPost data) ;;
  r <- lift (token_post w i) ;;
  lift (raise_for_status r) ;;
  body <- lift (json r) ;;
  lift (py_get body (lit "access_token") PNone).

Definition list_dropbox_files (u : uploader) : M (list file) :=
  i <- emit (EListFolder (dropbox_folder u)) ;;
  files <- lift (list_folder w i) ;;
  ret (filter (fun f => endswith_any (str_lower w (name f)) valid_exts) files).

Definition default_caption (u : uploader) : pyval :=
  PStr (sparkles ++ lit " #" ++ account_name u ++ lit " " ++ sparkles).

Definition get_caption_from_config (u : uploader) : M pyval :=
  try_except
    (i <- emit (ELoadConfig (schedule_file u)) ;;
     config <- lift (load_config w i) ;;
     j <- emit EClock ;;
     let today := strftime w j (lit "%A") in
     by_account <- lift (py_get config (account_name u) (PDict [])) ;;
     by_day <- lift (py_get by_account today (PDict [])) ;;
     lift (py_get by_day (lit "caption") (default_caption u)))
    (fun e =>
       logger_log WARNING
         (lit "Could not load caption from config: " ++ exn_msg e) ;;
       ret (default_caption u)).

(** The client object that [dropbox.Dropbox] returns holds nothing the
    later calls are modelled to depend on, so it is not passed around. *)
Definition authenticate_dropbox (u : uploader) : M unit :=
  access_token <- refresh_dropbox_token u ;;
  i <- emit (EDropboxNew access_token) ;;
  lift (dropbox_new w i).

(** Steps 2 and 3 of [post_to_threads] are loops that the function may
    leave by [return]: a loop yields [Some b] when the function returned
    [b] from inside it, [None] when control goes on after the loop. *)

(** Step 2, [for _ in range(max_retries)]. *)
Fixpoint poll_loop (u : uploader) (f : file) (creation_id : pyval)
    (range : list nat) : M (option bool) :=
  match range with
  | [] => ret None
  | _ :: range' =>
      i <- emit (EPoll creation_id) ;;
      poll_res <- lift (poll_get w i) ;;
      if negb (status_code poll_res =? 200)%Z then
        send_message u
          (cross_mark ++ lit " Polling failed for " ++ name f ++ lit ": "
           ++ text poll_res) ERROR false ;;
        ret (Some false)
      else
        body <- lift (json poll_res) ;;
        status <- lift (py_get body (lit "status") PNone) ;;
        if py_eq_str status (lit "FINISHED") then
          sleep 3 ;;
          ret None
        else if py_eq_str status (lit "ERROR") then
          send_message u
            (cross_mark ++ lit " Transcode failed for " ++ name f ++ lit ": "
             ++ text poll_res) ERROR false ;;
          ret (Some false)
        else
          sleep 1 ;;
          poll_loop u f creation_id range'
  end.

(** The [try] block of the publish loop: [true] when it ends in
    [continue], [false] when control falls out of it. *)
Definition backend_not_ready (u : uploader) (pub_res : response)
    (attempt : nat) : M bool :=
  try_except
    (err_json <- lift (json pub_res) ;;
     err <- lift (py_get err_json (lit "error") (PDict [])) ;;
     error_code <- lift (py_get err (lit "error_subcode") PNone) ;;
     if py_eq_int error_code retryable_subcode then
       send_message u
         (warning_sign ++ lit " Threads backend not ready yet, retrying... ("
          ++ str_of_nat (attempt + 1) ++ lit "/3)") WARNING false ;;
       sleep 5 ;;
       ret true
     else ret false)
    (fun _ => ret false).

(** Step 3, [for attempt in range(3)]. *)
Fixpoint publish_loop (u : uploader) (f : file) (publish_data : form)
    (range : list nat) : M (option bool) :=
  match range with
  | [] => ret None
  | attempt :: range' =>
      i <- emit (EPublish (threads_user_id u) publish_data) ;;
      pub_res <- lift (publish_post w i) ;;
      if (status_code pub_res =? 200)%Z then
        send_message u
          (check_mark ++ lit " Successfully posted to Threads: " ++ name f)
          INFO false ;;
        ret (Some true)
      else
        again <- backend_not_ready u pub_res attempt ;;
        if again then publish_loop u f publish_data range'
        else
          send_message u
            (cross_mark ++ lit " Threads publish failed: " ++ name f ++ nl
             ++ text pub_res) ERROR false ;;
          ret (Some false)
  end.

(** Lines 142-176: the publish step. *)
Definition publish_step (u : uploader) (f : file) (creation_id : pyval)
    : M bool :=
  let publish_data := [ (lit "access_token", threads_access_token u);
                        (lit "creation_id", creation_id) ] in
  (if str_eqb (account_name u) (lit "eclipsed.by.you") then
     send_message u
       (hourglass ++ lit " Extra wait before publishing for first account...")
       INFO false ;;
     sleep 5
   else ret tt) ;;
  r <- publish_loop u f publish_data (seq 0 3) ;;
  match r with
  | Some b => ret b
  | None =>
      send_message u
        (cross_mark ++ lit " Threads publish failed after retries: " ++ name f)
        ERROR false ;;
      ret false
  end.

(** Lines 127-176: poll, then publish. *)
Definition poll_then_publish (u : uploader) (f : file) (creation_id : pyval)
    : M bool :=
  r <- poll_loop u f creation_id (seq 0 max_retries) ;;
  match r with
  | Some b => ret b
  | None => publish_step u f creation_id
  end.

Definition post_to_threads (u : uploader) (f : file) (caption : pyval)
    : M bool :=
  let name' := str_lower w (name f) in
  let is_video := endswith_any name' [lit ".mp4"; lit ".mov"] in
  let media_type := if is_video then lit "VIDEO" else lit "IMAGE" in
  i <- emit (ETempLink (path_lower f)) ;;
  temp_link <- lift (temp_link w i) ;;
  files <- list_dropbox_files u ;;
  let total_files := length files in
  send_message u
    (rocket ++ lit " Uploading to Threads: " ++ name f ++ nl
     ++ triangular_ruler ++ lit " Type: " ++ media_type ++ nl
     ++ package ++ lit " Remaining: " ++ str_of_nat total_files)
    INFO false ;;
  let data := [ (lit "access_token", threads_access_token u);
                (lit "text", caption) ] in
  if truthy temp_link then
    let data :=
      if is_video
      then data ++ [ (lit "video_url", temp_link);
                     (lit "media_type", PStr (lit "VIDEO")) ]
      else data ++ [ (lit "image_url", temp_link);
                     (lit "media_type", PStr (lit "IMAGE")) ] in
    j <- emit (ECreate (threads_user_id u) data) ;;
    res <- lift (create_post w j) ;;
    if negb (status_code res =? 200)%Z then
      send_message u
        (cross_mark ++ lit " Threads media container creation failed: "
         ++ name f ++ nl ++ text res) ERROR false ;;
      ret false
    else
      body <- lift (json res) ;;
      creation_id <- lift (py_get body (lit "id") PNone) ;;
      if negb (truthy creation_id) then
        send_message u
          (cross_mark ++ lit " No creation_id returned for " ++ name f)
          ERROR false ;;
        ret false
      else poll_then_publish u f creation_id
  else
    let data := data ++ [ (lit "media_type", PStr (lit "TEXT_POST")) ] in
    j <- emit (ECreate (threads_user_id u) data) ;;
    res <- lift (create_post w j) ;;
    if (status_code res =? 200)%Z then
      send_message u
        (check_mark ++ lit " Successfully posted to Threads: " ++ name f)
        INFO false ;;
      ret true
    else
      send_message u
        (cross_mark ++ lit " Threads post failed: " ++ name f ++ nl
         ++ text res) ERROR false ;;
      ret false.

(** [random.choice(seq)] *)
Definition random_choice (files : list file) : M file :=
  match files with
  | [] => lift (Raise (Exn (lit "Cannot choose from an empty sequence")))
  | f0 :: _ =>
      i <- emit (EChoice (length files)) ;;
      ret (nth (rand w i mod length files) files f0)
  end.

Definition run_started (u : uploader) : M unit :=
  i <- emit EClock ;;
  send_message u
    (satellite ++ lit " Threads Run started at: "
     ++ strftime w i (lit "%Y-%m-%d %H:%M:%S")) INFO false.

(** The [finally] block shared by [run] and [run_with_file]. *)
Definition run_complete (u : uploader) : M unit :=
  i <- emit EClock ;;
  send_message u
    (chequered_flag ++ lit " Run complete in " ++ elapsed w i
     ++ lit " seconds") INFO false ;;
  send_log_summary u.

(** The inner [try] of [run] and [run_with_file]. *)
Definition delete_after_attempt (u : uploader) (f : file) : M unit :=
  try_except
    (i <- emit (EDelete (path_lower f)) ;;
     lift (delete_v2 w i) ;;
     send_message u
       (wastebasket ++ lit " Deleted file after attempt: " ++ name f)
       INFO false)
    (fun e =>
       send_message u
         (warning_sign ++ lit " Failed to delete file " ++ name f ++ lit ": "
          ++ exn_msg e) WARNING false).

Definition script_crashed (u : uploader) (e : exn) : M unit :=
  send_message u (cross_mark ++ lit " Script crashed: " ++ exn_msg e)
    ERROR false.

Definition run (u : uploader) : M unit :=
  run_started u ;;
  finally
    (try_except
       (caption <- get_caption_from_config u ;;
        authenticate_dropbox u ;;
        files <- list_dropbox_files u ;;
        match files with
        | [] =>
            send_message u
              (mailbox ++ lit " No files found in Dropbox folder.") INFO false
        | _ =>
            f <- random_choice files ;;
            post_to_threads u f caption ;;
            delete_after_attempt u f
        end)
       (script_crashed u))
    (run_complete u).

(** [run_with_file] of the main block: [(success, name)], where the name is
    [None] after a crash. *)
Definition run_with_file (u : uploader) (chosen_file : file)
    : M (bool * option pystr) :=
  run_started u ;;
  finally
    (try_except
       (caption <- get_caption_from_config u ;;
        authenticate_dropbox u ;;
        success <- post_to_threads u chosen_file caption ;;
        delete_after_attempt u chosen_file ;;
        ret (success, Some (name chosen_file)))
       (fun e => script_crashed u e ;; ret (false, None)))
    (run_complete u).

Definition send_overall_summary (summary_lines : list pystr)
    (telegram_bot_token telegram_chat_id : pyval) : M unit :=
  let summary :=
    lit "[Threads Multi-Account Summary]" ++ nl ++ join nl summary_lines in
  logger_log INFO summary ;;
  try_except
    (i <- emit (EBotNew telegram_bot_token) ;;
     lift (bot_new w i) ;;
     for_each (py_range 0 (length summary) max_len) (fun i =>
       bot_send_message telegram_chat_id (slice summary i (i + max_len))))
    (fun e =>
       logger_log ERROR
         (lit "Telegram send error (overall summary): " ++ exn_msg e)).

Definition ACCOUNTS : list account :=
  [ {| acc_account_name := lit "eclipsed.by.you";
       acc_threads_user_id := getenv w (lit "THREADS_USER_ID_1");
       acc_threads_access_token := getenv w (lit "THREADS_ACCESS_TOKEN_1");
       acc_dropbox_app_key := getenv w (lit "DROPBOX_APP_KEY_1");
       acc_dropbox_app_secret := getenv w (lit "DROPBOX_APP_SECRET_1");
       acc_dropbox_refresh_token := getenv w (lit "DROPBOX_REFRESH_TOKEN_1");
       acc_dropbox_folder := lit "/Threads_1" |};
    {| acc_account_name := lit "inkwisp";
       acc_threads_user_id := getenv w (lit "THREADS_USER_ID_2");
       acc_threads_access_token := getenv w (lit "THREADS_ACCESS_TOKEN_2");
       acc_dropbox_app_key := getenv w (lit "DROPBOX_APP_KEY_2");
       acc_dropbox_app_secret := getenv w (lit "DROPBOX_APP_SECRET_2");
       acc_dropbox_refresh_token := getenv w (lit "DROPBOX_REFRESH_TOKEN_2");
       acc_dropbox_folder := lit "/threads_2" |};
    {| acc_account_name := lit "ink_wisps";
       acc_threads_user_id := getenv w (lit "THREADS_USER_ID_3");
       acc_threads_access_token := getenv w (lit "THREADS_ACCESS_TOKEN_3");
       acc_dropbox_app_key := getenv w (lit "DROPBOX_APP_KEY_3");
       acc_dropbox_app_secret := getenv w (lit "DROPBOX_APP_SECRET_3");
       acc_dropbox_refresh_token := getenv w (lit "DROPBOX_REFRESH_TOKEN_3");
       acc_dropbox_folder := lit "/Threads_3" |} ].

(** [initial_count] is an int or the string ['ERR']. *)
Inductive count := Count (n : nat) | ERR.

(** Lines 304-311. *)
Definition summary_line (a : account) (initial_count : count)
    (posted_file_name : option pystr) (post_success : bool) : pystr :=
  match initial_count with
  | ERR =>
      acc_account_name a ++ lit ": Dropbox error, could not count files."
  | Count n =>
      match posted_file_name with
      | Some (c :: rest) =>
          let status := if post_success
                        then check_mark ++ lit " Success"
                        else cross_mark ++ lit " Failed" in
          acc_account_name a ++ lit ": " ++ str_of_nat n
          ++ lit " files, posted: " ++ (c :: rest) ++ lit ", " ++ status
      | _ =>
          acc_account_name a ++ lit ": " ++ str_of_nat n
          ++ lit " files, no file posted."
      end
  end.

(** The body of [for account in ACCOUNTS], up to the summary line; the
    initial count is returned with it. *)
Definition process_account (a : account) : M (count * pystr) :=
  u <- init a ;;
  r <- try_except
         (authenticate_dropbox u ;;
          files <- list_dropbox_files u ;;
          ret (Count (length files), files))
         (fun _ => ret (ERR, [])) ;;
  let '(initial_count, files) := r in
  p <- match files with
       | _ :: _ =>
           posted_file <- random_choice files ;;
           run_with_file u posted_file
       | [] =>
           run u ;;
           ret (false, None)
       end ;;
  let '(post_success, posted_file_name) := p in
  ret (initial_count,
       summary_line a initial_count posted_file_name post_success).

Fixpoint for_accounts (accounts : list account) (overall_summary : list pystr)
    : M (list pystr) :=
  match accounts with
  | [] => ret overall_summary
  | a :: rest =>
      r <- process_account a ;;
      for_accounts rest (overall_summary ++ [snd r])
  end.

Definition main : M unit :=
  let telegram_bot_token := of_env (getenv w (lit "TELEGRAM_BOT_TOKEN")) in
  let telegram_chat_id := of_env (getenv w (lit "TELEGRAM_CHAT_ID")) in
  overall_summary <- for_accounts ACCOUNTS [] ;;
  send_overall_summary overall_summary telegram_bot_token telegram_chat_id.

End Program.

(** ** Vocabulary of the statements *)

(** The chunks [summary[i:i+max_len]] for [i in range(0, len(summary),
    max_len)], as both senders cut them. *)
Definition chunks (summary : pystr) : list pystr :=
  map (fun i => slice summary i (i + max_len))
      (py_range 0 (length summary) max_len).

(** The texts handed to [bot.send_message], oldest first. *)
Fixpoint telegram_texts (tr : list event) : list pystr :=
  match tr with
  | [] => []
  | ETelegram _ m :: tr' => m :: telegram_texts tr'
  | _ :: tr' => telegram_texts tr'
  end.

(** The calls made between two states of one run. *)
Definition since (s s' : state) : list event :=
  skipn (length (trace s)) (trace s').

(** State after one call is recorded. *)
Definition recorded (s : state) (e : event) : state :=
  {| trace := trace s ++ [e]; log_buffer := log_buffer s |}.

(** The text [send_message] builds. *)
Definition full_msg (u : uploader) (msg : pystr) : pystr :=
  lit "[" ++ account_name u ++ lit "] [" ++ script_name u ++ lit "]"
  ++ nl ++ msg.

(** State after [send_message(msg, level)] without [immediate]. *)
Definition logged (s : state) (u : uploader) (lvl : level) (msg : pystr)
    : state :=
  {| trace := trace s ++ [ELog lvl (full_msg u msg)];
     log_buffer := log_buffer s ++ [full_msg u msg] |}.

(** The JSON of the response is an object whose ["error"] entry is an
    object with an ["error_subcode"] entry [v]. *)
Definition error_subcode_is (r : response) (v : pyval) : Prop :=
  exists d e,
    json r = Ok (PDict d)
    /\ dict_get d (lit "error") = Some (PDict e)
    /\ dict_get e (lit "error_subcode") = Some v.

(** The response carries the subcode that stands for "backend not ready". *)
Definition carries_retryable (r : response) : Prop :=
  exists v, error_subcode_is r v /\ py_eq_int v retryable_subcode = true.

(** [carries_retryable] as a test. *)
Definition retryableb (r : response) : bool :=
  match json r with
  | Ok (PDict d) =>
      match dict_get d (lit "error") with
      | Some (PDict e) =>
          match dict_get e (lit "error_subcode") with
          | Some v => py_eq_int v retryable_subcode
          | None => false
          end
      | _ => false
      end
  | _ => false
  end.

(** State after the [try] block decided for [continue]. *)
Definition retrying (s : state) (u : uploader) (attempt : nat) : state :=
  recorded
    (logged s u WARNING
       (warning_sign ++ lit " Threads backend not ready yet, retrying... ("
        ++ str_of_nat (attempt + 1) ++ lit "/3)"))
    (ESleep 5).

(** What a publish loop over [range] does when its first call is the
    [i]-th publish call of the run: how many calls it makes and how it
    ends ([Ok None]: the range is used up). *)
Inductive publish_run (w : World)
    : nat -> list nat -> nat -> result (option bool) -> Prop :=
| publish_used_up i :
    publish_run w i [] 0 (Ok None)
| publish_raised i a rg e :
    publish_post w i = Raise e ->
    publish_run w i (a :: rg) 1 (Raise e)
| publish_accepted i a rg r :
    publish_post w i = Ok r ->
    status_code r = 200%Z ->
    publish_run w i (a :: rg) 1 (Ok (Some true))
| publish_refused i a rg r :
    publish_post w i = Ok r ->
    status_code r <> 200%Z ->
    ~ carries_retryable r ->
    publish_run w i (a :: rg) 1 (Ok (Some false))
| publish_retried i a rg r n out :
    publish_post w i = Ok r ->
    status_code r <> 200%Z ->
    carries_retryable r ->
    publish_run w (S i) rg n out ->
    publish_run w i (a :: rg) (S n) out.

(** The JSON of the response is an object whose ["status"] is [t]. *)
Definition status_is (r : response) (t : pystr) : Prop :=
  exists d,
    json r = Ok (PDict d) /\ dict_get d (lit "status") = Some (PStr t).

(** The four ways a poll response ends the polling... *)
Definition rejected (r : response) : Prop := status_code r <> 200%Z.

Definition finished (r : response) : Prop :=
  status_code r = 200%Z /\ status_is r (lit "FINISHED").

Definition errored (r : response) : Prop :=
  status_code r = 200%Z /\ status_is r (lit "ERROR").

(** (a 200 response whose body does not parse to a JSON object) *)
Definition malformed (r : response) : Prop :=
  status_code r = 200%Z /\ forall d, json r <> Ok (PDict d).

(** ... and the one way it does not: a 200 response with a JSON object
    whose status, if any, is neither FINISHED nor ERROR. *)
Definition pending (r : response) : Prop :=
  status_code r = 200%Z
  /\ exists d,
       json r = Ok (PDict d)
       /\ dict_get d (lit "status") <> Some (PStr (lit "FINISHED"))
       /\ dict_get d (lit "status") <> Some (PStr (lit "ERROR")).

(** The calls of [k] polls that found the container pending. *)
Fixpoint waits (cid : pyval) (k : nat) : list event :=
  match k with
  | 0 => []
  | S k' => EPoll cid :: ESleep 1 :: waits cid k'
  end.

(** State after [k] pending polls. *)
Definition waited (s : state) (cid : pyval) (k : nat) : state :=
  {| trace := trace s ++ waits cid k; log_buffer := log_buffer s |}.

(** State after [k] pending polls, a poll that found FINISHED and the
    settle delay. *)
Definition settled (s : state) (cid : pyval) (k : nat) : state :=
  {| trace := trace s ++ waits cid k ++ [EPoll cid; ESleep 3];
     log_buffer := log_buffer s |}.

(** The polling claim, for a run of lines 127-176 from state [s], with
    [also_stops] for the responses that end the polling besides FINISHED,
    ERROR and non-200, by an exception. *)
Definition poll_claim (also_stops : response -> Prop) (w : World)
    (u : uploader) (f : file) (cid : pyval) (s : state) : Prop :=
  forall answers : nat -> response,
    (forall n, poll_get w n = Ok (answers n)) ->
    let p0 := calls KPoll (trace s) in
    let out := poll_then_publish w u f cid s in
    let stops r := rejected r \/ finished r \/ errored r \/ also_stops r in
    (forall k, k < 20 ->
       (forall j, j < k -> ~ stops (answers (p0 + j))) ->
       let r := answers (p0 + k) in
       (finished r ->
          calls KPoll (trace (snd out)) = p0 + S k
          /\ out = publish_step w u f cid (settled s cid k))
       /\ (errored r \/ rejected r ->
             calls KPoll (trace (snd out)) = p0 + S k
             /\ fst out = Ok false
             /\ calls KPublish (trace (snd out)) = calls KPublish (trace s))
       /\ (also_stops r ->
             calls KPoll (trace (snd out)) = p0 + S k
             /\ (exists e, fst out = Raise e)
             /\ calls KPublish (trace (snd out)) = calls KPublish (trace s)))
    /\ ((forall k, k < 20 -> ~ stops (answers (p0 + k))) ->
        calls KPoll (trace (snd out)) = p0 + 20).

(** The files of a listing that [list_dropbox_files] keeps. *)
Definition eligible (w : World) (files : list file) : list file :=
  filter (fun f => endswith_any (str_lower w (name f)) valid_exts) files.

(** State after the deletion was attempted in state [s]. *)
Definition after_delete (w : World) (u : uploader) (f : file) (s : state)
    : state :=
  match delete_v2 w (calls KDelete (trace s)) with
  | Ok _ =>
      logged (recorded s (EDelete (path_lower f))) u INFO
        (wastebasket ++ lit " Deleted file after attempt: " ++ name f)
  | Raise e =>
      logged (recorded s (EDelete (path_lower f))) u WARNING
        (warning_sign ++ lit " Failed to delete file " ++ name f ++ lit ": "
         ++ exn_msg e)
  end.

(** State after the crash handler reported [e] in state [s]. *)
Definition crashed (u : uploader) (e : exn) (s : state) : state :=
  logged s u ERROR (cross_mark ++ lit " Script crashed: " ++ exn_msg e).

(** In [run_with_file] from state [s], the publish attempt for the chosen
    file is reached and returns [success], leaving state [s2]. *)
Definition attempt_returns (w : World) (u : uploader) (f : file) (s : state)
    (success : bool) (s2 : state) : Prop :=
  exists caption s0 s1,
    get_caption_from_config w u (snd (run_started w u s)) = (Ok caption, s0)
    /\ authenticate_dropbox w u s0 = (Ok tt, s1)
    /\ post_to_threads w u f caption s1 = (Ok success, s2).

(** In [run_with_file] from state [s], the second authentication or the
    publish attempt raises [e], leaving state [s2]. *)
Definition attempt_raises (w : World) (u : uploader) (f : file) (s : state)
    (e : exn) (s2 : state) : Prop :=
  exists caption s0,
    get_caption_from_config w u (snd (run_started w u s)) = (Ok caption, s0)
    /\ (authenticate_dropbox w u s0 = (Raise e, s2)
        \/ exists s1,
             authenticate_dropbox w u s0 = (Ok tt, s1)
             /\ post_to_threads w u f caption s1 = (Raise e, s2)).

(** In [run] from state [s], a file [f] is chosen and the publish attempt
    for it returns [success], leaving state [s2]. *)
Definition run_attempt_returns (w : World) (u : uploader) (s : state)
    (f : file) (success : bool) (s2 : state) : Prop :=
  exists caption s0 s1 files s3 s4,
    get_caption_from_config w u (snd (run_started w u s)) = (Ok caption, s0)
    /\ authenticate_dropbox w u s0 = (Ok tt, s1)
    /\ list_dropbox_files w u s1 = (Ok files, s3)
    /\ random_choice w files s3 = (Ok f, s4)
    /\ post_to_threads w u f caption s4 = (Ok success, s2).

(** The deletion claim for [run_with_file], as the specification states it:
    one delete call for every chosen file. *)
Definition deleted_once (w : World) (u : uploader) (f : file) (s : state)
    : Prop :=
  calls KDelete (trace (snd (run_with_file w u f s)))
  = calls KDelete (trace s) + 1.

(** A computation that never raises. *)
Definition never_raises {A} (m : M A) : Prop :=
  forall s, exists a s', m s = (Ok a, s').

(** A computation that makes no call of kind [k]. *)
Definition keeps {A} (k : kind) (m : M A) : Prop :=
  forall s, calls k (trace (snd (m s))) = calls k (trace s).

(** A computation whose value, when it returns one, satisfies [P]. *)
Definition returns {A} (m : M A) (P : A -> Prop) : Prop :=
  forall s a s', m s = (Ok a, s') -> P a.

(** A weight per call, summed over a trace. *)
Definition total (wt : event -> nat) (tr : list event) : nat :=
  list_sum (map wt tr).

(** Weight 1 for the calls of kind [k]. *)
Definition counts (k : kind) (e : event) : nat :=
  if kind_eq_dec (kind_of e) k then 1 else 0.

(** The time [time.sleep] is asked to wait. *)
Definition seconds (e : event) : nat :=
  match e with
  | ESleep n => n
  | _ => 0
  end.

(** A computation that adds at most [n] to the weight of the trace. *)
Definition within {A} (wt : event -> nat) (n : nat) (m : M A) : Prop :=
  forall s, total wt (trace (snd (m s))) <= total wt (trace s) + n.

(** A computation that only adds calls to the trace. *)
Definition extends {A} (m : M A) : Prop :=
  forall s, exists new, trace (snd (m s)) = trace s ++ new.

(** The three lookups of [get_caption_from_config] in a loaded file. *)
Definition find_caption (u : uploader) (config : pyval) (today : pystr)
    : result pyval :=
  match py_get config (account_name u) (PDict []) with
  | Raise e => Raise e
  | Ok by_account =>
      match py_get by_account today (PDict []) with
      | Raise e => Raise e
      | Ok by_day => py_get by_day (lit "caption") (default_caption u)
      end
  end.

(** The form [refresh_dropbox_token] posts. *)
Definition token_request (u : uploader) : form :=
  [ (lit "grant_type", PStr (lit "refresh_token"));
    (lit "refresh_token", dropbox_refresh_token u);
    (lit "client_id", dropbox_app_key u);
    (lit "client_secret", dropbox_app_secret u) ].

(** The form of the creation call, by the temporary link and the name of
    the file. *)
Definition creation_form (w : World) (u : uploader) (f : file)
    (caption link : pyval) : form :=
  [ (lit "access_token", threads_access_token u); (lit "text", caption) ]
  ++ (if truthy link then
        if endswith_any (str_lower w (name f)) [lit ".mp4"; lit ".mov"]
        then [ (lit "video_url", link);
               (lit "media_type", PStr (lit "VIDEO")) ]
        else [ (lit "image_url", link);
               (lit "media_type", PStr (lit "IMAGE")) ]
      else [ (lit "media_type", PStr (lit "TEXT_POST")) ]).

(** State of [post_to_threads] when the creation call has been made, with
    [msg] for the upload message. *)
Definition creating (w : World) (u : uploader) (f : file)
    (caption link : pyval) (msg : pystr) (s : state) : state :=
  recorded
    (logged
       (recorded (recorded s (ETempLink (path_lower f)))
          (EListFolder (dropbox_folder u)))
       u INFO msg)
    (ECreate (threads_user_id u) (creation_form w u f caption link)).

(** The JSON of the response is an object with no ["id"] entry. *)
Definition object_without_id (r : response) : Prop :=
  exists d, json r = Ok (PDict d) /\ dict_get d (lit "id") = None.

(** The JSON of the response has no ["id"] field, whatever JSON value it
    is: an object without the entry, or a value that is no object. *)
Definition lacks_id (r : response) : Prop :=
  exists body,
    json r = Ok body
    /\ forall d, body = PDict d -> dict_get d (lit "id") = None.

(** The container-creation claim for a publish attempt from state [s], as
    the specification states it. *)
Definition creation_claim_as_stated (w : World) (u : uploader) (f : file)
    (caption : pyval) (s : state) : Prop :=
  forall link files res,
    temp_link w (calls KTempLink (trace s)) = Ok link ->
    truthy link = true ->
    list_folder w (calls KListFolder (trace s)) = Ok files ->
    create_post w (calls KCreate (trace s)) = Ok res ->
    status_code res <> 200%Z \/ (status_code res = 200%Z /\ lacks_id res) ->
    let out := post_to_threads w u f caption s in
    fst out = Ok false
    /\ calls KPoll (trace (snd out)) = calls KPoll (trace s)
    /\ calls KPublish (trace (snd out)) = calls KPublish (trace s).

(** Of [n] sends due in a row, the first being the [i]-th send of the run,
    [k] are made when an exception ends the row: no send before the last
    one made raises, and either all [n] are made or the last one made
    raises. *)
Definition sends_until_raise (w : World) (i n k : nat) : Prop :=
  (forall j, S j < k -> telegram_send w (i + j) = Ok tt)
  /\ (k = n
      \/ exists j e,
           k = S j /\ S j < n /\ telegram_send w (i + j) = Raise e).

(** The texts of the overall summary, as [send_overall_summary] builds
    it from the lines. *)
Definition overall_summary_text (lines : list pystr) : pystr :=
  lit "[Threads Multi-Account Summary]" ++ nl ++ join nl lines.

(** The notifier claim as the specification states it, for a sender that
    is to send [text] and goes from state [s] to state [s']: the texts
    handed to the bot are at most 4000 characters long each, and their
    concatenation in send order is the text. *)
Definition sent_in_chunks (text : pystr) (s s' : state) : Prop :=
  Forall (fun c => length c <= max_len) (telegram_texts (since s s'))
  /\ concat (telegram_texts (since s s')) = text.

(** ** Concrete worlds for the examples *)

Definition ascii_lower (s : pystr) : pystr :=
  map (fun c => if ((65 <=? c) && (c <=? 90))%N then (c + 32)%N else c) s.

Definition reply (code : Z) (body : result pyval) : response :=
  {| status_code := code; text := lit "body"; json := body |}.

Definition not_json : result pyval :=
  Raise (Exn (lit "Expecting value: line 1 column 1 (char 0)")).

Definition token_reply : response :=
  reply 200 (Ok (PDict [(lit "access_token", PStr (lit "sl.token"))])).

Definition created : response :=
  reply 200 (Ok (PDict [(lit "id", PStr (lit "17890"))])).

Definition in_progress : response :=
  reply 200 (Ok (PDict [(lit "status", PStr (lit "IN_PROGRESS"))])).

Definition finished_reply : response :=
  reply 200 (Ok (PDict [(lit "status", PStr (lit "FINISHED"))])).

Definition published : response :=
  reply 200 (Ok (PDict [(lit "id", PStr (lit "18001"))])).

Definition not_ready : response :=
  reply 400 (Ok (PDict [(lit "error",
                         PDict [(lit "message", PStr (lit "not ready"));
                                (lit "error_subcode", PInt 2207032)])])).

Definition photo : file :=
  {| name := lit "Sunset.JPG"; path_lower := lit "/threads_2/sunset.jpg" |}.

(** A world in which the Dropbox token, the folder listing, the three
    Threads endpoints, the deletion and Telegram answer as given, and
    everything else goes well. *)
Definition world_of
    (tokens : nat -> result response)
    (listings : nat -> result (list file))
    (creations polls publishes : nat -> result response)
    (deletions sends : nat -> result unit) : World :=
  {| getenv := fun key =>
       if str_eqb key (lit "TELEGRAM_BOT_TOKEN") then Some (lit "42:bot")
       else if str_eqb key (lit "TELEGRAM_CHAT_ID") then Some (lit "-100")
       else Some (lit "value");
     str_lower := ascii_lower;
     str_strip := fun t => t;
     bot_new := fun _ => Ok tt;
     token_post := tokens;
     dropbox_new := fun _ => Ok tt;
     list_folder := listings;
     temp_link := fun _ => Ok (PStr (lit "https://dl.example/sunset.jpg"));
     delete_v2 := deletions;
     load_config := fun _ => Raise (Exn (lit "No such file or directory"));
     strftime := fun _ _ => lit "2025-01-01 09:00:00";
     elapsed := fun _ => lit "12.5";
     rand := fun _ => 0;
     create_post := creations;
     poll_get := polls;
     publish_post := publishes;
     telegram_send := sends |}.

(** Everything goes well: one photo in the folder, transcoding finished at
    the first poll, published at the first attempt. *)
Definition calm : World :=
  world_of (fun _ => Ok token_reply) (fun _ => Ok [photo])
    (fun _ => Ok created) (fun _ => Ok finished_reply)
    (fun _ => Ok published) (fun _ => Ok tt) (fun _ => Ok tt).

Definition fresh : state := {| trace := []; log_buffer := [] |}.

Definition inkwisp : uploader :=
  {| account_name := lit "inkwisp";
     script_name := lit "inkwisp_threads_post.py";
     schedule_file := lit "caption/config.json";
     threads_access_token := PStr (lit "value");
     threads_user_id := PStr (lit "value");
     dropbox_app_key := PStr (lit "value");
     dropbox_app_secret := PStr (lit "value");
     dropbox_refresh_token := PStr (lit "value");
     dropbox_folder := lit "/threads_2";
     telegram_bot_token := PStr (lit "42:bot");
     telegram_chat_id := PStr (lit "-100");
     telegram_bot := true |}.

(** The backend is not ready at the first two publish attempts. *)
Definition slow_backend : World :=
  world_of (fun _ => Ok token_reply) (fun _ => Ok [photo])
    (fun _ => Ok created) (fun _ => Ok finished_reply)
    (fun n => if n <? 2 then Ok not_ready else Ok published)
    (fun _ => Ok tt) (fun _ => Ok tt).

(** The publish endpoint answers 502 with an HTML page. *)
Definition bad_gateway : World :=
  world_of (fun _ => Ok token_reply) (fun _ => Ok [photo])
    (fun _ => Ok created) (fun _ => Ok finished_reply)
    (fun _ => Ok (reply 502 not_json))
    (fun _ => Ok tt) (fun _ => Ok tt).

(** Every poll is answered 200 with an HTML page. *)
Definition html_polls : World :=
  world_of (fun _ => Ok token_reply) (fun _ => Ok [photo])
    (fun _ => Ok created) (fun _ => Ok (reply 200 not_json))
    (fun _ => Ok published) (fun _ => Ok tt) (fun _ => Ok tt).

(** Transcoding never finishes. *)
Definition stuck : World :=
  world_of (fun _ => Ok token_reply) (fun _ => Ok [photo])
    (fun _ => Ok created) (fun _ => Ok in_progress)
    (fun _ => Ok published) (fun _ => Ok tt) (fun _ => Ok tt).

(** Transcoding is finished at the third poll. *)
Definition third_poll : World :=
  world_of (fun _ => Ok token_reply) (fun _ => Ok [photo])
    (fun _ => Ok created)
    (fun n => if n <? 2 then Ok in_progress else Ok finished_reply)
    (fun _ => Ok published) (fun _ => Ok tt) (fun _ => Ok tt).

(** The container cannot be created. *)
Definition no_container : World :=
  world_of (fun _ => Ok token_reply) (fun _ => Ok [photo])
    (fun _ => Ok (reply 500 not_json)) (fun _ => Ok finished_reply)
    (fun _ => Ok published) (fun _ => Ok tt) (fun _ => Ok tt).

(** Telegram is down. *)
Definition telegram_down : World :=
  world_of (fun _ => Ok token_reply) (fun _ => Ok [photo])
    (fun _ => Ok created) (fun _ => Ok finished_reply)
    (fun _ => Ok published) (fun _ => Ok tt)
    (fun _ => Raise (Exn (lit "Timed out"))).

(** A buffer whose summary needs three messages. *)
Definition long_buffer : state :=
  {| trace := [];
     log_buffer := [repeat 97%N 3000; repeat 98%N 3000; repeat 99%N 3000] |}.

(** The connection drops when the container is to be created. *)
Definition connection_lost : World :=
  world_of (fun _ => Ok token_reply) (fun _ => Ok [photo])
    (fun _ => Raise (Exn (lit "Connection aborted")))
    (fun _ => Ok finished_reply) (fun _ => Ok published)
    (fun _ => Ok tt) (fun _ => Ok tt).

(** The file cannot be deleted. *)
Definition undeletable : World :=
  world_of (fun _ => Ok token_reply) (fun _ => Ok [photo])
    (fun _ => Ok created) (fun _ => Ok finished_reply)
    (fun _ => Ok published)
    (fun _ => Raise (Exn (lit "path_lookup/not_found")))
    (fun _ => Ok tt).

(** The first token refresh fails, the second goes through. *)
Definition flaky_token : World :=
  world_of
    (fun n => if n =? 0 then Raise (Exn (lit "Connection reset by peer"))
              else Ok token_reply)
    (fun _ => Ok [photo])
    (fun _ => Ok created) (fun _ => Ok finished_reply)
    (fun _ => Ok published) (fun _ => Ok tt) (fun _ => Ok tt).

(** The folder holds nothing to post. *)
Definition empty_folder : World :=
  world_of (fun _ => Ok token_reply)
    (fun _ => Ok [ {| name := lit "notes.txt";
                      path_lower := lit "/threads_2/notes.txt" |} ])
    (fun _ => Ok created) (fun _ => Ok finished_reply)
    (fun _ => Ok published) (fun _ => Ok tt) (fun _ => Ok tt).

(** The second entry of [ACCOUNTS] when every variable is set to
    ["value"]. *)
Definition inkwisp_account : account :=
  {| acc_account_name := lit "inkwisp";
     acc_threads_user_id := Some (lit "value");
     acc_threads_access_token := Some (lit "value");
     acc_dropbox_app_key := Some (lit "value");
     acc_dropbox_app_secret := Some (lit "value");
     acc_dropbox_refresh_token := Some (lit "value");
     acc_dropbox_folder := lit "/threads_2" |}.

(** The first account, kept waiting as long as can be: transcoding is
    finished at the last poll and the backend is never ready. *)
Definition eclipsed : uploader :=
  {| account_name := lit "eclipsed.by.you";
     script_name := lit "eclipsed.by.you_threads_post.py";
     schedule_file := lit "caption/config.json";
     threads_access_token := PStr (lit "value");
     threads_user_id := PStr (lit "value");
     dropbox_app_key := PStr (lit "value");
     dropbox_app_secret := PStr (lit "value");
     dropbox_refresh_token := PStr (lit "value");
     dropbox_folder := lit "/Threads_1";
     telegram_bot_token := PStr (lit "42:bot");
     telegram_chat_id := PStr (lit "-100");
     telegram_bot := true |}.

Definition slowest : World :=
  world_of (fun _ => Ok token_reply) (fun _ => Ok [photo])
    (fun _ => Ok created)
    (fun n => if n <? 19 then Ok in_progress else Ok finished_reply)
    (fun _ => Ok not_ready) (fun _ => Ok tt) (fun _ => Ok tt).

(** A caption file with an entry for inkwisp on Mondays, on a Monday. *)
Definition monday_config : pyval :=
  PDict [ (lit "inkwisp",
           PDict [ (lit "Monday",
                    PDict [ (lit "caption", PStr (lit "New week")) ]) ]) ].

Definition on_monday : World :=
  {| getenv := fun _ => None;
     str_lower := ascii_lower;
     str_strip := fun t => t;
     bot_new := fun _ => Ok tt;
     token_post := fun _ => Ok token_reply;
     dropbox_new := fun _ => Ok tt;
     list_folder := fun _ => Ok [photo];
     temp_link := fun _ => Ok PNone;
     delete_v2 := fun _ => Ok tt;
     load_config := fun _ => Ok monday_config;
     strftime := fun _ fmt =>
       if str_eqb fmt (lit "%A") then lit "Monday"
       else lit "2025-01-06 09:00:00";
     elapsed := fun _ => lit "2.0";
     rand := fun _ => 0;
     create_post := fun _ => Ok created;
     poll_get := fun _ => Ok finished_reply;
     publish_post := fun _ => Ok published;
     telegram_send := fun _ => Ok tt |}.

(** The token endpoint refuses the refresh token. *)
Definition revoked : World :=
  world_of (fun _ => Ok (reply 401 not_json)) (fun _ => Ok [photo])
    (fun _ => Ok created) (fun _ => Ok finished_reply)
    (fun _ => Ok published) (fun _ => Ok tt) (fun _ => Ok tt).

(** No temporary link can be had, and the post is refused. *)
Definition no_link : World :=
  {| getenv := fun _ => None;
     str_lower := ascii_lower;
     str_strip := fun t => t;
     bot_new := fun _ => Ok tt;
     token_post := fun _ => Ok token_reply;
     dropbox_new := fun _ => Ok tt;
     list_folder := fun _ => Ok [photo];
     temp_link := fun _ => Ok (PStr []);
     delete_v2 := fun _ => Ok tt;
     load_config := fun _ => Ok monday_config;
     strftime := fun _ _ => lit "Monday";
     elapsed := fun _ => lit "2.0";
     rand := fun _ => 0;
     create_post := fun _ => Ok (reply 403 not_json);
     poll_get := fun _ => Ok finished_reply;
     publish_post := fun _ => Ok published;
     telegram_send := fun _ => Ok tt |}.

Definition clip : file :=
  {| name := lit "Clip.MOV"; path_lower := lit "/threads_2/clip.mov" |}.

(** Telegram refuses the bot token. *)
Definition bad_token : World :=
  {| getenv := fun _ => Some (lit "not-a-token");
     str_lower := ascii_lower;
     str_strip := fun t => t;
     bot_new := fun _ => Raise (Exn (lit "Invalid token"));
     token_post := fun _ => Ok token_reply;
     dropbox_new := fun _ => Ok tt;
     list_folder := fun _ => Ok [photo];
     temp_link := fun _ => Ok (PStr (lit "https://dl.example/sunset.jpg"));
     delete_v2 := fun _ => Ok tt;
     load_config := fun _ => Ok monday_config;
     strftime := fun _ _ => lit "Monday";
     elapsed := fun _ => lit "2.0";
     rand := fun _ => 0;
     create_post := fun _ => Ok created;
     poll_get := fun _ => Ok finished_reply;
     publish_post := fun _ => Ok published;
     telegram_send := fun _ => Ok tt |}.

(** No Telegram token is set, and the token endpoint is down. *)
Definition silent : World :=
  {| getenv := fun key =>
       if str_eqb key (lit "TELEGRAM_BOT_TOKEN") then None
       else Some (lit "value");
     str_lower := ascii_lower;
     str_strip := fun t => t;
     bot_new := fun _ => Ok tt;
     token_post := fun _ => Raise (Exn (lit "Name or service not known"));
     dropbox_new := fun _ => Ok tt;
     list_folder := fun _ => Ok [photo];
     temp_link := fun _ => Ok (PStr (lit "https://dl.example/sunset.jpg"));
     delete_v2 := fun _ => Ok tt;
     load_config := fun _ => Ok monday_config;
     strftime := fun _ _ => lit "Monday";
     elapsed := fun _ => lit "2.0";
     rand := fun _ => 0;
     create_post := fun _ => Ok created;
     poll_get := fun _ => Ok finished_reply;
     publish_post := fun _ => Ok published;
     telegram_send := fun _ => Ok tt |}.

(** The creation call is answered 200 with a JSON object that holds no
    id. *)
Definition no_id : World :=
  world_of (fun _ => Ok token_reply) (fun _ => Ok [photo])
    (fun _ => Ok (reply 200 (Ok (PDict [(lit "status", PStr (lit "ok"))]))))
    (fun _ => Ok finished_reply) (fun _ => Ok published)
    (fun _ => Ok tt) (fun _ => Ok tt).

(** The creation call is answered 200 with a JSON array. *)
Definition array_body : World :=
  world_of (fun _ => Ok token_reply) (fun _ => Ok [photo])
    (fun _ => Ok (reply 200 (Ok (PList []))))
    (fun _ => Ok finished_reply) (fun _ => Ok published)
    (fun _ => Ok tt) (fun _ => Ok tt).

(** The folder is empty when the files are counted and holds a photo from
    then on. *)
Definition late_file : World :=
  world_of (fun _ => Ok token_reply)
    (fun n => if n =? 0 then Ok [] else Ok [photo])
    (fun _ => Ok created) (fun _ => Ok finished_reply)
    (fun _ => Ok published) (fun _ => Ok tt) (fun _ => Ok tt).

(** The second Telegram send times out, the others go through. *)
Definition second_send_fails : World :=
  world_of (fun _ => Ok token_reply) (fun _ => Ok [photo])
    (fun _ => Ok created) (fun _ => Ok finished_reply)
    (fun _ => Ok published) (fun _ => Ok tt)
    (fun n => if n =? 1 then Raise (Exn (lit "Timed out")) else Ok tt).

(** Summary lines that need three messages. *)
Definition long_lines : list pystr := [repeat 97%N 4500; repeat 98%N 4500].

(** ** Basic facts *)

Lemma max_len_pos : 0 < max_len.
Proof. unfold max_len. apply Nat.ltb_lt. vm_compute. reflexivity. Qed.

Lemma calls_app (k : kind) (a b : list event) :
  calls k (a ++ b) = calls k a + calls k b.
Proof. unfold calls. rewrite map_app. apply count_occ_app. Qed.

Lemma calls_recorded (k : kind) (s : state) (e : event) :
  calls k (trace (recorded s e)) = calls k (trace s) + calls k [e].
Proof. apply calls_app. Qed.

Lemma calls_logged (k : kind) s u lvl msg :
  k <> KLog -> calls k (trace (logged s u lvl msg)) = calls k (trace s).
Proof.
  intros Hk. unfold logged; cbn [trace]. rewrite calls_app.
  destruct k; try congruence; cbn; lia.
Qed.

Lemma since_app (s s' : state) (new : list event) :
  trace s' = trace s ++ new -> since s s' = new.
Proof.
  intros H. unfold since. rewrite H, skipn_app, skipn_all, Nat.sub_diag.
  reflexivity.
Qed.

Lemma telegram_texts_app (a b : list event) :
  telegram_texts (a ++ b) = telegram_texts a ++ telegram_texts b.
Proof.
  induction a as [|e a IH]; [reflexivity|].
  destruct e; cbn; rewrite ?IH; reflexivity.
Qed.

(** *** Cutting a text into chunks *)

Lemma py_range_from_zero (n m : nat) :
  py_range 0 n m = map (fun k => k * m) (seq 0 ((n + (m - 1)) / m)).
Proof. unfold py_range. rewrite Nat.sub_0_r. reflexivity. Qed.

Lemma ceil_covers (n m : nat) : 0 < m -> n <= (n + (m - 1)) / m * m.
Proof.
  intros Hm.
  pose proof (Nat.div_mod_eq (n + (m - 1)) m) as E.
  pose proof (Nat.mod_upper_bound (n + (m - 1)) m ltac:(lia)) as B.
  nia.
Qed.

Lemma slice_width (s : pystr) (i m : nat) :
  slice s i (i + m) = firstn m (skipn i s).
Proof. unfold slice. replace (i + m - i) with m by lia. reflexivity. Qed.

Lemma pieces_concat (m : nat) :
  0 < m ->
  forall (c : nat) (s : pystr),
    length s <= c * m ->
    concat (map (fun k => firstn m (skipn (k * m) s)) (seq 0 c)) = s.
Proof.
  intros Hm c. induction c as [|c IH]; intros s Hs.
  - destruct s; [reflexivity | cbn in Hs; lia].
  - cbn [seq map concat]. rewrite <- seq_shift, map_map.
    cbn [Nat.mul skipn].
    rewrite (map_ext _ (fun k => firstn m (skipn (k * m) (skipn m s)))).
    + rewrite IH.
      * apply firstn_skipn.
      * rewrite length_skipn. lia.
    + intros k. rewrite skipn_skipn. f_equal. f_equal. cbn. lia.
Qed.

Lemma chunks_concat (s : pystr) : concat (chunks s) = s.
Proof.
  unfold chunks. rewrite py_range_from_zero, map_map.
  rewrite (map_ext _ (fun k => firstn max_len (skipn (k * max_len) s))).
  - apply pieces_concat; [apply max_len_pos|].
    apply ceil_covers, max_len_pos.
  - intros k. apply slice_width.
Qed.

Lemma chunks_bounded (s : pystr) :
  Forall (fun c => length c <= max_len) (chunks s).
Proof.
  unfold chunks. apply Forall_forall. intros c Hc.
  apply in_map_iff in Hc. destruct Hc as [i [<- _]].
  rewrite slice_width. apply firstn_le_length.
Qed.

Lemma chunks_nil : chunks [] = [].
Proof.
  unfold chunks. rewrite py_range_from_zero. cbn [length Nat.add].
  rewrite Nat.div_small; [reflexivity|]. pose proof max_len_pos. lia.
Qed.

(** *** The primitives of the program *)

Section Facts.

Variable w : World.

Lemma send_message_plain u msg lvl s :
  send_message w u msg lvl false s = (Ok tt, logged s u lvl msg).
Proof. reflexivity. Qed.

Lemma sleep_recorded n s : sleep n s = (Ok tt, recorded s (ESleep n)).
Proof. reflexivity. Qed.

Lemma logger_log_recorded lvl msg s :
  logger_log lvl msg s = (Ok tt, recorded s (ELog lvl msg)).
Proof. reflexivity. Qed.

(** One guarded send of [send_log_summary]: the call is made, and a raised
    exception only adds a log line. *)
Lemma guarded_send chat m s :
  exists rest,
    try_except (bot_send_message w chat m)
      (fun e => logger_log ERROR (lit "Telegram send error: " ++ exn_msg e)) s
    = (Ok tt, {| trace := trace s ++ ETelegram chat m :: rest;
                 log_buffer := log_buffer s |})
    /\ telegram_texts rest = [].
Proof.
  unfold try_except, bot_send_message, bind, emit, lift.
  destruct (telegram_send w (calls (kind_of (ETelegram chat m)) (trace s)))
    as [[]|e].
  - exists []. split; reflexivity.
  - exists [ELog ERROR (lit "Telegram send error: " ++ exn_msg e)].
    split; [|reflexivity].
    unfold logger_log, bind, emit, ret. cbn [trace log_buffer].
    rewrite <- app_assoc. reflexivity.
Qed.

Lemma guarded_sends chat (g : nat -> pystr) (xs : list nat) s :
  exists new,
    for_each xs (fun i =>
      try_except (bot_send_message w chat (g i))
        (fun e =>
           logger_log ERROR (lit "Telegram send error: " ++ exn_msg e))) s
    = (Ok tt, {| trace := trace s ++ new; log_buffer := log_buffer s |})
    /\ telegram_texts new = map g xs.
Proof.
  revert s. induction xs as [|x xs IH]; intros s.
  - exists []. rewrite app_nil_r. destruct s; split; reflexivity.
  - cbn [for_each]. unfold bind at 1.
    destruct (guarded_send chat (g x) s) as [rest [E Hrest]]. rewrite E.
    destruct (IH {| trace := trace s ++ ETelegram chat (g x) :: rest;
                    log_buffer := log_buffer s |}) as [new [E' Hnew]].
    rewrite E'. cbn [trace log_buffer].
    exists (ETelegram chat (g x) :: rest ++ new). split.
    + rewrite <- app_assoc. reflexivity.
    + cbn. rewrite telegram_texts_app, Hrest, Hnew. reflexivity.
Qed.

(** [send_log_summary] never raises, empties the buffer, and hands every
    chunk of the joined buffer to the bot when one is configured. *)
Lemma send_log_summary_effect u s :
  exists new,
    send_log_summary w u s
    = (Ok tt, {| trace := trace s ++ new; log_buffer := [] |})
    /\ telegram_texts new
       = if telegram_bot u then chunks (join nl (log_buffer s)) else [].
Proof.
  unfold send_log_summary, bind at 1, get_log_buffer.
  destruct (telegram_bot u) eqn:Hbot; cbn [andb].
  - destruct (log_buffer s) as [|m b] eqn:Hb.
    + exists []. rewrite app_nil_r. cbn [join]. rewrite chunks_nil.
      split; reflexivity.
    + unfold bind.
      destruct (guarded_sends (telegram_chat_id u)
                  (fun i => slice (join nl (m :: b)) i (i + max_len))
                  (py_range 0 (length (join nl (m :: b))) max_len) s)
        as [new [E Hnew]].
      rewrite E. exists new. split; [reflexivity|]. exact Hnew.
  - exists []. rewrite app_nil_r. split; reflexivity.
Qed.

(** The unguarded sends of [send_overall_summary], when none raises. *)
Lemma plain_sends chat (g : nat -> pystr) (xs : list nat) s :
  (forall n, telegram_send w n = Ok tt) ->
  for_each xs (fun i => bot_send_message w chat (g i)) s
  = (Ok tt, {| trace := trace s ++ map (fun i => ETelegram chat (g i)) xs;
               log_buffer := log_buffer s |}).
Proof.
  intros Hsend. revert s. induction xs as [|x xs IH]; intros s.
  - cbn. rewrite app_nil_r. destruct s; reflexivity.
  - cbn [for_each map]. unfold bind at 1, bot_send_message, bind, emit, lift.
    rewrite Hsend. rewrite IH. cbn [trace log_buffer].
    rewrite <- app_assoc. reflexivity.
Qed.

Lemma telegram_texts_sends chat (g : nat -> pystr) (xs : list nat) :
  telegram_texts (map (fun i => ETelegram chat (g i)) xs) = map g xs.
Proof. induction xs as [|x xs IH]; cbn; [|rewrite IH]; reflexivity. Qed.

End Facts.

(** *** Calls a computation does not make *)

Section Keeps.

Variable k : kind.

Lemma keeps_ret {A} (a : A) : keeps k (ret a).
Proof. intros s. reflexivity. Qed.

Lemma keeps_lift {A} (r : result A) : keeps k (lift r).
Proof. intros s. reflexivity. Qed.

Lemma keeps_emit e : kind_of e <> k -> keeps k (emit e).
Proof.
  intros H s. unfold emit; cbn [snd trace]. rewrite calls_app.
  unfold calls at 2; cbn.
  destruct (kind_eq_dec (kind_of e) k); [contradiction | lia].
Qed.

Lemma keeps_get_log_buffer : keeps k get_log_buffer.
Proof. intros s. reflexivity. Qed.

Lemma keeps_set_log_buffer b : keeps k (set_log_buffer b).
Proof. intros s. reflexivity. Qed.

Lemma keeps_bind_returns {A B} (m : M A) (f : A -> M B) (P : A -> Prop) :
  keeps k m -> returns m P -> (forall a, P a -> keeps k (f a)) ->
  keeps k (bind m f).
Proof.
  intros Hm HP Hf s. unfold bind. specialize (Hm s).
  destruct (m s) as [[a|e] s'] eqn:E; cbn [snd] in *.
  - rewrite (Hf a (HP _ _ _ E)). exact Hm.
  - exact Hm.
Qed.

Lemma keeps_bind {A B} (m : M A) (f : A -> M B) :
  keeps k m -> (forall a, keeps k (f a)) -> keeps k (bind m f).
Proof.
  intros Hm Hf.
  apply keeps_bind_returns with (P := fun _ => True); auto.
  intros s a s' _. exact I.
Qed.

Lemma keeps_try_except {A} (m : M A) (h : exn -> M A) :
  keeps k m -> (forall e, keeps k (h e)) -> keeps k (try_except m h).
Proof.
  intros Hm Hh s. unfold try_except. specialize (Hm s).
  destruct (m s) as [[a|e] s']; cbn [snd] in *.
  - exact Hm.
  - rewrite Hh. exact Hm.
Qed.

Lemma keeps_finally {A} (m : M A) (f : M unit) :
  keeps k m -> keeps k f -> keeps k (finally m f).
Proof.
  intros Hm Hf s. unfold finally. specialize (Hm s).
  destruct (m s) as [r s']; cbn [snd] in *. specialize (Hf s').
  destruct (f s') as [[[]|e] s'']; cbn [snd] in *; congruence.
Qed.

Lemma keeps_for_each {A} (xs : list A) (body : A -> M unit) :
  (forall x, keeps k (body x)) -> keeps k (for_each xs body).
Proof.
  intros Hb. induction xs as [|x xs IH]; cbn [for_each].
  - apply keeps_ret.
  - apply keeps_bind; auto.
Qed.

End Keeps.

(** One step of a proof that a computation keeps a kind of call. *)
Ltac keeps_step :=
  match goal with
  | |- keeps _ (bind _ _) => apply keeps_bind; [|intros ?]
  | |- keeps _ (ret _) => apply keeps_ret
  | |- keeps _ (lift _) => apply keeps_lift
  | |- keeps _ (emit _) => apply keeps_emit; cbn; congruence
  | |- keeps _ get_log_buffer => apply keeps_get_log_buffer
  | |- keeps _ (set_log_buffer _) => apply keeps_set_log_buffer
  | |- keeps _ (try_except _ _) => apply keeps_try_except; [|intros ?]
  | |- keeps _ (finally _ _) => apply keeps_finally
  | |- keeps _ (for_each _ _) => apply keeps_for_each; intros ?
  | |- keeps _ (if ?b then _ else _) => destruct b
  | |- keeps _ (match ?x with _ => _ end) => destruct x
  | |- keeps _ (let '(_, _) := ?x in _) => destruct x
  end.

Ltac keeps_all := repeat keeps_step.

Section ProgramKeeps.

Variable w : World.
Variable k : kind.

Lemma keeps_sleep n : k <> KSleep -> keeps k (sleep n).
Proof. intros. unfold sleep. keeps_all. Qed.

Lemma keeps_logger_log lvl msg : k <> KLog -> keeps k (logger_log lvl msg).
Proof. intros. unfold logger_log. keeps_all. Qed.

Lemma keeps_bot_send_message chat msg :
  k <> KTelegram -> keeps k (bot_send_message w chat msg).
Proof. intros. unfold bot_send_message. keeps_all. Qed.

Lemma keeps_send_message u msg lvl immediate :
  k <> KLog -> k <> KTelegram -> keeps k (send_message w u msg lvl immediate).
Proof.
  intros. unfold send_message.
  keeps_all; auto using keeps_logger_log, keeps_bot_send_message.
Qed.

Lemma keeps_send_log_summary u :
  k <> KLog -> k <> KTelegram -> keeps k (send_log_summary w u).
Proof.
  intros. unfold send_log_summary.
  keeps_all; auto using keeps_logger_log, keeps_bot_send_message.
Qed.

Lemma keeps_list_dropbox_files u :
  k <> KListFolder -> keeps k (list_dropbox_files w u).
Proof. intros. unfold list_dropbox_files. keeps_all. Qed.

Lemma keeps_get_caption_from_config u :
  k <> KLoadConfig -> k <> KClock -> k <> KLog ->
  keeps k (get_caption_from_config w u).
Proof.
  intros. unfold get_caption_from_config.
  keeps_all; auto using keeps_logger_log.
Qed.

Lemma keeps_authenticate_dropbox u :
  k <> KTokenPost -> k <> KDropboxNew -> keeps k (authenticate_dropbox w u).
Proof.
  intros. unfold authenticate_dropbox, refresh_dropbox_token. keeps_all.
Qed.

Lemma keeps_poll_loop u f cid range :
  k <> KPoll -> k <> KSleep -> k <> KLog -> k <> KTelegram ->
  keeps k (poll_loop w u f cid range).
Proof.
  intros. induction range as [|a range IH]; cbn [poll_loop].
  - keeps_all.
  - keeps_all; auto using keeps_send_message, keeps_sleep.
Qed.

Lemma keeps_backend_not_ready u r attempt :
  k <> KSleep -> k <> KLog -> k <> KTelegram ->
  keeps k (backend_not_ready w u r attempt).
Proof.
  intros. unfold backend_not_ready.
  keeps_all; auto using keeps_send_message, keeps_sleep.
Qed.

Lemma keeps_publish_loop u f data range :
  k <> KPublish -> k <> KSleep -> k <> KLog -> k <> KTelegram ->
  keeps k (publish_loop w u f data range).
Proof.
  intros. induction range as [|a range IH]; cbn [publish_loop].
  - keeps_all.
  - keeps_all;
      auto using keeps_send_message, keeps_sleep, keeps_backend_not_ready.
Qed.

Lemma keeps_publish_step u f cid :
  k <> KPublish -> k <> KSleep -> k <> KLog -> k <> KTelegram ->
  keeps k (publish_step w u f cid).
Proof.
  intros. unfold publish_step.
  keeps_all; auto using keeps_send_message, keeps_sleep, keeps_publish_loop.
Qed.

Lemma keeps_poll_then_publish u f cid :
  k <> KPoll -> k <> KPublish -> k <> KSleep -> k <> KLog ->
  k <> KTelegram ->
  keeps k (poll_then_publish w u f cid).
Proof.
  intros. unfold poll_then_publish.
  keeps_all; auto using keeps_poll_loop, keeps_publish_step.
Qed.

Lemma keeps_post_to_threads u f caption :
  k <> KTempLink -> k <> KListFolder -> k <> KCreate -> k <> KPoll ->
  k <> KPublish -> k <> KSleep -> k <> KLog -> k <> KTelegram ->
  keeps k (post_to_threads w u f caption).
Proof.
  intros. unfold post_to_threads.
  keeps_all;
    auto using keeps_send_message, keeps_list_dropbox_files,
      keeps_poll_then_publish.
Qed.

Lemma keeps_run_started u :
  k <> KClock -> k <> KLog -> k <> KTelegram -> keeps k (run_started w u).
Proof.
  intros. unfold run_started. keeps_all; auto using keeps_send_message.
Qed.

Lemma keeps_run_complete u :
  k <> KClock -> k <> KLog -> k <> KTelegram -> keeps k (run_complete w u).
Proof.
  intros. unfold run_complete.
  keeps_all; auto using keeps_send_message, keeps_send_log_summary.
Qed.

Lemma keeps_script_crashed u e :
  k <> KLog -> k <> KTelegram -> keeps k (script_crashed w u e).
Proof. intros. unfold script_crashed. auto using keeps_send_message. Qed.

Lemma keeps_init a :
  k <> KBotNew -> k <> KClock -> keeps k (init w a).
Proof. intros. unfold init. keeps_all. Qed.

Lemma keeps_random_choice files :
  k <> KChoice -> keeps k (random_choice w files).
Proof. intros. unfold random_choice. keeps_all. Qed.

End ProgramKeeps.

(** *** The publish loop *)

Lemma str_eqb_eq (a b : pystr) : str_eqb a b = true <-> a = b.
Proof.
  revert b. induction a as [|x a IH]; intros [|y b]; cbn;
    try (split; [discriminate | congruence]).
  - split; reflexivity.
  - rewrite andb_true_iff, N.eqb_eq, IH. split.
    + intros [-> ->]. reflexivity.
    + intros E. inversion E. split; reflexivity.
Qed.

Lemma retryableb_carries (r : response) :
  retryableb r = true <-> carries_retryable r.
Proof.
  unfold retryableb, carries_retryable, error_subcode_is. split.
  - destruct (json r) as [[| | | | |l|d]|e]; try discriminate.
    destruct (dict_get d (lit "error")) as [[| | | | |l|e]|] eqn:He;
      try discriminate.
    destruct (dict_get e (lit "error_subcode")) as [v|] eqn:Hv;
      try discriminate.
    intros H. exists v. split; [|exact H]. exists d, e. auto.
  - intros [v [[d [e [Hj [He Hv]]]] H]]. rewrite Hj, He, Hv. exact H.
Qed.

Lemma not_retryableb (r : response) :
  retryableb r = false <-> ~ carries_retryable r.
Proof.
  rewrite <- retryableb_carries. destruct (retryableb r); split; intros H;
    congruence.
Qed.

Section PublishLoop.

Variable w : World.

Lemma backend_not_ready_effect u r attempt s :
  backend_not_ready w u r attempt s
  = (Ok (retryableb r), if retryableb r then retrying s u attempt else s).
Proof.
  unfold backend_not_ready, retryableb, try_except, bind, lift.
  destruct (json r) as [[| | | | |l|d]|e]; try reflexivity.
  cbn [py_get].
  destruct (dict_get d (lit "error")) as [[| | | | |l|e]|]; try reflexivity.
  - cbn [py_get].
    destruct (dict_get e (lit "error_subcode")) as [v|].
    + destruct (py_eq_int v retryable_subcode); reflexivity.
    + reflexivity.
Qed.

Lemma calls_retrying k s u attempt :
  k <> KLog -> k <> KSleep ->
  calls k (trace (retrying s u attempt)) = calls k (trace s).
Proof.
  intros H1 H2. unfold retrying. rewrite calls_recorded, calls_logged by auto.
  destruct k; try congruence; cbn; lia.
Qed.

(** One turn of the loop. *)
Lemma publish_loop_turn u f data a range s :
  let s1 := recorded s (EPublish (threads_user_id u) data) in
  publish_loop w u f data (a :: range) s
  = match publish_post w (calls KPublish (trace s)) with
    | Raise e => (Raise e, s1)
    | Ok r =>
        if (status_code r =? 200)%Z then
          (Ok (Some true),
           logged s1 u INFO
             (check_mark ++ lit " Successfully posted to Threads: " ++ name f))
        else if retryableb r then
          publish_loop w u f data range (retrying s1 u a)
        else
          (Ok (Some false),
           logged s1 u ERROR
             (cross_mark ++ lit " Threads publish failed: " ++ name f ++ nl
              ++ text r))
    end.
Proof.
  intros s1. cbn [publish_loop]. unfold bind at 1, emit. unfold bind at 1, lift.
  cbn [kind_of]. fold s1.
  destruct (publish_post w (calls KPublish (trace s))) as [r|e];
    [|reflexivity].
  destruct (status_code r =? 200)%Z.
  - unfold bind. rewrite send_message_plain. reflexivity.
  - unfold bind at 1. rewrite backend_not_ready_effect.
    destruct (retryableb r); [reflexivity|].
    unfold bind. rewrite send_message_plain. reflexivity.
Qed.

Lemma publish_loop_run u f data range :
  forall s,
  exists n,
    publish_run w (calls KPublish (trace s)) range n
      (fst (publish_loop w u f data range s))
    /\ calls KPublish (trace (snd (publish_loop w u f data range s)))
       = calls KPublish (trace s) + n.
Proof.
  induction range as [|a range IH]; intros s.
  - exists 0. cbn. split; [constructor | lia].
  - rewrite publish_loop_turn.
    set (s1 := recorded s (EPublish (threads_user_id u) data)).
    assert (Hs1 : calls KPublish (trace s1) = S (calls KPublish (trace s))).
    { unfold s1. rewrite calls_recorded. cbn. lia. }
    destruct (publish_post w (calls KPublish (trace s))) as [r|e] eqn:Hpost.
    + destruct (status_code r =? 200)%Z eqn:Hcode.
      * exists 1. cbn [fst snd]. split.
        -- eapply publish_accepted; eauto. apply Z.eqb_eq. exact Hcode.
        -- rewrite calls_logged by discriminate. lia.
      * apply Z.eqb_neq in Hcode.
        destruct (retryableb r) eqn:Hretry.
        -- destruct (IH (retrying s1 u a)) as [n [Hrun Hcalls]].
           rewrite calls_retrying, Hs1 in Hrun, Hcalls by discriminate.
           exists (S n). split.
           ++ eapply publish_retried; eauto.
              apply retryableb_carries. exact Hretry.
           ++ rewrite Hcalls. lia.
        -- exists 1. cbn [fst snd]. split.
           ++ eapply publish_refused; eauto.
              apply not_retryableb. exact Hretry.
           ++ rewrite calls_logged by discriminate. lia.
    + exists 1. cbn [fst snd]. split.
      * eapply publish_raised; eauto.
      * lia.
Qed.

(** What a run of the loop tells about the answers it got. *)

Lemma publish_run_bounded i range n out :
  publish_run w i range n out -> n <= length range.
Proof. induction 1; cbn; lia. Qed.

Lemma publish_run_starts i a range n out :
  publish_run w i (a :: range) n out -> 1 <= n.
Proof. inversion 1; lia. Qed.

Lemma publish_run_retries i range n out :
  publish_run w i range n out ->
  forall j, S j < n ->
    exists r, publish_post w (i + j) = Ok r
              /\ status_code r <> 200%Z /\ carries_retryable r.
Proof.
  induction 1 as [| | | |i a rg r n out Hpost Hcode Hcarry Hrun IH];
    intros j Hj; try lia.
  destruct j as [|j].
  - rewrite Nat.add_0_r. eauto.
  - replace (i + S j) with (S i + j) by lia. apply IH. lia.
Qed.

Lemma publish_run_refusal i range n out :
  publish_run w i range n out ->
  forall j r, j < n ->
    publish_post w (i + j) = Ok r ->
    status_code r <> 200%Z ->
    ~ carries_retryable r ->
    n = S j /\ out = Ok (Some false).
Proof.
  induction 1 as [|i a rg e Hpost|i a rg r0 Hpost Hcode
                  |i a rg r0 Hpost Hcode Hcarry
                  |i a rg r0 n out Hpost Hcode Hcarry Hrun IH];
    intros j r Hj Hr Hr200 Hno; try lia.
  - assert (j = 0) by lia. subst j. rewrite Nat.add_0_r in Hr. congruence.
  - assert (j = 0) by lia. subst j. rewrite Nat.add_0_r in Hr.
    assert (r = r0) by congruence. subst r0. contradiction.
  - assert (j = 0) by lia. subst j. auto.
  - destruct j as [|j].
    + rewrite Nat.add_0_r in Hr. assert (r = r0) by congruence. subst r0.
      contradiction.
    + replace (i + S j) with (S i + j) in Hr by lia.
      destruct (IH j r ltac:(lia) Hr Hr200 Hno) as [-> ->]. auto.
Qed.

Lemma publish_run_no_success i range n out :
  publish_run w i range n out ->
  (forall j, j < n ->
     exists r, publish_post w (i + j) = Ok r /\ status_code r <> 200%Z) ->
  out = Ok None \/ out = Ok (Some false).
Proof.
  induction 1 as [|i a rg e Hpost|i a rg r0 Hpost Hcode
                  |i a rg r0 Hpost Hcode Hcarry
                  |i a rg r0 n out Hpost Hcode Hcarry Hrun IH];
    intros Hall; auto.
  - destruct (Hall 0 ltac:(lia)) as [r [Hr _]].
    rewrite Nat.add_0_r in Hr. congruence.
  - destruct (Hall 0 ltac:(lia)) as [r [Hr Hr200]].
    rewrite Nat.add_0_r in Hr. assert (r = r0) by congruence. subst r0.
    contradiction.
  - apply IH. intros j Hj. destruct (Hall (S j) ltac:(lia)) as [r [Hr Hr200]].
    replace (i + S j) with (S i + j) in Hr by lia. eauto.
Qed.

(** The publish step around the loop: the extra wait makes no publish
    call, and a used-up range is a failure. *)
Lemma publish_step_run u f cid s :
  exists n out,
    publish_run w (calls KPublish (trace s)) (seq 0 3) n out
    /\ calls KPublish (trace (snd (publish_step w u f cid s)))
       = calls KPublish (trace s) + n
    /\ fst (publish_step w u f cid s)
       = match out with
         | Ok (Some b) => Ok b
         | Ok None => Ok false
         | Raise e => Raise e
         end.
Proof.
  unfold publish_step, bind.
  set (wait := if str_eqb (account_name u) (lit "eclipsed.by.you")
               then _ else _).
  assert (Hwait : exists s0, wait s = (Ok tt, s0)
                    /\ calls KPublish (trace s0) = calls KPublish (trace s)).
  { unfold wait. destruct (str_eqb _ _).
    - rewrite send_message_plain, sleep_recorded.
      eexists. split; [reflexivity|].
      rewrite calls_recorded, calls_logged by discriminate. cbn. lia.
    - exists s. split; reflexivity. }
  destruct Hwait as [s0 [-> Hs0]].
  set (data := [(lit "access_token", threads_access_token u);
                (lit "creation_id", cid)]).
  destruct (publish_loop_run u f data (seq 0 3) s0) as [n [Hrun Hcalls]].
  rewrite Hs0 in Hrun, Hcalls.
  exists n, (fst (publish_loop w u f data (seq 0 3) s0)).
  destruct (publish_loop w u f data (seq 0 3) s0) as [[[b|]|e] s1];
    cbn [fst snd] in *.
  - auto.
  - rewrite send_message_plain. cbn [fst snd ret].
    rewrite calls_logged by discriminate. auto.
  - auto.
Qed.

End PublishLoop.

(** *** The steps before the polling *)

Lemma calls_snoc_other k tr e :
  kind_of e <> k -> calls k (tr ++ [e]) = calls k tr.
Proof.
  intros H. rewrite calls_app. unfold calls at 2; cbn.
  destruct (kind_eq_dec (kind_of e) k); [contradiction | lia].
Qed.

Section Posting.

Variable w : World.

Lemma list_dropbox_files_run u s files :
  list_folder w (calls KListFolder (trace s)) = Ok files ->
  list_dropbox_files w u s
  = (Ok (filter (fun f => endswith_any (str_lower w (name f)) valid_exts)
           files),
     recorded s (EListFolder (dropbox_folder u))).
Proof.
  intros H. unfold list_dropbox_files, bind, emit, lift. cbn [kind_of].
  rewrite H. reflexivity.
Qed.

(** [post_to_threads] with a temporary link, from the creation call on. *)
Lemma post_to_threads_media u f caption s link files :
  temp_link w (calls KTempLink (trace s)) = Ok link ->
  truthy link = true ->
  list_folder w (calls KListFolder (trace s)) = Ok files ->
  exists s2,
    (forall k, k <> KTempLink -> k <> KListFolder -> k <> KLog ->
       k <> KCreate -> calls k (trace s2) = calls k (trace s))
    /\ post_to_threads w u f caption s
       = match create_post w (calls KCreate (trace s)) with
         | Raise e => (Raise e, s2)
         | Ok res =>
             if negb (status_code res =? 200)%Z then
               (Ok false,
                logged s2 u ERROR
                  (cross_mark
                   ++ lit " Threads media container creation failed: "
                   ++ name f ++ nl ++ text res))
             else
               match json res with
               | Raise e => (Raise e, s2)
               | Ok body =>
                   match py_get body (lit "id") PNone with
                   | Raise e => (Raise e, s2)
                   | Ok creation_id =>
                       if negb (truthy creation_id) then
                         (Ok false,
                          logged s2 u ERROR
                            (cross_mark ++ lit " No creation_id returned for "
                             ++ name f))
                       else poll_then_publish w u f creation_id s2
                   end
               end
         end.
Proof.
  intros Hlink Htruthy Hfiles.
  unfold post_to_threads.
  unfold bind at 1, emit. cbn [kind_of]. unfold bind at 1, lift.
  rewrite Hlink. unfold bind at 1.
  rewrite (list_dropbox_files_run u _ files)
    by (cbn [trace]; rewrite calls_snoc_other by discriminate; exact Hfiles).
  unfold bind at 1. rewrite send_message_plain. rewrite Htruthy.
  match goal with
  | |- context [logged ?a ?b ?c ?d] => set (s1 := logged a b c d)
  end.
  unfold bind at 1, emit. cbn [kind_of].
  match goal with
  | |- context [ECreate ?a ?b] => set (ev := ECreate a b)
  end.
  exists (recorded s1 ev). split.
  - intros k H1 H2 H3 H4. unfold s1, ev, recorded, logged; cbn [trace].
    rewrite !calls_app. destruct k; try congruence; cbn; lia.
  - assert (E : calls KCreate (trace s1) = calls KCreate (trace s)).
    { unfold s1, logged, recorded; cbn [trace]. rewrite !calls_app.
      cbn. lia. }
    rewrite E. unfold bind at 1, lift.
    destruct (create_post w (calls KCreate (trace s))) as [res|e];
      [|reflexivity].
    destruct (negb (status_code res =? 200)%Z).
    + unfold bind. rewrite send_message_plain. reflexivity.
    + unfold bind at 1. destruct (json res) as [body|e]; [|reflexivity].
      unfold bind at 1.
      destruct (py_get body (lit "id") PNone) as [cid|e]; [|reflexivity].
      destruct (negb (truthy cid)).
      * unfold bind. rewrite send_message_plain. reflexivity.
      * reflexivity.
Qed.

(** [send_overall_summary] when the bot can be made and every send goes
    through. *)
Lemma send_overall_summary_effect lines token chat s :
  bot_new w (calls KBotNew (trace s)) = Ok tt ->
  (forall n, telegram_send w n = Ok tt) ->
  let summary :=
    lit "[Threads Multi-Account Summary]" ++ nl ++ join nl lines in
  send_overall_summary w lines token chat s
  = (Ok tt,
     {| trace := trace s
                 ++ [ELog INFO summary; EBotNew token]
                 ++ map (fun i => ETelegram chat (slice summary i (i + max_len)))
                      (py_range 0 (length summary) max_len);
        log_buffer := log_buffer s |}).
Proof.
  intros Hbot Hsend summary. unfold send_overall_summary. fold summary.
  unfold bind at 1. rewrite logger_log_recorded.
  unfold try_except, bind at 1, emit. cbn [kind_of]. unfold bind at 1, lift.
  unfold recorded; cbn [trace log_buffer].
  rewrite calls_snoc_other by discriminate. rewrite Hbot.
  rewrite plain_sends by exact Hsend. cbn [trace log_buffer].
  rewrite <- !app_assoc. reflexivity.
Qed.

(** The number of sends made before an exception ends the row is
    determined by the answers. *)
Lemma sends_until_raise_unique i n k k' :
  sends_until_raise w i n k -> sends_until_raise w i n k' -> k = k'.
Proof.
  intros [Hok [->|[j [e [-> [Hj He]]]]]] [Hok' [->|[j' [e' [-> [Hj' He']]]]]].
  - reflexivity.
  - rewrite (Hok j') in He' by lia. discriminate.
  - rewrite (Hok' j) in He by lia. discriminate.
  - destruct (Nat.lt_trichotomy j j') as [H|[H|H]]; [|congruence|].
    + rewrite (Hok' j) in He by lia. discriminate.
    + rewrite (Hok j') in He' by lia. discriminate.
Qed.

(** One turn of the unguarded loop of [send_overall_summary]. *)
Lemma plain_send_turn chat (g : nat -> pystr) x (xs : list nat) s :
  for_each (x :: xs) (fun i => bot_send_message w chat (g i)) s
  = match telegram_send w (calls KTelegram (trace s)) with
    | Ok _ =>
        for_each xs (fun i => bot_send_message w chat (g i))
          (recorded s (ETelegram chat (g x)))
    | Raise e => (Raise e, recorded s (ETelegram chat (g x)))
    end.
Proof.
  cbn [for_each]. unfold bind at 1, bot_send_message.
  unfold bind at 1, emit, lift. cbn [kind_of].
  destruct (telegram_send w (calls KTelegram (trace s))) as [[]|e];
    reflexivity.
Qed.

(** The unguarded sends of [send_overall_summary], whatever they do: the
    texts are handed over in order, up to and including the first send
    that raises, and the loop raises what that send raised. *)
Lemma plain_sends_stop chat (g : nat -> pystr) (xs : list nat) s :
  exists k,
    sends_until_raise w (calls KTelegram (trace s)) (length xs) k
    /\ snd (for_each xs (fun i => bot_send_message w chat (g i)) s)
       = {| trace := trace s
                     ++ map (fun i => ETelegram chat (g i)) (firstn k xs);
            log_buffer := log_buffer s |}.
Proof.
  revert s. induction xs as [|x xs IH]; intros s.
  - exists 0. split; [split|].
    + intros j Hj. lia.
    + left. reflexivity.
    + cbn. rewrite app_nil_r. destruct s. reflexivity.
  - rewrite plain_send_turn.
    destruct (telegram_send w (calls KTelegram (trace s))) as [[]|e] eqn:Hx.
    + destruct (IH (recorded s (ETelegram chat (g x))))
        as [k [[Hok Hlast] E]].
      assert (Hn : calls KTelegram (trace (recorded s (ETelegram chat (g x))))
                   = S (calls KTelegram (trace s))).
      { rewrite calls_recorded. cbn. lia. }
      rewrite Hn in Hok, Hlast.
      exists (S k). split; [split|].
      * intros [|j] Hj.
        -- rewrite Nat.add_0_r. exact Hx.
        -- rewrite <- (Hok j) by lia. f_equal. lia.
      * destruct Hlast as [->|[j [e [-> [Hj He]]]]].
        -- left. reflexivity.
        -- right. exists (S j), e. cbn [length]. repeat split; [lia|].
           rewrite <- He. f_equal. lia.
      * rewrite E. unfold recorded; cbn [trace log_buffer firstn map].
        rewrite <- app_assoc. reflexivity.
    + exists 1. split; [split|].
      * intros j Hj. lia.
      * destruct xs as [|y xs]; [left; reflexivity|].
        right. exists 0, e. cbn [length]. repeat split; [lia|].
        rewrite Nat.add_0_r. exact Hx.
      * reflexivity.
Qed.

(** [send_overall_summary], whatever the bot does: the summary is logged,
    the bot is made, and the chunks are handed over in order, up to and
    including the first send that raises; what follows is at most the
    log line of the handler. *)
Lemma send_overall_summary_stops lines token chat s :
  let summary :=
    lit "[Threads Multi-Account Summary]" ++ nl ++ join nl lines in
  exists k tail,
    send_overall_summary w lines token chat s
    = (Ok tt,
       {| trace := trace s
                   ++ ELog INFO summary :: EBotNew token
                      :: map (ETelegram chat) (firstn k (chunks summary))
                   ++ tail;
          log_buffer := log_buffer s |})
    /\ telegram_texts tail = []
    /\ (bot_new w (calls KBotNew (trace s)) = Ok tt ->
        sends_until_raise w (calls KTelegram (trace s))
          (length (chunks summary)) k)
    /\ (forall e,
          bot_new w (calls KBotNew (trace s)) = Raise e ->
          k = 0
          /\ tail = [ ELog ERROR
                        (lit "Telegram send error (overall summary): "
                         ++ exn_msg e) ]).
Proof.
  intros summary. unfold send_overall_summary. fold summary.
  unfold bind at 1. rewrite logger_log_recorded.
  unfold try_except, bind at 1, emit. cbn [kind_of]. unfold bind at 1, lift.
  unfold recorded at 1 2 3; cbn [trace log_buffer].
  rewrite calls_snoc_other by discriminate.
  destruct (bot_new w (calls KBotNew (trace s))) as [[]|e].
  - match goal with
    | |- context [for_each ?xs ?body ?st] =>
        destruct (plain_sends_stop chat
                    (fun i => slice summary i (i + max_len)) xs st)
          as [k [Hstop E]];
        destruct (for_each xs body st) as [[[]|e] s'] eqn:Hrun
    end; cbn [snd] in E; subst s'; cbn [trace log_buffer] in *;
      rewrite !calls_snoc_other in Hstop by discriminate;
      rewrite <- (length_map (fun i => slice summary i (i + max_len)))
        in Hstop;
      fold (chunks summary) in Hstop;
      rewrite <- (map_map (fun i => slice summary i (i + max_len))
                    (ETelegram chat)), <- firstn_map;
      fold (chunks summary).
    + exists k, []. split; [|split; [|split]].
      * rewrite app_nil_r, <- !app_assoc. reflexivity.
      * reflexivity.
      * intros _. exact Hstop.
      * discriminate.
    + rewrite logger_log_recorded. unfold recorded; cbn [trace log_buffer].
      exists k. eexists. split; [|split; [|split]].
      * rewrite <- !app_assoc. reflexivity.
      * reflexivity.
      * intros _. exact Hstop.
      * discriminate.
  - rewrite logger_log_recorded. unfold recorded; cbn [trace log_buffer].
    exists 0. eexists. split; [|split; [|split]].
    + rewrite <- !app_assoc. reflexivity.
    + reflexivity.
    + discriminate.
    + intros e' He'. injection He' as <-. split; reflexivity.
Qed.

(** The texts among the sends of a list of texts are the texts. *)
Lemma telegram_texts_handed chat (texts : list pystr) :
  telegram_texts (map (ETelegram chat) texts) = texts.
Proof. induction texts as [|t texts IH]; cbn; [|rewrite IH]; reflexivity. Qed.

End Posting.

(** *** Computations that never raise *)

Lemma never_raises_ret {A} (a : A) : never_raises (ret a).
Proof. intros s. exists a, s. reflexivity. Qed.

Lemma never_raises_bind {A B} (m : M A) (f : A -> M B) :
  never_raises m -> (forall a, never_raises (f a)) -> never_raises (bind m f).
Proof.
  intros Hm Hf s. unfold bind. destruct (Hm s) as [a [s' ->]]. apply Hf.
Qed.

Lemma never_raises_try_except {A} (m : M A) (h : exn -> M A) :
  (forall e, never_raises (h e)) -> never_raises (try_except m h).
Proof.
  intros Hh s. unfold try_except. destruct (m s) as [[a|e] s'].
  - exists a, s'. reflexivity.
  - apply Hh.
Qed.

Lemma never_raises_finally {A} (m : M A) (f : M unit) :
  never_raises m -> never_raises f -> never_raises (finally m f).
Proof.
  intros Hm Hf s. unfold finally. destruct (Hm s) as [a [s' ->]].
  destruct (Hf s') as [[] [s'' ->]]. exists a, s''. reflexivity.
Qed.

Section Runs.

Variable w : World.

Lemma never_raises_send_message u msg lvl :
  never_raises (send_message w u msg lvl false).
Proof. intros s. rewrite send_message_plain. eauto. Qed.

Lemma never_raises_send_log_summary u : never_raises (send_log_summary w u).
Proof.
  intros s. destruct (send_log_summary_effect w u s) as [new [-> _]]. eauto.
Qed.

Lemma never_raises_run_complete u : never_raises (run_complete w u).
Proof.
  unfold run_complete. apply never_raises_bind.
  - intros s. unfold emit. eauto.
  - intros i. apply never_raises_bind.
    + apply never_raises_send_message.
    + intros _. apply never_raises_send_log_summary.
Qed.

Lemma never_raises_script_crashed u e : never_raises (script_crashed w u e).
Proof. apply never_raises_send_message. Qed.

Lemma run_started_ok u s :
  run_started w u s = (Ok tt, snd (run_started w u s)).
Proof. reflexivity. Qed.

Lemma never_raises_run u : never_raises (run w u).
Proof.
  unfold run. apply never_raises_bind.
  - intros s. rewrite run_started_ok. eauto.
  - intros _. apply never_raises_finally.
    + apply never_raises_try_except. apply never_raises_script_crashed.
    + apply never_raises_run_complete.
Qed.

Lemma run_complete_ok u s :
  run_complete w u s = (Ok tt, snd (run_complete w u s)).
Proof.
  destruct (never_raises_run_complete u s) as [[] [s' E]]. rewrite E.
  reflexivity.
Qed.

Lemma delete_after_attempt_run u f s :
  delete_after_attempt w u f s = (Ok tt, after_delete w u f s).
Proof.
  unfold delete_after_attempt, after_delete, try_except.
  unfold bind at 1, emit. cbn [kind_of]. unfold bind at 1, lift.
  destruct (delete_v2 w (calls KDelete (trace s))) as [[]|e].
  - rewrite send_message_plain. reflexivity.
  - rewrite send_message_plain. reflexivity.
Qed.

Lemma calls_after_delete u f s :
  calls KDelete (trace (after_delete w u f s)) = calls KDelete (trace s) + 1.
Proof.
  unfold after_delete.
  destruct (delete_v2 w (calls KDelete (trace s)));
    rewrite calls_logged, calls_recorded by discriminate; reflexivity.
Qed.

(** [run_with_file] when the publish attempt returns. *)
Lemma run_with_file_returned u f s success s2 :
  attempt_returns w u f s success s2 ->
  run_with_file w u f s
  = (Ok (success, Some (name f)),
     snd (run_complete w u (after_delete w u f s2))).
Proof.
  intros [caption [s0 [s1 [Hcap [Hauth Hpost]]]]].
  unfold run_with_file. unfold bind at 1. rewrite run_started_ok.
  unfold finally, try_except.
  unfold bind at 1. rewrite Hcap.
  unfold bind at 1. rewrite Hauth.
  unfold bind at 1. rewrite Hpost.
  unfold bind at 1. rewrite delete_after_attempt_run.
  unfold ret. rewrite run_complete_ok. reflexivity.
Qed.

(** [run_with_file] when the authentication or the publish attempt
    raises. *)
Lemma run_with_file_crashed u f s e s2 :
  attempt_raises w u f s e s2 ->
  run_with_file w u f s
  = (Ok (false, None), snd (run_complete w u (crashed u e s2))).
Proof.
  intros [caption [s0 [Hcap Hraise]]].
  unfold run_with_file. unfold bind at 1. rewrite run_started_ok.
  unfold finally, try_except.
  unfold bind at 1. rewrite Hcap.
  destruct Hraise as [Hauth|[s1 [Hauth Hpost]]].
  - unfold bind at 1. rewrite Hauth.
    unfold bind at 1, script_crashed. rewrite send_message_plain.
    unfold ret. rewrite run_complete_ok. reflexivity.
  - unfold bind at 1. rewrite Hauth.
    unfold bind at 1. rewrite Hpost.
    unfold bind at 1, script_crashed. rewrite send_message_plain.
    unfold ret. rewrite run_complete_ok. reflexivity.
Qed.

(** [run] when a file is chosen and the publish attempt returns. *)
Lemma run_returned u s f success s2 :
  run_attempt_returns w u s f success s2 ->
  run w u s = (Ok tt, snd (run_complete w u (after_delete w u f s2))).
Proof.
  intros [caption [s0 [s1 [files [s3 [s4 H]]]]]].
  destruct H as [Hcap [Hauth [Hlist [Hchoice Hpost]]]].
  unfold run. unfold bind at 1. rewrite run_started_ok.
  unfold finally, try_except.
  unfold bind at 1. rewrite Hcap.
  unfold bind at 1. rewrite Hauth.
  unfold bind at 1. rewrite Hlist.
  destruct files as [|f0 files]; [discriminate Hchoice|].
  unfold bind at 1. rewrite Hchoice.
  unfold bind at 1. rewrite Hpost.
  rewrite delete_after_attempt_run, run_complete_ok. reflexivity.
Qed.

(** The steps of a run up to the publish attempt make no delete call. *)
Lemma attempt_keeps_delete u f s success s2 :
  attempt_returns w u f s success s2 ->
  calls KDelete (trace s2) = calls KDelete (trace s).
Proof.
  intros [caption [s0 [s1 [Hcap [Hauth Hpost]]]]].
  pose proof (keeps_post_to_threads w KDelete u f caption
                ltac:(discriminate) ltac:(discriminate) ltac:(discriminate)
                ltac:(discriminate) ltac:(discriminate) ltac:(discriminate)
                ltac:(discriminate) ltac:(discriminate) s1) as H1.
  pose proof (keeps_authenticate_dropbox w KDelete u
                ltac:(discriminate) ltac:(discriminate) s0) as H2.
  pose proof (keeps_get_caption_from_config w KDelete u
                ltac:(discriminate) ltac:(discriminate) ltac:(discriminate)
                (snd (run_started w u s))) as H3.
  pose proof (keeps_run_started w KDelete u
                ltac:(discriminate) ltac:(discriminate) ltac:(discriminate)
                s) as H4.
  rewrite Hpost in H1. rewrite Hauth in H2. rewrite Hcap in H3.
  cbn [snd] in *. congruence.
Qed.

Lemma crash_keeps_delete u f s e s2 :
  attempt_raises w u f s e s2 ->
  calls KDelete (trace s2) = calls KDelete (trace s).
Proof.
  intros [caption [s0 [Hcap Hraise]]].
  pose proof (keeps_get_caption_from_config w KDelete u
                ltac:(discriminate) ltac:(discriminate) ltac:(discriminate)
                (snd (run_started w u s))) as H3.
  pose proof (keeps_run_started w KDelete u
                ltac:(discriminate) ltac:(discriminate) ltac:(discriminate)
                s) as H4.
  pose proof (keeps_authenticate_dropbox w KDelete u
                ltac:(discriminate) ltac:(discriminate) s0) as H2.
  rewrite Hcap in H3. cbn [snd] in *.
  destruct Hraise as [Hauth|[s1 [Hauth Hpost]]].
  - rewrite Hauth in H2. cbn [snd] in *. congruence.
  - pose proof (keeps_post_to_threads w KDelete u f caption
                  ltac:(discriminate) ltac:(discriminate) ltac:(discriminate)
                  ltac:(discriminate) ltac:(discriminate) ltac:(discriminate)
                  ltac:(discriminate) ltac:(discriminate) s1) as H1.
    rewrite Hpost in H1. rewrite Hauth in H2. cbn [snd] in *. congruence.
Qed.

Lemma run_attempt_keeps_delete u s f success s2 :
  run_attempt_returns w u s f success s2 ->
  calls KDelete (trace s2) = calls KDelete (trace s).
Proof.
  intros [caption [s0 [s1 [files [s3 [s4 H]]]]]].
  destruct H as [Hcap [Hauth [Hlist [Hchoice Hpost]]]].
  pose proof (keeps_post_to_threads w KDelete u f caption
                ltac:(discriminate) ltac:(discriminate) ltac:(discriminate)
                ltac:(discriminate) ltac:(discriminate) ltac:(discriminate)
                ltac:(discriminate) ltac:(discriminate) s4) as H1.
  pose proof (keeps_random_choice w KDelete files ltac:(discriminate) s3)
    as H5.
  pose proof (keeps_list_dropbox_files w KDelete u ltac:(discriminate) s1)
    as H6.
  pose proof (keeps_authenticate_dropbox w KDelete u
                ltac:(discriminate) ltac:(discriminate) s0) as H2.
  pose proof (keeps_get_caption_from_config w KDelete u
                ltac:(discriminate) ltac:(discriminate) ltac:(discriminate)
                (snd (run_started w u s))) as H3.
  pose proof (keeps_run_started w KDelete u
                ltac:(discriminate) ltac:(discriminate) ltac:(discriminate)
                s) as H4.
  rewrite Hpost in H1. rewrite Hchoice in H5. rewrite Hlist in H6.
  rewrite Hauth in H2. rewrite Hcap in H3.
  cbn [snd] in *. congruence.
Qed.

Lemma run_complete_keeps_delete u s :
  calls KDelete (trace (snd (run_complete w u s))) = calls KDelete (trace s).
Proof.
  apply (keeps_run_complete w KDelete u); discriminate.
Qed.

(** With nothing eligible in any listing, [list_dropbox_files] returns the
    empty list. *)
Lemma lists_nothing u :
  (forall n l, list_folder w n = Ok l -> eligible w l = []) ->
  returns (list_dropbox_files w u) (fun files => files = []).
Proof.
  intros Hnone s files s' H.
  unfold list_dropbox_files, bind, emit, lift in H. cbn [kind_of] in H.
  destruct (list_folder w (calls KListFolder (trace s))) as [l|e] eqn:Hl;
    [|discriminate].
  inversion H; subst. apply (Hnone _ _ Hl).
Qed.

(** ... and [run] goes no further than the listing. *)
Lemma run_posts_nothing u k :
  (forall n l, list_folder w n = Ok l -> eligible w l = []) ->
  k <> KClock -> k <> KLog -> k <> KTelegram -> k <> KLoadConfig ->
  k <> KTokenPost -> k <> KDropboxNew -> k <> KListFolder ->
  keeps k (run w u).
Proof.
  intros Hnone ? ? ? ? ? ? ?. unfold run.
  apply keeps_bind; [apply keeps_run_started; assumption|intros _].
  apply keeps_finally; [|apply keeps_run_complete; assumption].
  apply keeps_try_except;
    [|intros e; apply keeps_script_crashed; assumption].
  apply keeps_bind;
    [apply keeps_get_caption_from_config; assumption|intros caption].
  apply keeps_bind; [apply keeps_authenticate_dropbox; assumption|intros _].
  apply keeps_bind_returns with (P := fun files => files = []).
  - apply keeps_list_dropbox_files; assumption.
  - apply lists_nothing. exact Hnone.
  - intros files ->. apply keeps_send_message; assumption.
Qed.

(** The main block when the first authentication and listing go through
    and nothing is eligible, now or later. *)
Lemma process_account_empty a s u s1 s2 l :
  init w a s = (Ok u, s1) ->
  authenticate_dropbox w u s1 = (Ok tt, s2) ->
  list_folder w (calls KListFolder (trace s2)) = Ok l ->
  eligible w l = [] ->
  process_account w a s
  = (Ok (Count 0, summary_line a (Count 0) None false),
     snd (run w u (recorded s2 (EListFolder (dropbox_folder u))))).
Proof.
  intros Hinit Hauth Hlist Hnone.
  unfold process_account. unfold bind at 1. rewrite Hinit.
  unfold bind at 1, try_except. unfold bind at 1. rewrite Hauth.
  unfold bind at 1. rewrite (list_dropbox_files_run w u s2 l Hlist).
  fold (eligible w l). rewrite Hnone. cbn [ret length].
  unfold bind.
  destruct (never_raises_run u (recorded s2 (EListFolder (dropbox_folder u))))
    as [[] [s' E]].
  rewrite E. reflexivity.
Qed.

(** The main block when the first authentication or listing raises: the
    count is ['ERR'], and [run] is called all the same. *)
Lemma process_account_err a s u s1 e s2 :
  init w a s = (Ok u, s1) ->
  (authenticate_dropbox w u ;; list_dropbox_files w u) s1 = (Raise e, s2) ->
  process_account w a s
  = (Ok (ERR, acc_account_name a
              ++ lit ": Dropbox error, could not count files."),
     snd (run w u s2)).
Proof.
  intros Hinit Hfail.
  unfold process_account. unfold bind at 1. rewrite Hinit.
  unfold bind at 1, try_except.
  assert (E : (authenticate_dropbox w u ;;
               files <- list_dropbox_files w u ;;
               ret (Count (length files), files)) s1 = (Raise e, s2)).
  { unfold bind in *.
    destruct (authenticate_dropbox w u s1) as [[[]|e1] s1'].
    - destruct (list_dropbox_files w u s1') as [[files|e2] s1''].
      + discriminate.
      + inversion Hfail; subst. reflexivity.
    - inversion Hfail; subst. reflexivity. }
  rewrite E. cbn [ret]. unfold bind.
  destruct (never_raises_run u s2) as [[] [s' E']].
  rewrite E'. reflexivity.
Qed.

End Runs.

(** ** The publish step *)

(** C1: in the publish step, whatever the publish endpoint answers, a
    further publish call follows a call only when that call got a non-200
    response whose JSON error object carries error_subcode 2207032; a
    non-200 response with another or no subcode ends the step at once with
    a failure; no more than 3 publish calls are made; and 3 calls that all
    got non-200 responses end in a failure. *)
Theorem publish_retry_policy (w : World) (u : uploader) (f : file)
    (cid : pyval) (s : state) :
  let i0 := calls KPublish (trace s) in
  let out := publish_step w u f cid s in
  exists n,
    calls KPublish (trace (snd out)) = i0 + n
    /\ n <= 3
    /\ (forall j, S j < n ->
          exists r, publish_post w (i0 + j) = Ok r
                    /\ status_code r <> 200%Z /\ carries_retryable r)
    /\ (forall j r, j < n ->
          publish_post w (i0 + j) = Ok r ->
          status_code r <> 200%Z ->
          ~ carries_retryable r ->
          n = S j /\ fst out = Ok false)
    /\ (n = 3 ->
        (forall j, j < 3 ->
           exists r, publish_post w (i0 + j) = Ok r
                     /\ status_code r <> 200%Z) ->
        fst out = Ok false).
Proof.
  intros i0 out.
  destruct (publish_step_run w u f cid s) as [n [res [Hrun [Hcalls Hout]]]].
  fold out in Hcalls, Hout. fold i0 in Hrun, Hcalls.
  exists n. split; [exact Hcalls|]. split.
  { apply publish_run_bounded in Hrun. exact Hrun. }
  split.
  { apply (publish_run_retries _ _ _ _ _ Hrun). }
  split.
  { intros j r Hj Hr Hcode Hno.
    destruct (publish_run_refusal _ _ _ _ _ Hrun _ _ Hj Hr Hcode Hno) as [Hn Hres].
    split; [exact Hn|]. rewrite Hout, Hres. reflexivity. }
  intros Hn Hall. subst n.
  destruct (publish_run_no_success _ _ _ _ _ Hrun Hall) as [Hres|Hres];
    rewrite Hout, Hres; reflexivity.
Qed.

Lemma publish_retry_policy_witness :
  calls KPublish
    (trace (snd (publish_step slow_backend inkwisp photo (PStr (lit "17890"))
                   fresh))) = 3
  /\ carries_retryable not_ready.
Proof.
  destruct (publish_retry_policy slow_backend inkwisp photo
              (PStr (lit "17890")) fresh) as [n [Hn [_ [Hretry _]]]].
  assert (E : calls KPublish
                (trace (snd (publish_step slow_backend inkwisp photo
                               (PStr (lit "17890")) fresh))) = 3)
    by (vm_compute; reflexivity).
  split; [exact E|].
  rewrite E in Hn. cbn [calls fresh trace map count_occ] in Hn.
  destruct (Hretry 0 ltac:(lia)) as [r [Hr [_ Hcarry]]].
  injection Hr as <-. exact Hcarry.
Defined.

(** C9: in the publish retry loop, a non-200 publish response whose body
    does not parse as JSON, or whose JSON has no error object with an
    error_subcode, ends the step at once: the publisher returns failure
    (it does not raise) and makes no further publish call. *)
Theorem publish_failure_without_subcode_is_final (w : World) (u : uploader)
    (f : file) (cid : pyval) (s : state) (j : nat) (r : response) :
  let i0 := calls KPublish (trace s) in
  let out := publish_step w u f cid s in
  i0 + j < calls KPublish (trace (snd out)) ->
  publish_post w (i0 + j) = Ok r ->
  status_code r <> 200%Z ->
  (exists e, json r = Raise e) \/ (forall v, ~ error_subcode_is r v) ->
  fst out = Ok false /\ calls KPublish (trace (snd out)) = i0 + S j.
Proof.
  intros i0 out Hmade Hr Hcode Hbody.
  destruct (publish_step_run w u f cid s) as [n [res [Hrun [Hcalls Hout]]]].
  fold out in Hcalls, Hout. fold i0 in Hrun, Hcalls.
  assert (Hno : ~ carries_retryable r).
  { intros [v [Hv _]]. destruct Hbody as [[e He]|Hnone].
    - destruct Hv as [d [e' [Hj _]]]. congruence.
    - exact (Hnone v Hv). }
  assert (Hj : j < n) by lia.
  destruct (publish_run_refusal _ _ _ _ _ Hrun _ _ Hj Hr Hcode Hno) as [Hn Hres].
  split.
  - rewrite Hout, Hres. reflexivity.
  - rewrite Hcalls, Hn. reflexivity.
Qed.

Lemma publish_failure_without_subcode_is_final_witness :
  fst (publish_step bad_gateway inkwisp photo (PStr (lit "17890")) fresh)
  = Ok false
  /\ calls KPublish
       (trace (snd (publish_step bad_gateway inkwisp photo
                      (PStr (lit "17890")) fresh))) = 1.
Proof.
  apply (publish_failure_without_subcode_is_final bad_gateway inkwisp photo
           (PStr (lit "17890")) fresh 0 (reply 502 not_json)).
  - vm_compute. lia.
  - reflexivity.
  - discriminate.
  - left. eexists. reflexivity.
Defined.

(** ** The polling loop *)

Section PollLoop.

Variable w : World.

(** One turn of the loop. *)
Lemma poll_loop_turn u f cid a range s :
  let s1 := recorded s (EPoll cid) in
  poll_loop w u f cid (a :: range) s
  = match poll_get w (calls KPoll (trace s)) with
    | Raise e => (Raise e, s1)
    | Ok r =>
        if negb (status_code r =? 200)%Z then
          (Ok (Some false),
           logged s1 u ERROR
             (cross_mark ++ lit " Polling failed for " ++ name f ++ lit ": "
              ++ text r))
        else
          match json r with
          | Raise e => (Raise e, s1)
          | Ok body =>
              match py_get body (lit "status") PNone with
              | Raise e => (Raise e, s1)
              | Ok status =>
                  if py_eq_str status (lit "FINISHED") then
                    (Ok None, recorded s1 (ESleep 3))
                  else if py_eq_str status (lit "ERROR") then
                    (Ok (Some false),
                     logged s1 u ERROR
                       (cross_mark ++ lit " Transcode failed for " ++ name f
                        ++ lit ": " ++ text r))
                  else
                    poll_loop w u f cid range (recorded s1 (ESleep 1))
              end
          end
    end.
Proof.
  intros s1. cbn [poll_loop]. unfold bind at 1, emit. unfold bind at 1, lift.
  cbn [kind_of]. fold s1.
  destruct (poll_get w (calls KPoll (trace s))) as [r|e]; [|reflexivity].
  destruct (negb (status_code r =? 200)%Z).
  - unfold bind. rewrite send_message_plain. reflexivity.
  - unfold bind at 1. destruct (json r) as [body|e]; [|reflexivity].
    unfold bind at 1. destruct (py_get body (lit "status") PNone) as [st|e];
      [|reflexivity].
    destruct (py_eq_str st (lit "FINISHED")).
    + unfold bind. rewrite sleep_recorded. reflexivity.
    + destruct (py_eq_str st (lit "ERROR")).
      * unfold bind. rewrite send_message_plain. reflexivity.
      * unfold bind. rewrite sleep_recorded. reflexivity.
Qed.

(** What the comparison of the status with a literal finds. *)
Lemma status_compare d t :
  py_eq_str (match dict_get d (lit "status") with
             | Some x => x
             | None => PNone
             end) t = true
  <-> dict_get d (lit "status") = Some (PStr t).
Proof.
  destruct (dict_get d (lit "status")) as [[| | | | st| |]|]; cbn;
    try (split; [discriminate | congruence]).
  rewrite str_eqb_eq. split; congruence.
Qed.

Lemma status_differs d t :
  dict_get d (lit "status") <> Some (PStr t) ->
  py_eq_str (match dict_get d (lit "status") with
             | Some x => x
             | None => PNone
             end) t = false.
Proof.
  intros H. apply not_true_is_false. rewrite status_compare. exact H.
Qed.

Lemma code_200 r : status_code r = 200%Z -> negb (status_code r =? 200)%Z = false.
Proof. intros ->. reflexivity. Qed.

Lemma pending_turn u f cid a range s r :
  poll_get w (calls KPoll (trace s)) = Ok r ->
  pending r ->
  poll_loop w u f cid (a :: range) s
  = poll_loop w u f cid range (waited s cid 1).
Proof.
  intros Hr [Hcode [d [Hjson [Hfin Herr]]]].
  rewrite poll_loop_turn, Hr, (code_200 _ Hcode), Hjson. cbn [py_get].
  rewrite (status_differs _ _ Hfin), (status_differs _ _ Herr).
  f_equal. unfold waited, recorded; cbn [trace log_buffer waits].
  rewrite <- app_assoc. reflexivity.
Qed.

Lemma finished_turn u f cid a range s r :
  poll_get w (calls KPoll (trace s)) = Ok r ->
  finished r ->
  poll_loop w u f cid (a :: range) s = (Ok None, settled s cid 0).
Proof.
  intros Hr [Hcode [d [Hjson Hst]]].
  rewrite poll_loop_turn, Hr, (code_200 _ Hcode), Hjson. cbn [py_get].
  apply status_compare in Hst. rewrite Hst.
  f_equal. unfold settled, recorded; cbn [trace log_buffer waits app].
  rewrite <- app_assoc. reflexivity.
Qed.

Lemma errored_turn u f cid a range s r :
  poll_get w (calls KPoll (trace s)) = Ok r ->
  errored r ->
  exists msg,
    poll_loop w u f cid (a :: range) s
    = (Ok (Some false), logged (recorded s (EPoll cid)) u ERROR msg).
Proof.
  intros Hr [Hcode [d [Hjson Hst]]].
  rewrite poll_loop_turn, Hr, (code_200 _ Hcode), Hjson. cbn [py_get].
  rewrite status_differs.
  - apply status_compare in Hst. rewrite Hst. eexists. reflexivity.
  - rewrite Hst. intros E. inversion E.
Qed.

Lemma rejected_turn u f cid a range s r :
  poll_get w (calls KPoll (trace s)) = Ok r ->
  rejected r ->
  exists msg,
    poll_loop w u f cid (a :: range) s
    = (Ok (Some false), logged (recorded s (EPoll cid)) u ERROR msg).
Proof.
  intros Hr Hcode. rewrite poll_loop_turn, Hr.
  apply Z.eqb_neq in Hcode. rewrite Hcode. cbn [negb].
  eexists. reflexivity.
Qed.

Lemma malformed_turn u f cid a range s r :
  poll_get w (calls KPoll (trace s)) = Ok r ->
  malformed r ->
  exists e,
    poll_loop w u f cid (a :: range) s = (Raise e, recorded s (EPoll cid)).
Proof.
  intros Hr [Hcode Hbody].
  rewrite poll_loop_turn, Hr, (code_200 _ Hcode).
  destruct (json r) as [body|e]; [|eexists; reflexivity].
  destruct body; try (cbn [py_get]; eexists; reflexivity).
  exfalso. eapply Hbody. reflexivity.
Qed.

Lemma calls_waited k s cid n :
  calls k (trace (waited s cid n))
  = calls k (trace s) + calls k (waits cid n).
Proof. apply calls_app. Qed.

Lemma polls_in_waits cid n : calls KPoll (waits cid n) = n.
Proof.
  induction n as [|n IH]; [reflexivity|].
  change (waits cid (S n)) with ([EPoll cid; ESleep 1] ++ waits cid n).
  rewrite calls_app, IH. reflexivity.
Qed.

Lemma publishes_in_waits cid n : calls KPublish (waits cid n) = 0.
Proof.
  induction n as [|n IH]; [reflexivity|].
  change (waits cid (S n)) with ([EPoll cid; ESleep 1] ++ waits cid n).
  rewrite calls_app, IH. reflexivity.
Qed.

Lemma waited_waited s cid n :
  waited (waited s cid 1) cid n = waited s cid (S n).
Proof.
  unfold waited; cbn [trace log_buffer]. rewrite <- app_assoc. reflexivity.
Qed.

(** As long as the container is pending the loop goes on. *)
Lemma pending_turns u f cid :
  forall k range s,
    k <= length range ->
    (forall j, j < k ->
       exists r, poll_get w (calls KPoll (trace s) + j) = Ok r /\ pending r) ->
    poll_loop w u f cid range s
    = poll_loop w u f cid (skipn k range) (waited s cid k).
Proof.
  induction k as [|k IH]; intros range s Hlen Hpend.
  - cbn [skipn]. unfold waited; cbn [waits]. rewrite app_nil_r.
    destruct s; reflexivity.
  - destruct range as [|a range]; [cbn in Hlen; lia|].
    destruct (Hpend 0 ltac:(lia)) as [r [Hr Hp]].
    rewrite Nat.add_0_r in Hr.
    rewrite (pending_turn u f cid a range s r Hr Hp).
    rewrite IH.
    + rewrite waited_waited. reflexivity.
    + cbn in Hlen. lia.
    + intros j Hj. rewrite calls_waited, polls_in_waits.
      destruct (Hpend (S j) ltac:(lia)) as [r' [Hr' Hp']].
      exists r'. split; [|exact Hp'].
      rewrite <- Hr'. f_equal. lia.
Qed.

(** Every response is of one of the five sorts. *)
Lemma response_sorts (r : response) :
  rejected r \/ finished r \/ errored r \/ malformed r \/ pending r.
Proof.
  unfold rejected, finished, errored, malformed, pending, status_is.
  destruct (Z.eq_dec (status_code r) 200) as [Hcode|Hcode]; [|auto].
  right.
  destruct (json r) as [body|e] eqn:Hjson.
  - destruct body as [| | | | | |d];
      try (right; right; left; split; [exact Hcode | congruence]).
    destruct (py_eq_str (match dict_get d (lit "status") with
                         | Some x => x
                         | None => PNone
                         end) (lit "FINISHED")) eqn:Hfin.
    + apply status_compare in Hfin. left. eauto.
    + destruct (py_eq_str (match dict_get d (lit "status") with
                           | Some x => x
                           | None => PNone
                           end) (lit "ERROR")) eqn:Herr.
      * apply status_compare in Herr. right. left. eauto.
      * right. right. right. split; [exact Hcode|].
        exists d. split; [reflexivity|].
        split; intros E; apply status_compare in E; congruence.
  - right. right. left. split; [exact Hcode | congruence].
Qed.

Lemma publish_run_first_accepted i a range n out r :
  publish_run w i (a :: range) n out ->
  publish_post w i = Ok r ->
  status_code r = 200%Z ->
  out = Ok (Some true).
Proof.
  intros Hrun Hr Hcode. inversion Hrun; subst; try reflexivity; congruence.
Qed.

Lemma calls_settled k s cid n :
  calls k (trace (settled s cid n))
  = calls k (trace s) + calls k (waits cid n)
    + calls k [EPoll cid; ESleep 3].
Proof.
  unfold settled; cbn [trace]. rewrite !calls_app. lia.
Qed.

(** Lines 127-176 after [k] pending polls. *)
Lemma poll_then_publish_after u f cid s k :
  k <= 20 ->
  (forall j, j < k ->
     exists r, poll_get w (calls KPoll (trace s) + j) = Ok r /\ pending r) ->
  poll_then_publish w u f cid s
  = (r <- poll_loop w u f cid (seq k (20 - k)) ;;
     match r with
     | Some b => ret b
     | None => publish_step w u f cid
     end) (waited s cid k).
Proof.
  intros Hk Hpend. unfold poll_then_publish, bind, max_retries.
  rewrite (pending_turns u f cid k).
  - rewrite skipn_seq. reflexivity.
  - rewrite length_seq. exact Hk.
  - exact Hpend.
Qed.

Lemma poll_budget_used_up u f cid s :
  (forall j, j < 20 ->
     exists r, poll_get w (calls KPoll (trace s) + j) = Ok r /\ pending r) ->
  poll_then_publish w u f cid s = publish_step w u f cid (waited s cid 20).
Proof.
  intros Hpend.
  rewrite (poll_then_publish_after u f cid s 20) by auto.
  reflexivity.
Qed.

End PollLoop.

(** C2, as amended: whatever responses the polls get, the loop stops at the
    first response that is FINISHED (the publish step follows the settle
    delay), ERROR or non-200 (the publisher returns failure and makes no
    publish call), or 200 with a body that is not a JSON object (the
    publisher raises and makes no publish call); when none of the first 20
    responses is one of these, exactly 20 polls are made. *)
Theorem poll_loop_stops (w : World) (u : uploader) (f : file) (cid : pyval)
    (s : state) :
  poll_claim malformed w u f cid s.
Proof.
  intros answers Hans p0 out stops.
  assert (Hpending : forall n, ~ stops (answers n) -> pending (answers n)).
  { intros n Hn. unfold stops in Hn.
    destruct (response_sorts (answers n)) as [H|[H|[H|[H|H]]]]; tauto. }
  split.
  - intros k Hk Hbefore r.
    assert (Hpend : forall j, j < k ->
              exists r, poll_get w (p0 + j) = Ok r /\ pending r).
    { intros j Hj. exists (answers (p0 + j)). auto. }
    pose proof (poll_then_publish_after w u f cid s k
                  ltac:(lia) Hpend) as Hout.
    fold out in Hout.
    destruct (20 - k) as [|m] eqn:Hm; [lia|]. cbn [seq] in Hout.
    assert (Hr : poll_get w (calls KPoll (trace (waited s cid k))) = Ok r).
    { rewrite calls_waited, polls_in_waits. apply Hans. }
    unfold bind in Hout.
    split; [|split].
    + intros Hfin.
      rewrite (finished_turn w u f cid k (seq (S k) m) _ _ Hr Hfin) in Hout.
      assert (E : settled (waited s cid k) cid 0 = settled s cid k).
      { unfold settled, waited; cbn [trace log_buffer waits app].
        rewrite <- app_assoc. reflexivity. }
      rewrite E in Hout. split; [|exact Hout].
      rewrite Hout, keeps_publish_step by discriminate.
      rewrite calls_settled, polls_in_waits. fold p0. cbn. lia.
    + intros Hbad.
      assert (Hturn : exists msg,
                poll_loop w u f cid (k :: seq (S k) m) (waited s cid k)
                = (Ok (Some false),
                   logged (recorded (waited s cid k) (EPoll cid)) u ERROR msg)).
      { destruct Hbad as [Herr|Hrej].
        - exact (errored_turn w u f cid k (seq (S k) m) _ _ Hr Herr).
        - exact (rejected_turn w u f cid k (seq (S k) m) _ _ Hr Hrej). }
      destruct Hturn as [msg Hturn]. rewrite Hturn in Hout.
      rewrite Hout. cbn [fst snd ret].
      rewrite !calls_logged, !calls_recorded, !calls_waited by discriminate.
      rewrite polls_in_waits, publishes_in_waits. fold p0. cbn.
      repeat split; lia.
    + intros Hmal.
      destruct (malformed_turn w u f cid k (seq (S k) m) _ _ Hr Hmal)
        as [e Hturn].
      rewrite Hturn in Hout. rewrite Hout. cbn [fst snd].
      rewrite !calls_recorded, !calls_waited.
      rewrite polls_in_waits, publishes_in_waits. fold p0. cbn.
      repeat split; eauto; lia.
  - intros Hall. unfold out.
    rewrite poll_budget_used_up.
    + rewrite keeps_publish_step by discriminate.
      rewrite calls_waited, polls_in_waits. reflexivity.
    + intros j Hj. exists (answers (p0 + j)). auto.
Qed.

Lemma poll_loop_stops_witness :
  (calls KPoll
     (trace (snd (poll_then_publish third_poll inkwisp photo
                    (PStr (lit "17890")) fresh))) = 3
   /\ poll_then_publish third_poll inkwisp photo (PStr (lit "17890")) fresh
      = publish_step third_poll inkwisp photo (PStr (lit "17890"))
          (settled fresh (PStr (lit "17890")) 2))
  /\ calls KPoll
       (trace (snd (poll_then_publish stuck inkwisp photo
                      (PStr (lit "17890")) fresh))) = 20.
Proof.
  assert (Hgoes_on : ~ (rejected in_progress \/ finished in_progress
                        \/ errored in_progress \/ malformed in_progress)).
  { intros [H|[[_ [d [Hd Hs]]]|[[_ [d [Hd Hs]]]|[_ H]]]].
    - apply H. reflexivity.
    - injection Hd as <-. discriminate Hs.
    - injection Hd as <-. discriminate Hs.
    - eapply H. reflexivity. }
  split.
  - pose (answers := fun n : nat =>
                       if n <? 2 then in_progress else finished_reply).
    destruct (poll_loop_stops third_poll inkwisp photo (PStr (lit "17890"))
                fresh answers) as [Hstop _].
    { intros n. unfold third_poll, world_of, answers; cbn [poll_get].
      destruct (n <? 2); reflexivity. }
    destruct (Hstop 2 ltac:(lia)) as [Hfin _].
    { intros j Hj. destruct j as [|[|j]]; [exact Hgoes_on ..|lia]. }
    apply Hfin. split; [reflexivity|].
    eexists. split; reflexivity.
  - destruct (poll_loop_stops stuck inkwisp photo (PStr (lit "17890"))
                fresh (fun _ => in_progress)) as [_ Hall].
    { reflexivity. }
    apply Hall. intros k _. exact Hgoes_on.
Defined.

(** C2 as the specification states it fails: when the polls are answered
    200 with a body that is not JSON, the first poll is the last one,
    although no response was FINISHED, ERROR or non-200. *)
Lemma poll_claim_as_stated_fails :
  ~ poll_claim (fun _ => False) html_polls inkwisp photo (PStr (lit "17890"))
      fresh.
Proof.
  intros H.
  destruct (H (fun _ => reply 200 not_json)) as [_ Hall].
  { reflexivity. }
  assert (E : calls KPoll
                (trace (snd (poll_then_publish html_polls inkwisp photo
                               (PStr (lit "17890")) fresh))) = 1)
    by (vm_compute; reflexivity).
  rewrite Hall in E; [discriminate|].
  intros k _ [Hrej|[[_ [d [Hd _]]]|[[_ [d [Hd _]]]|[]]]].
  - apply Hrej. reflexivity.
  - discriminate Hd.
  - discriminate Hd.
Qed.

(** C3: when all 20 polls get 200 responses whose status is neither
    FINISHED nor ERROR, the publisher does not return failure there: it
    goes on with the publish step, makes at least one publish call, and
    succeeds when that call is answered 200. *)
Theorem poll_budget_falls_through (w : World) (u : uploader) (f : file)
    (cid : pyval) (s : state) :
  let p0 := calls KPoll (trace s) in
  let out := poll_then_publish w u f cid s in
  (forall k, k < 20 -> exists r, poll_get w (p0 + k) = Ok r /\ pending r) ->
  out = publish_step w u f cid (waited s cid 20)
  /\ calls KPoll (trace (snd out)) = p0 + 20
  /\ calls KPublish (trace s) < calls KPublish (trace (snd out))
  /\ (forall r,
        publish_post w (calls KPublish (trace s)) = Ok r ->
        status_code r = 200%Z ->
        fst out = Ok true).
Proof.
  intros p0 out Hpend.
  assert (Hout : out = publish_step w u f cid (waited s cid 20))
    by (apply poll_budget_used_up; exact Hpend).
  split; [exact Hout|]. rewrite Hout.
  destruct (publish_step_run w u f cid (waited s cid 20))
    as [n [res [Hrun [Hcalls Hfst]]]].
  assert (E : calls KPublish (trace (waited s cid 20))
              = calls KPublish (trace s))
    by (rewrite calls_waited, publishes_in_waits; lia).
  rewrite E in Hrun, Hcalls.
  split; [|split].
  - rewrite keeps_publish_step by discriminate.
    rewrite calls_waited, polls_in_waits. reflexivity.
  - apply publish_run_starts in Hrun. lia.
  - intros r Hr Hcode.
    rewrite Hfst, (publish_run_first_accepted _ _ _ _ _ _ _ Hrun Hr Hcode).
    reflexivity.
Qed.

Lemma poll_budget_falls_through_witness :
  calls KPoll
    (trace (snd (poll_then_publish stuck inkwisp photo (PStr (lit "17890"))
                   fresh))) = 20
  /\ fst (poll_then_publish stuck inkwisp photo (PStr (lit "17890")) fresh)
     = Ok true.
Proof.
  destruct (poll_budget_falls_through stuck inkwisp photo
              (PStr (lit "17890")) fresh) as [_ [Hpolls [_ Hok]]].
  - intros k _. exists in_progress. split; [reflexivity|].
    split; [reflexivity|]. eexists. split; [reflexivity|].
    split; discriminate.
  - split; [exact Hpolls|]. apply (Hok published); reflexivity.
Defined.

(** C4, as amended: on the media path, when the container-creation call
    gets a non-200 response, or a 200 response whose JSON is an object
    with no "id", the publisher returns failure and makes no poll call and
    no publish call; when it gets a 200 response whose body does not parse
    to a JSON object, the publisher raises instead of returning failure,
    again with no poll call and no publish call. *)
Theorem container_failure_is_final (w : World) (u : uploader) (f : file)
    (caption : pyval) (s : state) (link : pyval) (files : list file)
    (res : response) :
  temp_link w (calls KTempLink (trace s)) = Ok link ->
  truthy link = true ->
  list_folder w (calls KListFolder (trace s)) = Ok files ->
  create_post w (calls KCreate (trace s)) = Ok res ->
  let out := post_to_threads w u f caption s in
  (status_code res <> 200%Z
   \/ (status_code res = 200%Z /\ object_without_id res) ->
   fst out = Ok false
   /\ calls KPoll (trace (snd out)) = calls KPoll (trace s)
   /\ calls KPublish (trace (snd out)) = calls KPublish (trace s))
  /\ (malformed res ->
      (exists e, fst out = Raise e)
      /\ calls KPoll (trace (snd out)) = calls KPoll (trace s)
      /\ calls KPublish (trace (snd out)) = calls KPublish (trace s)).
Proof.
  intros Hlink Htruthy Hfiles Hres out.
  destruct (post_to_threads_media w u f caption s link files
              Hlink Htruthy Hfiles) as [s2 [Hkeep Hout]].
  fold out in Hout. rewrite Hres in Hout.
  split.
  - intros Hbad.
    assert (Hdone : exists msg, out = (Ok false, logged s2 u ERROR msg)).
    { destruct Hbad as [Hcode|[Hcode [d [Hjson Hid]]]].
      - apply Z.eqb_neq in Hcode. rewrite Hcode in Hout.
        cbn [negb] in Hout. eauto.
      - rewrite (code_200 _ Hcode), Hjson in Hout. cbn [py_get] in Hout.
        rewrite Hid in Hout. cbn [truthy negb] in Hout. eauto. }
    destruct Hdone as [msg ->]. cbn [fst snd].
    rewrite !calls_logged, !Hkeep by discriminate. auto.
  - intros [Hcode Hjson].
    assert (Hdone : exists e, out = (Raise e, s2)).
    { rewrite (code_200 _ Hcode) in Hout.
      destruct (json res) as [body|e]; [|eauto].
      destruct body; try (cbn [py_get] in Hout; eauto).
      exfalso. eapply Hjson. reflexivity. }
    destruct Hdone as [e ->]. cbn [fst snd].
    rewrite !Hkeep by discriminate. eauto.
Qed.

Lemma container_failure_is_final_witness :
  (fst (post_to_threads no_container inkwisp photo PNone fresh) = Ok false
   /\ calls KPoll
        (trace (snd (post_to_threads no_container inkwisp photo PNone fresh)))
      = 0
   /\ calls KPublish
        (trace (snd (post_to_threads no_container inkwisp photo PNone fresh)))
      = 0)
  /\ (fst (post_to_threads no_id inkwisp photo PNone fresh) = Ok false
      /\ calls KPoll
           (trace (snd (post_to_threads no_id inkwisp photo PNone fresh))) = 0
      /\ calls KPublish
           (trace (snd (post_to_threads no_id inkwisp photo PNone fresh))) = 0)
  /\ ((exists e,
         fst (post_to_threads array_body inkwisp photo PNone fresh) = Raise e)
      /\ calls KPoll
           (trace (snd (post_to_threads array_body inkwisp photo PNone fresh)))
         = 0
      /\ calls KPublish
           (trace (snd (post_to_threads array_body inkwisp photo PNone fresh)))
         = 0).
Proof.
  split; [|split].
  - apply (container_failure_is_final no_container inkwisp photo PNone fresh
             (PStr (lit "https://dl.example/sunset.jpg")) [photo]
             (reply 500 not_json) eq_refl eq_refl eq_refl eq_refl).
    left. discriminate.
  - apply (container_failure_is_final no_id inkwisp photo PNone fresh
             (PStr (lit "https://dl.example/sunset.jpg")) [photo]
             (reply 200 (Ok (PDict [(lit "status", PStr (lit "ok"))])))
             eq_refl eq_refl eq_refl eq_refl).
    right. split; [reflexivity|].
    eexists. split; reflexivity.
  - apply (container_failure_is_final array_body inkwisp photo PNone fresh
             (PStr (lit "https://dl.example/sunset.jpg")) [photo]
             (reply 200 (Ok (PList []))) eq_refl eq_refl eq_refl eq_refl).
    split; [reflexivity|]. intros d Hd. discriminate Hd.
Defined.

(** C4 as the specification states it fails: when the creation call is
    answered 200 with a JSON array, which has no "id" field, the publisher
    does not return failure: [res.json().get] raises. *)
Lemma creation_claim_as_stated_fails :
  ~ creation_claim_as_stated array_body inkwisp photo PNone fresh.
Proof.
  intros H.
  destruct (H (PStr (lit "https://dl.example/sunset.jpg")) [photo]
              (reply 200 (Ok (PList []))) eq_refl eq_refl eq_refl eq_refl)
    as [Hfst _].
  - right. split; [reflexivity|].
    exists (PList []). split; [reflexivity|]. intros d Hd. discriminate Hd.
  - vm_compute in Hfst. discriminate Hfst.
Qed.

(** ** The notifier *)

(** C10: after [send_log_summary] the log buffer is empty, and the call
    returns normally, whether or not a bot is configured, whatever the
    buffer held, and whatever the sends did. *)
Theorem send_log_summary_empties_buffer (w : World) (u : uploader)
    (s : state) :
  fst (send_log_summary w u s) = Ok tt
  /\ log_buffer (snd (send_log_summary w u s)) = [].
Proof.
  destruct (send_log_summary_effect w u s) as [new [E _]].
  rewrite E. split; reflexivity.
Qed.

(** C8, as amended: a text is cut into chunks of at most 4000 characters
    each, whose concatenation in order is the text.  The log summary hands
    every chunk of the joined buffer to the bot, in order, when a bot is
    configured, whatever the sends do, and nothing otherwise.  The overall
    summary hands its chunks to the bot in order, up to and including the
    first send that raises: all of them when none but the last raises,
    none when the bot cannot be made.  A message sent immediately is handed
    over whole, as one text, whatever its length. *)
Theorem notifier_sends_chunks (w : World) (u : uploader) (s : state)
    (lines : list pystr) (token chat : pyval) (msg : pystr) (lvl : level) :
  (telegram_texts (since s (snd (send_log_summary w u s)))
   = if telegram_bot u then chunks (join nl (log_buffer s)) else [])
  /\ (exists k,
        telegram_texts
          (since s (snd (send_overall_summary w lines token chat s)))
        = firstn k (chunks (overall_summary_text lines))
        /\ (bot_new w (calls KBotNew (trace s)) = Ok tt ->
            sends_until_raise w (calls KTelegram (trace s))
              (length (chunks (overall_summary_text lines))) k)
        /\ (forall e,
              bot_new w (calls KBotNew (trace s)) = Raise e -> k = 0))
  /\ (telegram_texts (since s (snd (send_message w u msg lvl true s)))
      = if telegram_bot u then [full_msg u msg] else [])
  /\ (forall text,
        Forall (fun c => length c <= max_len) (chunks text)
        /\ concat (chunks text) = text).
Proof.
  split; [|split; [|split]].
  - destruct (send_log_summary_effect w u s) as [new [E Hnew]].
    rewrite E. cbn [snd].
    rewrite (since_app s _ new) by reflexivity. exact Hnew.
  - destruct (send_overall_summary_stops w lines token chat s)
      as [k [tail [E [Htail [Hstop Hbot]]]]].
    fold (overall_summary_text lines) in E, Hstop, Hbot.
    exists k. rewrite E. cbn [snd].
    erewrite since_app by reflexivity.
    split; [|split].
    + cbn [telegram_texts].
      rewrite telegram_texts_app, telegram_texts_handed, Htail.
      apply app_nil_r.
    + exact Hstop.
    + intros e He. apply (Hbot e He).
  - unfold send_message. fold (full_msg u msg).
    unfold bind at 1, get_log_buffer. unfold bind at 1, set_log_buffer.
    unfold bind at 1. rewrite logger_log_recorded.
    destruct (telegram_bot u).
    + match goal with
      | |- context [try_except _ _ ?st] =>
          destruct (guarded_send w (telegram_chat_id u) (full_msg u msg) st)
            as [rest [E Hrest]]
      end.
      rewrite E. unfold recorded. cbn [snd trace log_buffer].
      erewrite since_app by (rewrite <- app_assoc; reflexivity).
      cbn [app telegram_texts]. rewrite Hrest. reflexivity.
    + rewrite logger_log_recorded. unfold recorded.
      cbn [snd trace log_buffer].
      erewrite since_app by (rewrite <- app_assoc; reflexivity).
      reflexivity.
  - intros text. split; [apply chunks_bounded | apply chunks_concat].
Qed.

Lemma notifier_sends_chunks_witness :
  map (@length codepoint)
    (telegram_texts
       (since long_buffer (snd (send_log_summary telegram_down inkwisp
                                  long_buffer))))
  = [4000; 4000; 1002]
  /\ map (@length codepoint)
       (telegram_texts
          (since fresh
             (snd (send_overall_summary second_send_fails long_lines
                     (PStr (lit "42:bot")) (PStr (lit "-100")) fresh))))
     = [4000; 4000]
  /\ map (@length codepoint) (chunks (overall_summary_text long_lines))
     = [4000; 4000; 1033].
Proof.
  split; [|split].
  - destruct (notifier_sends_chunks telegram_down inkwisp long_buffer []
                PNone PNone [] INFO) as [Hlog _].
    rewrite Hlog. vm_compute. reflexivity.
  - destruct (notifier_sends_chunks second_send_fails inkwisp fresh
                long_lines (PStr (lit "42:bot")) (PStr (lit "-100")) []
                INFO) as [_ [[k [Htexts [Hstop _]]] _]].
    rewrite Htexts.
    assert (Hk : sends_until_raise second_send_fails 0
                   (length (chunks (overall_summary_text long_lines))) 2).
    { split.
      - intros [|j] Hj; [reflexivity | lia].
      - right. exists 1, (Exn (lit "Timed out")).
        split; [reflexivity|]. split; [|reflexivity].
        apply Nat.ltb_lt. vm_compute. reflexivity. }
    rewrite (sends_until_raise_unique second_send_fails _ _ _ _
               (Hstop eq_refl) Hk).
    vm_compute. reflexivity.
  - vm_compute. reflexivity.
Defined.

(** C8 as the specification states it fails: when the second send of the
    overall summary raises, the third chunk is never handed to the bot, so
    the texts sent do not add up to the summary. *)
Lemma overall_summary_as_stated_fails :
  ~ sent_in_chunks (overall_summary_text long_lines) fresh
      (snd (send_overall_summary second_send_fails long_lines
              (PStr (lit "42:bot")) (PStr (lit "-100")) fresh)).
Proof.
  intros [_ H]. apply (f_equal (@length codepoint)) in H.
  vm_compute in H. discriminate H.
Qed.

(** ** The run of one account *)

(** C6, as amended: for a chosen file whose publish attempt returns, with
    success or with failure, the delete call is made exactly once, in
    [run_with_file] and in [run]; a deletion that raises adds a warning to
    the log and nothing else, and [run_with_file] returns the outcome of
    the publish attempt either way.  When the second authentication or the
    publish attempt raises, no delete call is made and [run_with_file]
    returns [(False, None)]. *)
Theorem delete_once_when_attempt_returns (w : World) (u : uploader)
    (f : file) (s : state) :
  (forall success s2,
     attempt_returns w u f s success s2 ->
     let out := run_with_file w u f s in
     calls KDelete (trace (snd out)) = calls KDelete (trace s) + 1
     /\ fst out = Ok (success, Some (name f))
     /\ forall e,
          delete_v2 w (calls KDelete (trace s2)) = Raise e ->
          snd out
          = snd (run_complete w u
                   (logged (recorded s2 (EDelete (path_lower f))) u WARNING
                      (warning_sign ++ lit " Failed to delete file "
                       ++ name f ++ lit ": " ++ exn_msg e))))
  /\ (forall success s2,
        run_attempt_returns w u s f success s2 ->
        calls KDelete (trace (snd (run w u s))) = calls KDelete (trace s) + 1)
  /\ (forall e s2,
        attempt_raises w u f s e s2 ->
        let out := run_with_file w u f s in
        calls KDelete (trace (snd out)) = calls KDelete (trace s)
        /\ fst out = Ok (false, None)).
Proof.
  split; [|split].
  - intros success s2 H out. unfold out.
    rewrite (run_with_file_returned w u f s success s2 H). cbn [fst snd].
    split; [|split].
    + rewrite run_complete_keeps_delete, calls_after_delete.
      rewrite (attempt_keeps_delete w u f s success s2 H). reflexivity.
    + reflexivity.
    + intros e He. unfold after_delete. rewrite He. reflexivity.
  - intros success s2 H.
    rewrite (run_returned w u s f success s2 H). cbn [snd].
    rewrite run_complete_keeps_delete, calls_after_delete.
    rewrite (run_attempt_keeps_delete w u s f success s2 H). reflexivity.
  - intros e s2 H out. unfold out.
    rewrite (run_with_file_crashed w u f s e s2 H). cbn [fst snd].
    split; [|reflexivity].
    rewrite run_complete_keeps_delete. unfold crashed.
    rewrite calls_logged by discriminate.
    apply (crash_keeps_delete w u f s e s2 H).
Qed.

Lemma delete_once_when_attempt_returns_witness :
  (calls KDelete (trace (snd (run_with_file undeletable inkwisp photo fresh)))
   = 1
   /\ fst (run_with_file undeletable inkwisp photo fresh)
      = Ok (true, Some (lit "Sunset.JPG")))
  /\ calls KDelete (trace (snd (run calm inkwisp fresh))) = 1
  /\ fst (run_with_file connection_lost inkwisp photo fresh)
     = Ok (false, None).
Proof.
  split; [|split].
  - destruct (delete_once_when_attempt_returns undeletable inkwisp photo
                fresh) as [H _].
    destruct (H true
                (snd (post_to_threads undeletable inkwisp photo
                        (default_caption inkwisp)
                        (snd (authenticate_dropbox undeletable inkwisp
                                (snd (get_caption_from_config undeletable
                                        inkwisp
                                        (snd (run_started undeletable inkwisp
                                                fresh)))))))))
      as [H1 [H2 _]].
    + do 3 eexists. split; [|split]; vm_compute; reflexivity.
    + split; [exact H1 | exact H2].
  - destruct (delete_once_when_attempt_returns calm inkwisp photo fresh)
      as [_ [H _]].
    eapply (H true). do 6 eexists.
    split; [|split; [|split; [|split]]]; vm_compute; reflexivity.
  - destruct (delete_once_when_attempt_returns connection_lost inkwisp photo
                fresh) as [_ [_ H]].
    edestruct H as [_ Hfst]; [|exact Hfst].
    do 2 eexists. split; [vm_compute; reflexivity|].
    right. eexists. split; vm_compute; reflexivity.
Defined.

(** C6 as the specification states it fails: when the connection drops
    during the container-creation call, the run of the chosen file ends in
    the crash handler and no delete call is made. *)
Lemma delete_claim_as_stated_fails :
  ~ deleted_once connection_lost inkwisp photo fresh.
Proof. unfold deleted_once. vm_compute. discriminate. Qed.

(** As long as the folder stays empty: for an account whose first
    authentication and listing go through and whose listings all hold no
    eligible file, no delete call, no publish call and no
    container-creation call is made, and the summary line is the account's
    name followed by ": 0 files, no file posted.". *)
Lemma empty_listing_posts_nothing (w : World) (a : account) (s : state)
    (u : uploader) (s1 s2 : state) (l : list file) :
  init w a s = (Ok u, s1) ->
  authenticate_dropbox w u s1 = (Ok tt, s2) ->
  list_folder w (calls KListFolder (trace s2)) = Ok l ->
  (forall n l', list_folder w n = Ok l' -> eligible w l' = []) ->
  let out := process_account w a s in
  fst out
  = Ok (Count 0, acc_account_name a ++ lit ": 0 files, no file posted.")
  /\ calls KDelete (trace (snd out)) = calls KDelete (trace s)
  /\ calls KPublish (trace (snd out)) = calls KPublish (trace s)
  /\ calls KCreate (trace (snd out)) = calls KCreate (trace s).
Proof.
  intros Hinit Hauth Hlist Hnone out. unfold out.
  rewrite (process_account_empty w a s u s1 s2 l Hinit Hauth Hlist
             (Hnone _ _ Hlist)).
  cbn [fst snd]. split; [reflexivity|].
  assert (Hkeep : forall k,
            k <> KClock -> k <> KLog -> k <> KTelegram -> k <> KLoadConfig ->
            k <> KTokenPost -> k <> KDropboxNew -> k <> KListFolder ->
            k <> KBotNew ->
            calls k (trace (snd (run w u (recorded s2
                                   (EListFolder (dropbox_folder u))))))
            = calls k (trace s)).
  { intros k ? ? ? ? ? ? ? ?.
    rewrite (run_posts_nothing w u k Hnone) by assumption.
    cbn [recorded trace]. rewrite calls_snoc_other by (cbn; congruence).
    pose proof (keeps_authenticate_dropbox w k u
                  ltac:(assumption) ltac:(assumption) s1) as Ka.
    pose proof (keeps_init w k a ltac:(assumption) ltac:(assumption) s) as Ki.
    rewrite Hauth in Ka. rewrite Hinit in Ki. cbn [snd] in *. congruence. }
  repeat split; apply Hkeep; discriminate.
Qed.

Lemma empty_listing_posts_nothing_witness :
  fst (process_account empty_folder inkwisp_account fresh)
  = Ok (Count 0, lit "inkwisp: 0 files, no file posted.")
  /\ calls KDelete
       (trace (snd (process_account empty_folder inkwisp_account fresh))) = 0
  /\ calls KPublish
       (trace (snd (process_account empty_folder inkwisp_account fresh))) = 0
  /\ calls KCreate
       (trace (snd (process_account empty_folder inkwisp_account fresh))) = 0.
Proof.
  apply (empty_listing_posts_nothing empty_folder inkwisp_account fresh
           inkwisp
           (snd (init empty_folder inkwisp_account fresh))
           (snd (authenticate_dropbox empty_folder inkwisp
                   (snd (init empty_folder inkwisp_account fresh))))
           [ {| name := lit "notes.txt";
                path_lower := lit "/threads_2/notes.txt" |} ]).
  - vm_compute. reflexivity.
  - vm_compute. reflexivity.
  - reflexivity.
  - intros n l' H. injection H as <-. vm_compute. reflexivity.
Defined.

(** C7, where the code departs from it: the listing that is counted holds
    no eligible file, and the folder holds a photo from then on.  The count
    is 0 and the summary line reads "0 files, no file posted.", yet [run],
    called to log that no files were found, lists the folder again, chooses
    the photo, publishes it and deletes it. *)
Theorem empty_count_is_listed_again :
  let out := process_account late_file inkwisp_account fresh in
  fst out = Ok (Count 0, lit "inkwisp: 0 files, no file posted.")
  /\ calls KChoice (trace (snd out)) = 1
  /\ calls KCreate (trace (snd out)) = 1
  /\ calls KPublish (trace (snd out)) = 1
  /\ calls KDelete (trace (snd out)) = 1.
Proof. vm_compute. repeat split; reflexivity. Qed.

(** C5, where the code departs from it: the first token refresh of the
    account raises and the second one goes through.  The count is ['ERR']
    and the summary line reports the Dropbox error, yet [run] is called,
    authenticates again, chooses the file, publishes it and deletes it. *)
Theorem failed_listing_is_retried :
  let out := process_account flaky_token inkwisp_account fresh in
  fst out
  = Ok (ERR, lit "inkwisp: Dropbox error, could not count files.")
  /\ calls KChoice (trace (snd out)) = 1
  /\ calls KCreate (trace (snd out)) = 1
  /\ calls KPublish (trace (snd out)) = 1
  /\ calls KDelete (trace (snd out)) = 1.
Proof. vm_compute. repeat split; reflexivity. Qed.

(** ** The scenarios of the specification, run *)

Example scenario_finished_at_first_poll :
  since fresh (snd (poll_then_publish calm inkwisp photo (PStr (lit "17890"))
                      fresh))
  = [ EPoll (PStr (lit "17890")); ESleep 3;
      EPublish (PStr (lit "value"))
        [ (lit "access_token", PStr (lit "value"));
          (lit "creation_id", PStr (lit "17890")) ];
      ELog INFO
        (full_msg inkwisp
           (check_mark ++ lit " Successfully posted to Threads: Sunset.JPG")) ].
Proof. vm_compute. reflexivity. Qed.

Example scenario_third_attempt_succeeds :
  fst (publish_step slow_backend inkwisp photo (PStr (lit "17890")) fresh)
  = Ok true
  /\ calls KPublish
       (trace (snd (publish_step slow_backend inkwisp photo
                      (PStr (lit "17890")) fresh))) = 3.
Proof. vm_compute. split; reflexivity. Qed.

Example scenario_creation_fails_with_500 :
  fst (run_with_file no_container inkwisp photo fresh)
  = Ok (false, Some (lit "Sunset.JPG"))
  /\ map kind_of
       (filter (fun e => match e with
                         | ECreate _ _ | EPoll _ | EPublish _ _ | EDelete _ =>
                             true
                         | _ => false
                         end)
          (trace (snd (run_with_file no_container inkwisp photo fresh))))
     = [KCreate; KDelete].
Proof. vm_compute. split; reflexivity. Qed.

Example scenario_all_goes_well :
  fst (process_account calm inkwisp_account fresh)
  = Ok (Count 1,
        lit "inkwisp: 1 files, posted: Sunset.JPG, " ++ check_mark
        ++ lit " Success").
Proof. vm_compute. reflexivity. Qed.

Example inkwisp_is_configured :
  nth_error (ACCOUNTS calm) 1 = Some inkwisp_account
  /\ fst (init calm inkwisp_account fresh) = Ok inkwisp.
Proof. vm_compute. split; reflexivity. Qed.

(** ** What a publish attempt costs *)

Lemma total_app wt (a b : list event) :
  total wt (a ++ b) = total wt a + total wt b.
Proof. unfold total. rewrite map_app. apply list_sum_app. Qed.

Lemma calls_total k tr : calls k tr = total (counts k) tr.
Proof.
  induction tr as [|e tr IH]; [reflexivity|].
  change (calls k (e :: tr))
    with (count_occ kind_eq_dec (kind_of e :: map kind_of tr) k).
  change (total (counts k) (e :: tr))
    with (counts k e + total (counts k) tr).
  rewrite <- IH. unfold counts, calls. cbn [count_occ].
  destruct (kind_eq_dec (kind_of e) k); reflexivity.
Qed.

Section Cost.

Variable wt : event -> nat.

Lemma within_ret {A} (a : A) : within wt 0 (ret a).
Proof. intros s. cbn. lia. Qed.

Lemma within_lift {A} (r : result A) : within wt 0 (lift r).
Proof. intros s. cbn. lia. Qed.

Lemma within_emit e : within wt (wt e) (emit e).
Proof.
  intros s. unfold emit; cbn [snd trace]. rewrite total_app.
  unfold total at 2; cbn. lia.
Qed.

Lemma within_le {A} (m : M A) n n' :
  within wt n m -> n <= n' -> within wt n' m.
Proof. intros H Hle s. specialize (H s). lia. Qed.

Lemma within_bind {A B} (m : M A) (f : A -> M B) n1 n2 n :
  within wt n1 m -> (forall a, within wt n2 (f a)) -> n1 + n2 <= n ->
  within wt n (bind m f).
Proof.
  intros Hm Hf Hle s. unfold bind. specialize (Hm s).
  destruct (m s) as [[a|e] s']; cbn [snd] in *.
  - specialize (Hf a s'). lia.
  - lia.
Qed.

Lemma within_try_except {A} (m : M A) (h : exn -> M A) n1 n2 n :
  within wt n1 m -> (forall e, within wt n2 (h e)) -> n1 + n2 <= n ->
  within wt n (try_except m h).
Proof.
  intros Hm Hh Hle s. unfold try_except. specialize (Hm s).
  destruct (m s) as [[a|e] s']; cbn [snd] in *.
  - lia.
  - specialize (Hh e s'). lia.
Qed.

End Cost.

(** [x <- m ;; f] with [n1] for [m] and [n2] for the rest. *)
Ltac spend n1 n2 :=
  apply (within_bind _ _ _ n1 n2); [ | intros ? | lia ].

Section PublishCost.

Variable w : World.
Variable wt : event -> nat.

(** Bounds on the weight of the calls a publish attempt makes. *)
Variables ct cl cc cp cu cs : nat.
Hypothesis log_free : forall l m, wt (ELog l m) = 0.
Hypothesis link_cost : forall p, wt (ETempLink p) <= ct.
Hypothesis list_cost : forall p, wt (EListFolder p) <= cl.
Hypothesis create_cost : forall i d, wt (ECreate i d) <= cc.
Hypothesis poll_cost : forall c, wt (EPoll c) <= cp.
Hypothesis publish_cost : forall i d, wt (EPublish i d) <= cu.
Hypothesis sleep_cost : forall n, wt (ESleep n) <= cs * n.

Lemma cost_send_message u msg lvl :
  within wt 0 (send_message w u msg lvl false).
Proof.
  intros s. rewrite send_message_plain. unfold logged; cbn [snd trace].
  rewrite total_app. unfold total at 2; cbn. rewrite log_free. lia.
Qed.

Lemma cost_sleep n : within wt (cs * n) (sleep n).
Proof.
  unfold sleep. spend (cs * n) 0.
  - eapply within_le; [apply within_emit | apply sleep_cost].
  - apply within_ret.
Qed.

Lemma cost_list_dropbox_files u : within wt cl (list_dropbox_files w u).
Proof.
  unfold list_dropbox_files. spend cl 0.
  - eapply within_le; [apply within_emit | apply list_cost].
  - spend 0 0; [apply within_lift | apply within_ret].
Qed.

Lemma cost_poll_loop u f cid range :
  within wt (length range * (cp + cs) + 2 * cs) (poll_loop w u f cid range).
Proof.
  induction range as [|a range IH]; cbn [poll_loop length].
  - eapply within_le; [apply within_ret | lia].
  - spend cp (length range * (cp + cs) + 3 * cs).
    + eapply within_le; [apply within_emit | apply poll_cost].
    + spend 0 (length range * (cp + cs) + 3 * cs); [apply within_lift|].
      destruct (negb (status_code a1 =? 200)%Z).
      * spend 0 0; [apply cost_send_message | apply within_ret].
      * spend 0 (length range * (cp + cs) + 3 * cs); [apply within_lift|].
        spend 0 (length range * (cp + cs) + 3 * cs); [apply within_lift|].
        destruct (py_eq_str a3 (lit "FINISHED")).
        -- spend (cs * 3) 0; [apply cost_sleep | apply within_ret].
        -- destruct (py_eq_str a3 (lit "ERROR")).
           ++ spend 0 0; [apply cost_send_message | apply within_ret].
           ++ spend (cs * 1) (length range * (cp + cs) + 2 * cs);
                [apply cost_sleep | exact IH].
Qed.

Lemma cost_backend_not_ready u r attempt :
  within wt (cs * 5) (backend_not_ready w u r attempt).
Proof.
  unfold backend_not_ready.
  apply (within_try_except _ _ _ (cs * 5) 0); [|intros e; apply within_ret|lia].
  spend 0 (cs * 5); [apply within_lift|].
  spend 0 (cs * 5); [apply within_lift|].
  spend 0 (cs * 5); [apply within_lift|].
  destruct (py_eq_int a1 retryable_subcode).
  - spend 0 (cs * 5); [apply cost_send_message|].
    spend (cs * 5) 0; [apply cost_sleep | apply within_ret].
  - eapply within_le; [apply within_ret | lia].
Qed.

Lemma cost_publish_loop u f data range :
  within wt (length range * (cu + cs * 5)) (publish_loop w u f data range).
Proof.
  induction range as [|a range IH]; cbn [publish_loop length].
  - eapply within_le; [apply within_ret | lia].
  - spend cu (cs * 5 + length range * (cu + cs * 5)).
    + eapply within_le; [apply within_emit | apply publish_cost].
    + spend 0 (cs * 5 + length range * (cu + cs * 5)); [apply within_lift|].
      destruct (status_code a1 =? 200)%Z.
      * spend 0 0; [apply cost_send_message | apply within_ret].
      * spend (cs * 5) (length range * (cu + cs * 5));
          [apply cost_backend_not_ready|].
        destruct a2; [exact IH|].
        spend 0 0; [apply cost_send_message | apply within_ret].
Qed.

Lemma cost_publish_step u f cid :
  within wt (cs * 5 + 3 * (cu + cs * 5)) (publish_step w u f cid).
Proof.
  unfold publish_step. spend (cs * 5) (3 * (cu + cs * 5)).
  - destruct (str_eqb (account_name u) (lit "eclipsed.by.you")).
    + spend 0 (cs * 5); [apply cost_send_message | apply cost_sleep].
    + eapply within_le; [apply within_ret | lia].
  - spend (3 * (cu + cs * 5)) 0.
    + apply (cost_publish_loop u f _ (seq 0 3)).
    + destruct a0 as [b|]; [apply within_ret|].
      spend 0 0; [apply cost_send_message | apply within_ret].
Qed.

Lemma cost_poll_then_publish u f cid :
  within wt (20 * (cp + cs) + 2 * cs + (cs * 5 + 3 * (cu + cs * 5)))
    (poll_then_publish w u f cid).
Proof.
  unfold poll_then_publish.
  spend (20 * (cp + cs) + 2 * cs) (cs * 5 + 3 * (cu + cs * 5)).
  - apply (cost_poll_loop u f cid (seq 0 max_retries)).
  - destruct a as [b|]; [|apply cost_publish_step].
    eapply within_le; [apply within_ret | lia].
Qed.

Lemma cost_post_to_threads u f caption :
  within wt
    (ct + cl + cc
     + (20 * (cp + cs) + 2 * cs + (cs * 5 + 3 * (cu + cs * 5))))
    (post_to_threads w u f caption).
Proof.
  set (rest := 20 * (cp + cs) + 2 * cs + (cs * 5 + 3 * (cu + cs * 5))).
  unfold post_to_threads.
  spend ct (cl + cc + rest).
  { eapply within_le; [apply within_emit | apply link_cost]. }
  spend 0 (cl + cc + rest); [apply within_lift|].
  spend cl (cc + rest); [apply cost_list_dropbox_files|].
  spend 0 (cc + rest); [apply cost_send_message|].
  destruct (truthy a0).
  - destruct (endswith_any _ _).
    + spend cc rest.
      { eapply within_le; [apply within_emit | apply create_cost]. }
      spend 0 rest; [apply within_lift|].
      destruct (negb (status_code a4 =? 200)%Z).
      * spend 0 0; [apply cost_send_message | apply within_ret].
      * spend 0 rest; [apply within_lift|].
        spend 0 rest; [apply within_lift|].
        destruct (negb (truthy a6)); [|apply cost_poll_then_publish].
        spend 0 0; [apply cost_send_message | apply within_ret].
    + spend cc rest.
      { eapply within_le; [apply within_emit | apply create_cost]. }
      spend 0 rest; [apply within_lift|].
      destruct (negb (status_code a4 =? 200)%Z).
      * spend 0 0; [apply cost_send_message | apply within_ret].
      * spend 0 rest; [apply within_lift|].
        spend 0 rest; [apply within_lift|].
        destruct (negb (truthy a6)); [|apply cost_poll_then_publish].
        spend 0 0; [apply cost_send_message | apply within_ret].
  - spend cc 0.
    { eapply within_le; [apply within_emit | apply create_cost]. }
    spend 0 0; [apply within_lift|].
    destruct (status_code a4 =? 200)%Z;
      (spend 0 0; [apply cost_send_message | apply within_ret]).
Qed.

End PublishCost.

(** *** Computations only add to the trace *)

Lemma extends_ret {A} (a : A) : extends (ret a).
Proof. intros s. exists []. cbn. rewrite app_nil_r. reflexivity. Qed.

Lemma extends_lift {A} (r : result A) : extends (lift r).
Proof. intros s. exists []. cbn. rewrite app_nil_r. reflexivity. Qed.

Lemma extends_emit e : extends (emit e).
Proof. intros s. exists [e]. reflexivity. Qed.

Lemma extends_get_log_buffer : extends get_log_buffer.
Proof. intros s. exists []. cbn. rewrite app_nil_r. reflexivity. Qed.

Lemma extends_set_log_buffer b : extends (set_log_buffer b).
Proof. intros s. exists []. cbn. rewrite app_nil_r. reflexivity. Qed.

Lemma extends_bind {A B} (m : M A) (f : A -> M B) :
  extends m -> (forall a, extends (f a)) -> extends (bind m f).
Proof.
  intros Hm Hf s. unfold bind. destruct (Hm s) as [new Hnew].
  destruct (m s) as [[a|e] s']; cbn [snd] in *.
  - destruct (Hf a s') as [new' Hnew']. exists (new ++ new').
    rewrite Hnew', Hnew, app_assoc. reflexivity.
  - exists new. exact Hnew.
Qed.

Lemma extends_try_except {A} (m : M A) (h : exn -> M A) :
  extends m -> (forall e, extends (h e)) -> extends (try_except m h).
Proof.
  intros Hm Hh s. unfold try_except. destruct (Hm s) as [new Hnew].
  destruct (m s) as [[a|e] s']; cbn [snd] in *.
  - exists new. exact Hnew.
  - destruct (Hh e s') as [new' Hnew']. exists (new ++ new').
    rewrite Hnew', Hnew, app_assoc. reflexivity.
Qed.

Lemma extends_finally {A} (m : M A) (f : M unit) :
  extends m -> extends f -> extends (finally m f).
Proof.
  intros Hm Hf s. unfold finally. destruct (Hm s) as [new Hnew].
  destruct (m s) as [r s']; cbn [snd] in *.
  destruct (Hf s') as [new' Hnew'].
  exists (new ++ new').
  destruct (f s') as [[[]|e] s'']; cbn [snd] in *;
    rewrite Hnew', Hnew, app_assoc; reflexivity.
Qed.

Lemma extends_for_each {A} (xs : list A) (body : A -> M unit) :
  (forall x, extends (body x)) -> extends (for_each xs body).
Proof.
  intros Hb. induction xs as [|x xs IH]; cbn [for_each].
  - apply extends_ret.
  - apply extends_bind; auto.
Qed.

(** One step of a proof that a computation only adds to the trace. *)
Ltac extends_step :=
  match goal with
  | |- extends (bind _ _) => apply extends_bind; [|intros ?]
  | |- extends (ret _) => apply extends_ret
  | |- extends (lift _) => apply extends_lift
  | |- extends (emit _) => apply extends_emit
  | |- extends get_log_buffer => apply extends_get_log_buffer
  | |- extends (set_log_buffer _) => apply extends_set_log_buffer
  | |- extends (try_except _ _) => apply extends_try_except; [|intros ?]
  | |- extends (finally _ _) => apply extends_finally
  | |- extends (for_each _ _) => apply extends_for_each; intros ?
  | |- extends (if ?b then _ else _) => destruct b
  | |- extends (match ?x with _ => _ end) => destruct x
  | |- extends (let '(_, _) := ?x in _) => destruct x
  end.

Ltac extends_all := repeat extends_step.

Section ProgramExtends.

Variable w : World.

Lemma extends_sleep n : extends (sleep n).
Proof. unfold sleep. extends_all. Qed.

Lemma extends_logger_log lvl msg : extends (logger_log lvl msg).
Proof. unfold logger_log. extends_all. Qed.

Lemma extends_bot_send_message chat msg :
  extends (bot_send_message w chat msg).
Proof. unfold bot_send_message. extends_all. Qed.

Lemma extends_send_message u msg lvl immediate :
  extends (send_message w u msg lvl immediate).
Proof.
  unfold send_message.
  extends_all; auto using extends_logger_log, extends_bot_send_message.
Qed.

Lemma extends_send_log_summary u : extends (send_log_summary w u).
Proof.
  unfold send_log_summary.
  extends_all; auto using extends_logger_log, extends_bot_send_message.
Qed.

Lemma extends_list_dropbox_files u : extends (list_dropbox_files w u).
Proof. unfold list_dropbox_files. extends_all. Qed.

Lemma extends_get_caption_from_config u :
  extends (get_caption_from_config w u).
Proof.
  unfold get_caption_from_config. extends_all; auto using extends_logger_log.
Qed.

Lemma extends_authenticate_dropbox u : extends (authenticate_dropbox w u).
Proof. unfold authenticate_dropbox, refresh_dropbox_token. extends_all. Qed.

Lemma extends_poll_loop u f cid range : extends (poll_loop w u f cid range).
Proof.
  induction range as [|a range IH]; cbn [poll_loop].
  - extends_all.
  - extends_all; auto using extends_send_message, extends_sleep.
Qed.

Lemma extends_backend_not_ready u r attempt :
  extends (backend_not_ready w u r attempt).
Proof.
  unfold backend_not_ready.
  extends_all; auto using extends_send_message, extends_sleep.
Qed.

Lemma extends_publish_loop u f data range :
  extends (publish_loop w u f data range).
Proof.
  induction range as [|a range IH]; cbn [publish_loop].
  - extends_all.
  - extends_all;
      auto using extends_send_message, extends_sleep,
        extends_backend_not_ready.
Qed.

Lemma extends_publish_step u f cid : extends (publish_step w u f cid).
Proof.
  unfold publish_step.
  extends_all;
    auto using extends_send_message, extends_sleep, extends_publish_loop.
Qed.

Lemma extends_poll_then_publish u f cid :
  extends (poll_then_publish w u f cid).
Proof.
  unfold poll_then_publish.
  extends_all; auto using extends_poll_loop, extends_publish_step.
Qed.

Lemma extends_post_to_threads u f caption :
  extends (post_to_threads w u f caption).
Proof.
  unfold post_to_threads.
  extends_all;
    auto using extends_send_message, extends_list_dropbox_files,
      extends_poll_then_publish.
Qed.

Lemma extends_run_started u : extends (run_started w u).
Proof. unfold run_started. extends_all; auto using extends_send_message. Qed.

Lemma extends_run_complete u : extends (run_complete w u).
Proof.
  unfold run_complete.
  extends_all; auto using extends_send_message, extends_send_log_summary.
Qed.

Lemma extends_random_choice files : extends (random_choice w files).
Proof. unfold random_choice. extends_all. Qed.

Lemma extends_delete_after_attempt u f : extends (delete_after_attempt w u f).
Proof.
  unfold delete_after_attempt. extends_all; auto using extends_send_message.
Qed.

Lemma extends_run u : extends (run w u).
Proof.
  unfold run, script_crashed.
  extends_all;
    auto using extends_send_message, extends_run_started, extends_run_complete,
      extends_get_caption_from_config, extends_authenticate_dropbox,
      extends_list_dropbox_files, extends_random_choice,
      extends_post_to_threads, extends_delete_after_attempt.
Qed.

Lemma extends_run_with_file u f : extends (run_with_file w u f).
Proof.
  unfold run_with_file, script_crashed.
  extends_all;
    auto using extends_send_message, extends_run_started, extends_run_complete,
      extends_get_caption_from_config, extends_authenticate_dropbox,
      extends_post_to_threads, extends_delete_after_attempt.
Qed.

Lemma extends_init a : extends (init w a).
Proof. unfold init. extends_all. Qed.

Lemma extends_process_account a : extends (process_account w a).
Proof.
  unfold process_account.
  extends_all;
    auto using extends_init, extends_authenticate_dropbox,
      extends_list_dropbox_files, extends_random_choice, extends_run,
      extends_run_with_file.
Qed.

Lemma extends_send_overall_summary lines token chat :
  extends (send_overall_summary w lines token chat).
Proof.
  unfold send_overall_summary.
  extends_all; auto using extends_logger_log, extends_bot_send_message.
Qed.

(** A weight that a computation adds nothing to stays as it was. *)
Lemma within_zero_keeps {A} (m : M A) wt s :
  extends m -> within wt 0 m ->
  total wt (trace (snd (m s))) = total wt (trace s).
Proof.
  intros He Hw. destruct (He s) as [new Hnew]. specialize (Hw s).
  rewrite Hnew, total_app in *. lia.
Qed.

End ProgramExtends.

(** X1: whatever the platform answers, one publish attempt makes at most one
    creation call, 20 polls and 3 publish calls, asks for at most 42 seconds
    of sleep, and makes no delete call and no Telegram call. *)
Theorem publish_attempt_is_bounded (w : World) (u : uploader) (f : file)
    (caption : pyval) (s : state) :
  let out := post_to_threads w u f caption s in
  calls KCreate (trace (snd out)) <= calls KCreate (trace s) + 1
  /\ calls KPoll (trace (snd out)) <= calls KPoll (trace s) + 20
  /\ calls KPublish (trace (snd out)) <= calls KPublish (trace s) + 3
  /\ total seconds (trace (snd out)) <= total seconds (trace s) + 42
  /\ calls KDelete (trace (snd out)) = calls KDelete (trace s)
  /\ calls KTelegram (trace (snd out)) = calls KTelegram (trace s).
Proof.
  intros out. unfold out.
  split; [|split; [|split; [|split; [|split]]]].
  - rewrite !calls_total.
    apply (cost_post_to_threads w (counts KCreate) 0 0 1 0 0 0);
      intros; cbn; lia.
  - rewrite !calls_total.
    apply (cost_post_to_threads w (counts KPoll) 0 0 0 1 0 0);
      intros; cbn; lia.
  - rewrite !calls_total.
    apply (cost_post_to_threads w (counts KPublish) 0 0 0 0 1 0);
      intros; cbn; lia.
  - apply (cost_post_to_threads w seconds 0 0 0 0 0 1); intros; cbn; lia.
  - apply (keeps_post_to_threads w KDelete); discriminate.
  - rewrite !calls_total. apply within_zero_keeps.
    + apply extends_post_to_threads.
    + apply (cost_post_to_threads w (counts KTelegram) 0 0 0 0 0 0);
        intros; cbn; lia.
Qed.

Example the_bounds_are_reached :
  let out := post_to_threads slowest eclipsed photo PNone fresh in
  calls KCreate (trace (snd out)) = 1
  /\ calls KPoll (trace (snd out)) = 20
  /\ calls KPublish (trace (snd out)) = 3
  /\ total seconds (trace (snd out)) = 42.
Proof. vm_compute. repeat split; reflexivity. Qed.

(** ** The collaborators *)

(** X2: [send_message] never raises, also when the immediate send does: it
    puts the full message at the end of the buffer, logs it at the given
    level, and hands it to the bot exactly when [immediate] is set and a bot
    is configured. *)
Theorem send_message_buffers_and_returns (w : World) (u : uploader)
    (msg : pystr) (lvl : level) (immediate : bool) (s : state) :
  exists new,
    send_message w u msg lvl immediate s
    = (Ok tt, {| trace := trace s ++ ELog lvl (full_msg u msg) :: new;
                 log_buffer := log_buffer s ++ [full_msg u msg] |})
    /\ telegram_texts new
       = if immediate && telegram_bot u then [full_msg u msg] else [].
Proof.
  unfold send_message. fold (full_msg u msg).
  unfold bind at 1, get_log_buffer. unfold bind at 1, set_log_buffer.
  unfold bind at 1. rewrite logger_log_recorded.
  unfold recorded; cbn [trace log_buffer].
  destruct immediate; cbn [andb].
  - destruct (telegram_bot u).
    + match goal with
      | |- context [try_except ?m ?h ?st] =>
          destruct (guarded_send w (telegram_chat_id u) (full_msg u msg) st)
            as [rest [E Hrest]]
      end.
      rewrite E. cbn [trace log_buffer].
      exists (ETelegram (telegram_chat_id u) (full_msg u msg) :: rest).
      split.
      * rewrite <- app_assoc. reflexivity.
      * cbn. rewrite Hrest. reflexivity.
    + rewrite logger_log_recorded. unfold recorded; cbn [trace log_buffer].
      eexists. split.
      * rewrite <- app_assoc. reflexivity.
      * reflexivity.
  - exists []. split; reflexivity.
Qed.

Lemma get_caption_run (w : World) (u : uploader) (s : state) :
  fst (get_caption_from_config w u s)
  = match load_config w (calls KLoadConfig (trace s)) with
    | Raise e => Ok (default_caption u)
    | Ok config =>
        match find_caption u config
                (strftime w (calls KClock (trace s)) (lit "%A")) with
        | Ok c => Ok c
        | Raise e => Ok (default_caption u)
        end
    end.
Proof.
  unfold get_caption_from_config, try_except.
  unfold bind at 1, emit. cbn [kind_of]. unfold bind at 1, lift.
  destruct (load_config w (calls KLoadConfig (trace s))) as [config|e];
    [|reflexivity].
  unfold bind at 1, emit. cbn [kind_of trace].
  rewrite calls_snoc_other by discriminate.
  unfold find_caption, bind, lift.
  destruct (py_get config (account_name u) (PDict [])) as [a|e];
    [|reflexivity].
  destruct (py_get a _ (PDict [])) as [d|e]; [|reflexivity].
  destruct (py_get d (lit "caption") (default_caption u)); reflexivity.
Qed.

(** X3: [get_caption_from_config] never raises.  It returns the default
    caption when the file cannot be loaded, when the loaded value is not an
    object, and when the account or the day is missing; when account and
    day are there it returns the ["caption"] entry of the day, or the
    default when that entry is missing. *)
Theorem caption_lookup (w : World) (u : uploader) (s : state) :
  let out := get_caption_from_config w u s in
  let today := strftime w (calls KClock (trace s)) (lit "%A") in
  let loaded := load_config w (calls KLoadConfig (trace s)) in
  (exists c, fst out = Ok c)
  /\ (forall e, loaded = Raise e -> fst out = Ok (default_caption u))
  /\ (forall config,
        loaded = Ok config -> (forall d, config <> PDict d) ->
        fst out = Ok (default_caption u))
  /\ (forall d,
        loaded = Ok (PDict d) ->
        (dict_get d (account_name u) = None ->
         fst out = Ok (default_caption u))
        /\ (forall a,
              dict_get d (account_name u) = Some (PDict a) ->
              (dict_get a today = None -> fst out = Ok (default_caption u))
              /\ (forall day,
                    dict_get a today = Some (PDict day) ->
                    fst out
                    = Ok (match dict_get day (lit "caption") with
                          | Some c => c
                          | None => default_caption u
                          end)))).
Proof.
  intros out today loaded. unfold out.
  rewrite (get_caption_run w u s). fold today loaded.
  split; [|split; [|split]].
  - destruct loaded as [config|e]; [|eauto].
    destruct (find_caption u config today); eauto.
  - intros e ->. reflexivity.
  - intros config -> Hnot. unfold find_caption.
    destruct config; try reflexivity. exfalso. eapply Hnot. reflexivity.
  - intros d ->. unfold find_caption. cbn [py_get]. split.
    + intros ->. reflexivity.
    + intros a ->. cbn [py_get]. split.
      * intros ->. reflexivity.
      * intros day ->. cbn [py_get]. reflexivity.
Qed.

Lemma caption_lookup_witness :
  fst (get_caption_from_config on_monday inkwisp fresh)
  = Ok (PStr (lit "New week"))
  /\ fst (get_caption_from_config calm inkwisp fresh)
     = Ok (default_caption inkwisp).
Proof.
  split.
  - destruct (caption_lookup on_monday inkwisp fresh) as [_ [_ [_ H]]].
    destruct (H _ eq_refl) as [_ Ha].
    destruct (Ha _ eq_refl) as [_ Hday].
    exact (Hday _ eq_refl).
  - destruct (caption_lookup calm inkwisp fresh) as [_ [H _]].
    exact (H _ eq_refl).
Defined.

Lemma refused_status (r : response) :
  (400 <= status_code r < 600)%Z <-> raise_for_status r = Raise (Exn (text r)).
Proof.
  unfold raise_for_status.
  destruct ((400 <=? status_code r) && (status_code r <? 600))%Z eqn:E.
  - apply andb_true_iff in E. rewrite Z.leb_le, Z.ltb_lt in E. tauto.
  - apply andb_false_iff in E. rewrite Z.leb_gt, Z.ltb_ge in E.
    split; [lia | discriminate].
Qed.

Lemma accepted_status (r : response) :
  ~ (400 <= status_code r < 600)%Z -> raise_for_status r = Ok tt.
Proof.
  intros H. unfold raise_for_status.
  destruct ((400 <=? status_code r) && (status_code r <? 600))%Z eqn:E;
    [|reflexivity].
  apply andb_true_iff in E. rewrite Z.leb_le, Z.ltb_lt in E. tauto.
Qed.

Lemma authenticate_dropbox_run (w : World) (u : uploader) (s : state) :
  let s1 := recorded s (ETokenPost (token_request u)) in
  authenticate_dropbox w u s
  = match token_post w (calls KTokenPost (trace s)) with
    | Raise e => (Raise e, s1)
    | Ok r =>
        match raise_for_status r with
        | Raise e => (Raise e, s1)
        | Ok _ =>
            match json r with
            | Raise e => (Raise e, s1)
            | Ok body =>
                match py_get body (lit "access_token") PNone with
                | Raise e => (Raise e, s1)
                | Ok tok =>
                    (dropbox_new w (calls KDropboxNew (trace s)),
                     recorded s1 (EDropboxNew tok))
                end
            end
        end
    end.
Proof.
  intros s1.
  unfold authenticate_dropbox, refresh_dropbox_token, bind, emit, lift.
  cbn [kind_of]. fold (token_request u).
  destruct (token_post w (calls KTokenPost (trace s))) as [r|e];
    [|reflexivity].
  destruct (raise_for_status r) as [[]|e]; [|reflexivity].
  destruct (json r) as [body|e]; [|reflexivity].
  destruct (py_get body (lit "access_token") PNone) as [tok|e];
    [|reflexivity].
  cbn [trace]. rewrite calls_snoc_other by discriminate.
  destruct (dropbox_new w (calls KDropboxNew (trace s))) as [[]|e];
    reflexivity.
Qed.

(** X4: [authenticate_dropbox] sends exactly one token request.  When the
    request raises, is answered with a 4xx or 5xx status, or is answered
    with a body that is not a JSON object, the call raises and no Dropbox
    client is made.  Otherwise the client is made with the ["access_token"]
    entry of the answer, or with [None] when the entry is missing, and the
    call ends as making the client ends. *)
Theorem authentication_steps (w : World) (u : uploader) (s : state) :
  let out := authenticate_dropbox w u s in
  let answer := token_post w (calls KTokenPost (trace s)) in
  let no_client :=
    (exists e, fst out = Raise e)
    /\ calls KDropboxNew (trace (snd out)) = calls KDropboxNew (trace s) in
  calls KTokenPost (trace (snd out)) = calls KTokenPost (trace s) + 1
  /\ (forall e, answer = Raise e -> no_client)
  /\ (forall r,
        answer = Ok r -> (400 <= status_code r < 600)%Z -> no_client)
  /\ (forall r,
        answer = Ok r -> (forall d, json r <> Ok (PDict d)) -> no_client)
  /\ (forall r d,
        answer = Ok r ->
        ~ (400 <= status_code r < 600)%Z ->
        json r = Ok (PDict d) ->
        fst out = dropbox_new w (calls KDropboxNew (trace s))
        /\ since s (snd out)
           = [ ETokenPost (token_request u);
               EDropboxNew (match dict_get d (lit "access_token") with
                            | Some t => t
                            | None => PNone
                            end) ]).
Proof.
  intros out answer no_client. unfold no_client, out, answer.
  rewrite (authenticate_dropbox_run w u s).
  assert (Hone : forall e : exn,
            calls KTokenPost
              (trace (recorded s (ETokenPost (token_request u))))
            = calls KTokenPost (trace s) + 1
            /\ ((exists e0, @Raise unit e = Raise e0)
                /\ calls KDropboxNew
                     (trace (recorded s (ETokenPost (token_request u))))
                   = calls KDropboxNew (trace s))).
  { intros e. rewrite !calls_recorded. cbn. split; [lia|]. split; [eauto|lia]. }
  split; [|split; [|split; [|split]]].
  - destruct (token_post w (calls KTokenPost (trace s))) as [r|e];
      [|apply (Hone e)].
    destruct (raise_for_status r) as [[]|e]; [|apply (Hone e)].
    destruct (json r) as [body|e]; [|apply (Hone e)].
    destruct (py_get body (lit "access_token") PNone) as [tok|e];
      [|apply (Hone e)].
    cbn [snd]. rewrite !calls_recorded. cbn. lia.
  - intros e ->. apply (Hone e).
  - intros r -> Hcode. apply refused_status in Hcode. rewrite Hcode.
    apply Hone.
  - intros r -> Hbody.
    destruct (raise_for_status r) as [[]|e]; [|apply (Hone e)].
    destruct (json r) as [body|e]; [|apply (Hone e)].
    destruct body; try (cbn [py_get]; apply Hone).
    exfalso. eapply Hbody. reflexivity.
  - intros r d -> Hcode Hjson.
    rewrite (accepted_status r Hcode), Hjson. cbn [py_get fst snd].
    split; [reflexivity|].
    apply since_app. unfold recorded; cbn [trace].
    rewrite <- app_assoc. reflexivity.
Qed.

Lemma authentication_steps_witness :
  (exists e, fst (authenticate_dropbox revoked inkwisp fresh) = Raise e)
  /\ calls KDropboxNew (trace (snd (authenticate_dropbox revoked inkwisp fresh)))
     = 0.
Proof.
  destruct (authentication_steps revoked inkwisp fresh) as [_ [_ [H _]]].
  apply (H (reply 401 not_json)).
  - reflexivity.
  - cbn. lia.
Defined.

(** ** One publish attempt, from the start *)

Section Attempt.

Variable w : World.

Lemma post_to_threads_no_link u f caption s e :
  temp_link w (calls KTempLink (trace s)) = Raise e ->
  post_to_threads w u f caption s
  = (Raise e, recorded s (ETempLink (path_lower f))).
Proof.
  intros H. unfold post_to_threads. unfold bind at 1, emit. cbn [kind_of].
  unfold bind at 1, lift. rewrite H. reflexivity.
Qed.

Lemma post_to_threads_no_listing u f caption s link e :
  temp_link w (calls KTempLink (trace s)) = Ok link ->
  list_folder w (calls KListFolder (trace s)) = Raise e ->
  fst (post_to_threads w u f caption s) = Raise e.
Proof.
  intros Hlink H. unfold post_to_threads. unfold bind at 1, emit.
  cbn [kind_of]. unfold bind at 1, lift. rewrite Hlink.
  unfold bind at 1, list_dropbox_files. unfold bind at 1, emit.
  cbn [kind_of trace]. rewrite calls_snoc_other by discriminate.
  unfold bind at 1, lift. rewrite H. reflexivity.
Qed.

(** [post_to_threads] from the creation call on. *)
Lemma post_to_threads_start u f caption s link files :
  temp_link w (calls KTempLink (trace s)) = Ok link ->
  list_folder w (calls KListFolder (trace s)) = Ok files ->
  exists msg,
    let s2 := creating w u f caption link msg s in
    post_to_threads w u f caption s
    = match create_post w (calls KCreate (trace s)) with
      | Raise e => (Raise e, s2)
      | Ok res =>
          if truthy link then
            if negb (status_code res =? 200)%Z then
              (Ok false,
               logged s2 u ERROR
                 (cross_mark
                  ++ lit " Threads media container creation failed: "
                  ++ name f ++ nl ++ text res))
            else
              match json res with
              | Raise e => (Raise e, s2)
              | Ok body =>
                  match py_get body (lit "id") PNone with
                  | Raise e => (Raise e, s2)
                  | Ok creation_id =>
                      if negb (truthy creation_id) then
                        (Ok false,
                         logged s2 u ERROR
                           (cross_mark ++ lit " No creation_id returned for "
                            ++ name f))
                      else poll_then_publish w u f creation_id s2
                  end
              end
          else if (status_code res =? 200)%Z then
            (Ok true,
             logged s2 u INFO
               (check_mark ++ lit " Successfully posted to Threads: "
                ++ name f))
          else
            (Ok false,
             logged s2 u ERROR
               (cross_mark ++ lit " Threads post failed: " ++ name f ++ nl
                ++ text res))
      end.
Proof.
  intros Hlink Hfiles.
  unfold post_to_threads.
  unfold bind at 1, emit. cbn [kind_of]. unfold bind at 1, lift.
  rewrite Hlink. unfold bind at 1.
  rewrite (list_dropbox_files_run w u _ files)
    by (cbn [trace]; rewrite calls_snoc_other by discriminate; exact Hfiles).
  unfold bind at 1. rewrite send_message_plain.
  match goal with
  | |- context [logged _ u INFO ?m] => exists m
  end.
  cbv zeta. unfold creating, creation_form.
  assert (E : forall st msg,
            calls KCreate
              (trace (logged (recorded (recorded s (ETempLink (path_lower f)))
                                st) u INFO msg))
            = calls KCreate (trace s) + calls KCreate [st]).
  { intros st msg. unfold logged, recorded; cbn [trace].
    rewrite !calls_app. cbn. lia. }
  destruct (truthy link).
  - destruct (endswith_any (str_lower w (name f)) [lit ".mp4"; lit ".mov"]).
    + unfold bind at 1, emit. cbn [kind_of]. rewrite E. cbn [calls map kind_of].
      cbn [count_occ]. cbn. rewrite Nat.add_0_r.
      unfold bind at 1, lift.
      destruct (create_post w (calls KCreate (trace s))) as [res|e];
        [|reflexivity].
      destruct (negb (status_code res =? 200)%Z).
      * unfold bind. rewrite send_message_plain. reflexivity.
      * unfold bind at 1. destruct (json res) as [body|e]; [|reflexivity].
        unfold bind at 1.
        destruct (py_get body (lit "id") PNone) as [cid|e]; [|reflexivity].
        destruct (negb (truthy cid)); [|reflexivity].
        unfold bind. rewrite send_message_plain. reflexivity.
    + unfold bind at 1, emit. cbn [kind_of]. rewrite E. cbn [calls map kind_of].
      cbn [count_occ]. cbn. rewrite Nat.add_0_r.
      unfold bind at 1, lift.
      destruct (create_post w (calls KCreate (trace s))) as [res|e];
        [|reflexivity].
      destruct (negb (status_code res =? 200)%Z).
      * unfold bind. rewrite send_message_plain. reflexivity.
      * unfold bind at 1. destruct (json res) as [body|e]; [|reflexivity].
        unfold bind at 1.
        destruct (py_get body (lit "id") PNone) as [cid|e]; [|reflexivity].
        destruct (negb (truthy cid)); [|reflexivity].
        unfold bind. rewrite send_message_plain. reflexivity.
  - unfold bind at 1, emit. cbn [kind_of]. rewrite E. cbn [calls map kind_of].
    cbn [count_occ]. cbn. rewrite Nat.add_0_r.
    unfold bind at 1, lift.
    destruct (create_post w (calls KCreate (trace s))) as [res|e];
      [|reflexivity].
    destruct (status_code res =? 200)%Z;
      unfold bind; rewrite send_message_plain; reflexivity.
Qed.

Lemma adds_none {A} (m : M A) k s :
  extends m -> keeps k m ->
  exists more,
    trace (snd (m s)) = trace s ++ more /\ calls k more = 0.
Proof.
  intros He Hk. destruct (He s) as [more Hmore]. exists more.
  split; [exact Hmore|]. specialize (Hk s).
  rewrite Hmore, calls_app in Hk. lia.
Qed.

Lemma poll_loop_never_succeeds u f cid range :
  forall s b s', poll_loop w u f cid range s = (Ok (Some b), s') -> b = false.
Proof.
  induction range as [|a range IH]; intros s b s' H.
  - discriminate H.
  - rewrite poll_loop_turn in H.
    destruct (poll_get w (calls KPoll (trace s))) as [r|e]; [|discriminate].
    destruct (negb (status_code r =? 200)%Z); [congruence|].
    destruct (json r) as [body|e]; [|discriminate].
    destruct (py_get body (lit "status") PNone) as [st|e]; [|discriminate].
    destruct (py_eq_str st (lit "FINISHED")); [discriminate|].
    destruct (py_eq_str st (lit "ERROR")); [congruence|].
    eapply IH. exact H.
Qed.

Lemma publish_run_accepted i range n out :
  publish_run w i range n out ->
  out = Ok (Some true) ->
  exists j r,
    j < length range
    /\ publish_post w (i + j) = Ok r /\ status_code r = 200%Z.
Proof.
  induction 1 as [|i a rg e Hpost|i a rg r0 Hpost Hcode
                  |i a rg r0 Hpost Hcode Hcarry
                  |i a rg r0 n out Hpost Hcode Hcarry Hrun IH];
    intros Hout; try discriminate.
  - exists 0, r0. rewrite Nat.add_0_r. cbn. repeat split; auto. lia.
  - destruct (IH Hout) as [j [r [Hj [Hr H200]]]].
    exists (S j), r. cbn. repeat split; auto; [lia|].
    rewrite <- Hr. f_equal. lia.
Qed.

(** A successful run of lines 127-176 saw a publish call answered 200. *)
Lemma poll_then_publish_success u f cid s :
  fst (poll_then_publish w u f cid s) = Ok true ->
  exists j r,
    j < 3
    /\ publish_post w (calls KPublish (trace s) + j) = Ok r
    /\ status_code r = 200%Z.
Proof.
  unfold poll_then_publish, bind.
  pose proof (keeps_poll_loop w KPublish u f cid (seq 0 max_retries)
                ltac:(discriminate) ltac:(discriminate) ltac:(discriminate)
                ltac:(discriminate) s) as Hkeep.
  destruct (poll_loop w u f cid (seq 0 max_retries) s) as [[[b|]|e] s3] eqn:Hp;
    cbn [fst snd ret] in *.
  - intros H. apply poll_loop_never_succeeds in Hp. congruence.
  - intros H.
    destruct (publish_step_run w u f cid s3) as [n [out [Hrun [_ Hfst]]]].
    rewrite Hfst in H. rewrite Hkeep in Hrun.
    apply (publish_run_accepted _ _ _ _ Hrun).
    destruct out as [[[|]|]|]; congruence.
  - discriminate.
Qed.

End Attempt.

(** X5: when no temporary link is to be had (the link is [None] or empty),
    [post_to_threads] makes one creation call of media type TEXT_POST with
    no video or image field, no poll and no publish call, and returns
    whether that call was answered 200. *)
Theorem text_post_without_link (w : World) (u : uploader) (f : file)
    (caption : pyval) (s : state) (link : pyval) (files : list file)
    (res : response) :
  temp_link w (calls KTempLink (trace s)) = Ok link ->
  truthy link = false ->
  list_folder w (calls KListFolder (trace s)) = Ok files ->
  create_post w (calls KCreate (trace s)) = Ok res ->
  let out := post_to_threads w u f caption s in
  fst out = Ok (status_code res =? 200)%Z
  /\ exists upload_msg result_msg,
       since s (snd out)
       = [ ETempLink (path_lower f);
           EListFolder (dropbox_folder u);
           ELog INFO (full_msg u upload_msg);
           ECreate (threads_user_id u)
             [ (lit "access_token", threads_access_token u);
               (lit "text", caption);
               (lit "media_type", PStr (lit "TEXT_POST")) ];
           ELog (if (status_code res =? 200)%Z then INFO else ERROR)
             (full_msg u result_msg) ].
Proof.
  intros Hlink Hfalsy Hfiles Hres out.
  destruct (post_to_threads_start w u f caption s link files Hlink Hfiles)
    as [msg Hout].
  cbv zeta in Hout. fold out in Hout. rewrite Hres, Hfalsy in Hout.
  unfold creating, creation_form in Hout. rewrite Hfalsy in Hout.
  destruct (status_code res =? 200)%Z; rewrite Hout; cbn [fst snd];
    (split; [reflexivity|]); exists msg; eexists;
    apply since_app; unfold logged, recorded; cbn [trace app];
    rewrite <- !app_assoc; reflexivity.
Qed.

Lemma text_post_without_link_witness :
  fst (post_to_threads no_link inkwisp photo (PStr (lit "New week")) fresh)
  = Ok false
  /\ calls KPublish
       (trace (snd (post_to_threads no_link inkwisp photo
                      (PStr (lit "New week")) fresh))) = 0.
Proof.
  destruct (text_post_without_link no_link inkwisp photo
              (PStr (lit "New week")) fresh (PStr []) [photo]
              (reply 403 not_json) eq_refl eq_refl eq_refl eq_refl)
    as [Hfst [m1 [m2 Hsince]]].
  split; [exact Hfst|].
  change (trace (snd (post_to_threads no_link inkwisp photo
                        (PStr (lit "New week")) fresh)))
    with (since fresh (snd (post_to_threads no_link inkwisp photo
                              (PStr (lit "New week")) fresh))).
  rewrite Hsince. reflexivity.
Defined.

(** X6: with a temporary link, [post_to_threads] makes exactly one creation
    call.  Its form has the access token, the caption as text, and the link
    as ["video_url"] with media type VIDEO when the lower-cased name ends
    in .mp4 or .mov, as ["image_url"] with media type IMAGE otherwise. *)
Theorem creation_call_form (w : World) (u : uploader) (f : file)
    (caption : pyval) (s : state) (link : pyval) (files : list file) :
  temp_link w (calls KTempLink (trace s)) = Ok link ->
  truthy link = true ->
  list_folder w (calls KListFolder (trace s)) = Ok files ->
  let out := post_to_threads w u f caption s in
  let video := endswith_any (str_lower w (name f)) [lit ".mp4"; lit ".mov"] in
  calls KCreate (since s (snd out)) = 1
  /\ In (ECreate (threads_user_id u)
           [ (lit "access_token", threads_access_token u);
             (lit "text", caption);
             (if video then lit "video_url" else lit "image_url", link);
             (lit "media_type",
              PStr (if video then lit "VIDEO" else lit "IMAGE")) ])
        (since s (snd out)).
Proof.
  intros Hlink Htruthy Hfiles out video.
  destruct (post_to_threads_start w u f caption s link files Hlink Hfiles)
    as [msg Hout].
  cbv zeta in Hout. fold out in Hout. rewrite Htruthy in Hout.
  set (s2 := creating w u f caption link msg s) in *.
  assert (Hmore : exists more,
            trace (snd out) = trace s2 ++ more /\ calls KCreate more = 0).
  { assert (Hlog : forall lvl m,
              exists more,
                trace (logged s2 u lvl m) = trace s2 ++ more
                /\ calls KCreate more = 0).
    { intros lvl m. eexists. split; reflexivity. }
    assert (Hstay : exists more,
              trace s2 = trace s2 ++ more /\ calls KCreate more = 0).
    { exists []. rewrite app_nil_r. split; reflexivity. }
    rewrite Hout.
    destruct (create_post w (calls KCreate (trace s))) as [res|e];
      [|exact Hstay].
    destruct (negb (status_code res =? 200)%Z); [apply Hlog|].
    destruct (json res) as [body|e]; [|exact Hstay].
    destruct (py_get body (lit "id") PNone) as [cid|e]; [|exact Hstay].
    destruct (negb (truthy cid)); [apply Hlog|].
    apply adds_none.
    - apply extends_poll_then_publish.
    - apply keeps_poll_then_publish; discriminate. }
  destruct Hmore as [more [Hmore Hnone]].
  assert (Hsince : since s (snd out)
            = [ ETempLink (path_lower f);
                EListFolder (dropbox_folder u);
                ELog INFO (full_msg u msg);
                ECreate (threads_user_id u)
                  (creation_form w u f caption link) ] ++ more).
  { apply since_app. rewrite Hmore. unfold s2, creating, logged, recorded.
    cbn [trace]. rewrite <- !app_assoc. reflexivity. }
  rewrite Hsince. split.
  - rewrite calls_app, Hnone. reflexivity.
  - apply in_or_app. left. right. right. right. left.
    unfold creation_form. rewrite Htruthy. fold video.
    destruct video; reflexivity.
Qed.

Lemma creation_call_form_witness :
  In (ECreate (PStr (lit "value"))
        [ (lit "access_token", PStr (lit "value"));
          (lit "text", PNone);
          (lit "video_url", PStr (lit "https://dl.example/sunset.jpg"));
          (lit "media_type", PStr (lit "VIDEO")) ])
     (since fresh (snd (post_to_threads calm inkwisp clip PNone fresh))).
Proof.
  exact (proj2 (creation_call_form calm inkwisp clip PNone fresh
                  (PStr (lit "https://dl.example/sunset.jpg")) [photo]
                  eq_refl eq_refl eq_refl)).
Defined.

(** X7: [post_to_threads] returns [True] only when the creation call was
    answered 200 and, with a temporary link, one of the first three publish
    calls of the attempt was answered 200 as well. *)
Theorem success_means_accepted (w : World) (u : uploader) (f : file)
    (caption : pyval) (s : state) :
  fst (post_to_threads w u f caption s) = Ok true ->
  exists link res,
    temp_link w (calls KTempLink (trace s)) = Ok link
    /\ create_post w (calls KCreate (trace s)) = Ok res
    /\ status_code res = 200%Z
    /\ (truthy link = true ->
        exists j r,
          j < 3
          /\ publish_post w (calls KPublish (trace s) + j) = Ok r
          /\ status_code r = 200%Z).
Proof.
  intros H.
  destruct (temp_link w (calls KTempLink (trace s))) as [link|e] eqn:Hlink.
  2: { rewrite (post_to_threads_no_link w u f caption s e Hlink) in H.
       discriminate H. }
  destruct (list_folder w (calls KListFolder (trace s))) as [files|e]
    eqn:Hfiles.
  2: { rewrite (post_to_threads_no_listing w u f caption s link e Hlink Hfiles)
         in H. discriminate H. }
  destruct (post_to_threads_start w u f caption s link files Hlink Hfiles)
    as [msg Hout].
  cbv zeta in Hout. rewrite Hout in H. clear Hout.
  set (s2 := creating w u f caption link msg s) in *.
  assert (Hs2 : calls KPublish (trace s2) = calls KPublish (trace s)).
  { unfold s2, creating, logged, recorded; cbn [trace].
    rewrite !calls_app. cbn. lia. }
  exists link.
  destruct (create_post w (calls KCreate (trace s))) as [res|e];
    [|discriminate H].
  exists res. split; [reflexivity|]. split; [reflexivity|].
  destruct (truthy link).
  - destruct (status_code res =? 200)%Z eqn:Hcode; [|discriminate H].
    cbn [negb] in H. split; [apply Z.eqb_eq; exact Hcode|]. intros _.
    destruct (json res) as [body|e]; [|discriminate H].
    destruct (py_get body (lit "id") PNone) as [cid|e]; [|discriminate H].
    destruct (negb (truthy cid)); [discriminate H|].
    rewrite <- Hs2. apply (poll_then_publish_success w u f cid s2 H).
  - destruct (status_code res =? 200)%Z eqn:Hcode; [|discriminate H].
    split; [apply Z.eqb_eq; exact Hcode|]. discriminate.
Qed.

Lemma success_means_accepted_witness :
  exists j r,
    j < 3
    /\ publish_post slow_backend j = Ok r
    /\ status_code r = 200%Z.
Proof.
  destruct (success_means_accepted slow_backend inkwisp photo PNone fresh)
    as [link [res [Hlink [_ [_ H]]]]].
  - vm_compute. reflexivity.
  - injection Hlink as <-. exact (H eq_refl).
Defined.

(** ** Runs and summaries *)

Section Flush.

Variable w : World.

Lemma run_complete_flushes u s :
  log_buffer (snd (run_complete w u s)) = [].
Proof.
  unfold run_complete, bind, emit. rewrite send_message_plain.
  match goal with
  | |- context [send_log_summary w u ?st] =>
      destruct (send_log_summary_effect w u st) as [new [E _]]; rewrite E
  end.
  reflexivity.
Qed.

Lemma finally_ends {A} (m : M A) (f : M unit) (P : state -> Prop) s :
  (forall s', P (snd (f s'))) -> P (snd (finally m f s)).
Proof.
  intros H. unfold finally. destruct (m s) as [r s'].
  specialize (H s'). destruct (f s') as [[[]|e] s'']; exact H.
Qed.

(** The unguarded sends of [send_overall_summary], whatever they do: the
    chunks are handed over in order up to the first send that raises. *)
Lemma plain_sends_prefix chat (g : nat -> pystr) (xs : list nat) s :
  exists k new,
    snd (for_each xs (fun i => bot_send_message w chat (g i)) s)
    = {| trace := trace s ++ new; log_buffer := log_buffer s |}
    /\ telegram_texts new = firstn k (map g xs)
    /\ calls KLog new = 0.
Proof.
  revert s. induction xs as [|x xs IH]; intros s.
  - exists 0, []. cbn. rewrite app_nil_r. destruct s. auto.
  - assert (Hturn :
      for_each (x :: xs) (fun i => bot_send_message w chat (g i)) s
      = match telegram_send w (calls KTelegram (trace s)) with
        | Ok _ =>
            for_each xs (fun i => bot_send_message w chat (g i))
              (recorded s (ETelegram chat (g x)))
        | Raise e => (Raise e, recorded s (ETelegram chat (g x)))
        end).
    { cbn [for_each]. unfold bind at 1, bot_send_message.
      unfold bind at 1, emit, lift. cbn [kind_of].
      destruct (telegram_send w (calls KTelegram (trace s))) as [[]|e];
        reflexivity. }
    rewrite Hturn. cbn [map].
    destruct (telegram_send w (calls KTelegram (trace s))) as [[]|e].
    + destruct (IH (recorded s (ETelegram chat (g x))))
        as [k [new [E [Hnew Hlog]]]].
      rewrite E. unfold recorded; cbn [trace log_buffer].
      exists (S k), (ETelegram chat (g x) :: new). split; [|split].
      * rewrite <- app_assoc. reflexivity.
      * cbn. rewrite Hnew. reflexivity.
      * change (ETelegram chat (g x) :: new)
          with ([ETelegram chat (g x)] ++ new).
        rewrite calls_app, Hlog. reflexivity.
    + exists 1, [ETelegram chat (g x)]. cbn [snd]. split; [|split].
      * reflexivity.
      * reflexivity.
      * reflexivity.
Qed.

Lemma returns_bind {A B} (m : M A) (g : A -> M B) (P : B -> Prop) :
  (forall a, returns (g a) P) -> returns (bind m g) P.
Proof.
  intros Hg s b s' H. unfold bind in H.
  destruct (m s) as [[a|e] s0]; [|discriminate].
  exact (Hg a s0 b s' H).
Qed.

Lemma run_with_file_body_returns u f :
  returns
    (caption <- get_caption_from_config w u ;;
     authenticate_dropbox w u ;;
     success <- post_to_threads w u f caption ;;
     delete_after_attempt w u f ;;
     ret (success, Some (name f)))
    (fun p => exists success, p = (success, Some (name f))).
Proof.
  apply returns_bind. intros caption.
  apply returns_bind. intros _.
  apply returns_bind. intros success.
  apply returns_bind. intros _.
  intros s p s' H. inversion H. eauto.
Qed.

Lemma run_with_file_shape u f s :
  run_with_file w u f s
  = (fst (try_except
            (caption <- get_caption_from_config w u ;;
             authenticate_dropbox w u ;;
             success <- post_to_threads w u f caption ;;
             delete_after_attempt w u f ;;
             ret (success, Some (name f)))
            (fun e => script_crashed w u e ;; ret (false, None))
            (snd (run_started w u s))),
     snd (run_complete w u
            (snd (try_except
                    (caption <- get_caption_from_config w u ;;
                     authenticate_dropbox w u ;;
                     success <- post_to_threads w u f caption ;;
                     delete_after_attempt w u f ;;
                     ret (success, Some (name f)))
                    (fun e => script_crashed w u e ;; ret (false, None))
                    (snd (run_started w u s)))))).
Proof.
  unfold run_with_file. unfold bind at 1.
  pose proof (run_started_ok w u s) as E0.
  destruct (run_started w u s) as [r0 s0]. cbn [snd] in *.
  inversion E0; subst r0. unfold finally.
  destruct (try_except _ _ s0) as [r s'].
  rewrite run_complete_ok. reflexivity.
Qed.

End Flush.

(** X8: [run] and [run_with_file] never raise, whatever the services do,
    and leave the log buffer empty; [run_with_file] returns the outcome
    with the name of the file, or [(False, None)]. *)
Theorem runs_catch_and_flush (w : World) (u : uploader) (f : file)
    (s : state) :
  fst (run w u s) = Ok tt
  /\ log_buffer (snd (run w u s)) = []
  /\ log_buffer (snd (run_with_file w u f s)) = []
  /\ ((exists success,
         fst (run_with_file w u f s) = Ok (success, Some (name f)))
      \/ fst (run_with_file w u f s) = Ok (false, None)).
Proof.
  split; [|split; [|split]].
  - destruct (never_raises_run w u s) as [[] [s' E]]. rewrite E. reflexivity.
  - unfold run, bind. rewrite run_started_ok.
    apply finally_ends. intros s'. apply run_complete_flushes.
  - rewrite run_with_file_shape. cbn [snd]. apply run_complete_flushes.
  - rewrite run_with_file_shape. cbn [fst].
    unfold try_except.
    match goal with
    | |- context [?m (snd (run_started w u s))] =>
        pose proof (fun a s' (E : m (snd (run_started w u s)) = (Ok a, s')) =>
                      run_with_file_body_returns w u f _ a s' E) as Hbody;
        destruct (m (snd (run_started w u s))) as [[p|e] s']
    end.
    + left. destruct (Hbody p s' eq_refl) as [success ->].
      exists success. reflexivity.
    + right. unfold script_crashed, bind. rewrite send_message_plain.
      reflexivity.
Qed.

Lemma send_overall_summary_run (w : World) (lines : list pystr)
    (token chat : pyval) (s : state) :
  let summary :=
    lit "[Threads Multi-Account Summary]" ++ nl ++ join nl lines in
  exists k tail,
    send_overall_summary w lines token chat s
    = (Ok tt,
       {| trace := trace s ++ ELog INFO summary :: EBotNew token :: tail;
          log_buffer := log_buffer s |})
    /\ telegram_texts tail = firstn k (chunks summary)
    /\ (forall e,
          bot_new w (calls KBotNew (trace s)) = Raise e ->
          tail = [ ELog ERROR
                     (lit "Telegram send error (overall summary): "
                      ++ exn_msg e) ]).
Proof.
  intros summary. unfold send_overall_summary. fold summary.
  unfold bind at 1. rewrite logger_log_recorded.
  unfold try_except, bind at 1, emit. cbn [kind_of]. unfold bind at 1, lift.
  unfold recorded at 1 2 3; cbn [trace log_buffer].
  rewrite calls_snoc_other by discriminate.
  destruct (bot_new w (calls KBotNew (trace s))) as [[]|e].
  - match goal with
    | |- context [for_each ?xs ?body ?st] =>
        destruct (plain_sends_prefix w chat
                    (fun i => slice summary i (i + max_len)) xs st)
          as [k [new [E [Hnew Hlog]]]];
        destruct (for_each xs body st) as [[[]|e] s'] eqn:Hrun
    end; cbn [snd] in E; subst s'; cbn [trace log_buffer] in *.
    + exists k, new. split; [|split].
      * rewrite <- !app_assoc. reflexivity.
      * exact Hnew.
      * discriminate.
    + rewrite logger_log_recorded. unfold recorded; cbn [trace log_buffer].
      exists k. eexists. split; [|split].
      * rewrite <- !app_assoc. reflexivity.
      * rewrite telegram_texts_app. cbn [telegram_texts].
        rewrite app_nil_r. exact Hnew.
      * discriminate.
  - rewrite logger_log_recorded. unfold recorded; cbn [trace log_buffer].
    exists 0. eexists. split; [|split].
    + rewrite <- !app_assoc. reflexivity.
    + reflexivity.
    + intros e' He'. injection He' as <-. reflexivity.
Qed.

(** X9: [send_overall_summary] never raises.  It logs the summary first;
    the texts it hands to the bot are the chunks of the summary in order,
    up to and including the first send that raises (all of them when no
    send but the last raises); and when the bot cannot be made it hands
    over nothing and logs the error. *)
Theorem overall_summary_is_guarded (w : World) (lines : list pystr)
    (token chat : pyval) (s : state) :
  let out := send_overall_summary w lines token chat s in
  let summary :=
    lit "[Threads Multi-Account Summary]" ++ nl ++ join nl lines in
  fst out = Ok tt
  /\ (exists rest, since s (snd out) = ELog INFO summary :: rest)
  /\ (exists k,
        telegram_texts (since s (snd out)) = firstn k (chunks summary)
        /\ (bot_new w (calls KBotNew (trace s)) = Ok tt ->
            sends_until_raise w (calls KTelegram (trace s))
              (length (chunks summary)) k))
  /\ (forall e,
        bot_new w (calls KBotNew (trace s)) = Raise e ->
        since s (snd out)
        = [ ELog INFO summary; EBotNew token;
            ELog ERROR
              (lit "Telegram send error (overall summary): " ++ exn_msg e) ]).
Proof.
  intros out summary.
  destruct (send_overall_summary_stops w lines token chat s)
    as [k [tail [Hout [Htail [Hstop Hbot]]]]].
  fold summary in Hout, Hstop, Hbot. fold out in Hout.
  assert (Hsince : since s (snd out)
                   = ELog INFO summary :: EBotNew token
                     :: map (ETelegram chat) (firstn k (chunks summary))
                     ++ tail).
  { rewrite Hout. apply since_app. reflexivity. }
  rewrite Hsince, Hout. cbn [fst].
  split; [reflexivity|]. split; [eauto|]. split.
  - exists k. split; [|exact Hstop].
    cbn [telegram_texts].
    rewrite telegram_texts_app, telegram_texts_handed, Htail.
    apply app_nil_r.
  - intros e He. destruct (Hbot e He) as [-> ->]. reflexivity.
Qed.

Lemma overall_summary_is_guarded_witness :
  telegram_texts
    (since fresh
       (snd (send_overall_summary telegram_down long_lines
               (PStr (lit "42:bot")) (PStr (lit "-100")) fresh)))
  = [ firstn 4000 (lit "[Threads Multi-Account Summary]" ++ nl
                   ++ join nl long_lines) ]
  /\ fst (send_overall_summary telegram_down long_lines
            (PStr (lit "42:bot")) (PStr (lit "-100")) fresh) = Ok tt.
Proof.
  destruct (overall_summary_is_guarded telegram_down long_lines
              (PStr (lit "42:bot")) (PStr (lit "-100")) fresh)
    as [Hfst [_ [[k [Htexts Hstop]] _]]].
  split; [|exact Hfst].
  rewrite Htexts.
  assert (Hk : sends_until_raise telegram_down 0
                 (length (chunks (lit "[Threads Multi-Account Summary]" ++ nl
                                  ++ join nl long_lines))) 1).
  { split.
    - intros j Hj. lia.
    - right. exists 0, (Exn (lit "Timed out")).
      split; [reflexivity|]. split; [|reflexivity].
      apply Nat.ltb_lt. vm_compute. reflexivity. }
  rewrite (sends_until_raise_unique telegram_down _ _ _ _
             (Hstop eq_refl) Hk).
  vm_compute. reflexivity.
Defined.

Lemma process_account_chosen (w : World) (a : account) (s : state)
    (u : uploader) (s1 s2 : state) (l : list file) (f0 : file)
    (rest : list file) :
  init w a s = (Ok u, s1) ->
  authenticate_dropbox w u s1 = (Ok tt, s2) ->
  list_folder w (calls KListFolder (trace s2)) = Ok l ->
  eligible w l = f0 :: rest ->
  let files := eligible w l in
  let s3 := recorded (recorded s2 (EListFolder (dropbox_folder u)))
              (EChoice (length files)) in
  let f := nth (rand w (calls KChoice (trace s2)) mod length files)
             files f0 in
  process_account w a s
  = (match fst (run_with_file w u f s3) with
     | Ok (success, posted) =>
         Ok (Count (length files),
             summary_line a (Count (length files)) posted success)
     | Raise e => Raise e
     end,
     snd (run_with_file w u f s3)).
Proof.
  intros Hinit Hauth Hlist Hfiles files s3 f.
  unfold process_account. unfold bind at 1. rewrite Hinit.
  unfold bind at 1, try_except. unfold bind at 1. rewrite Hauth.
  unfold bind at 1. rewrite (list_dropbox_files_run w u s2 l Hlist).
  fold (eligible w l). unfold f, s3, files. rewrite Hfiles. cbn [ret].
  unfold bind at 1. unfold bind at 1.
  unfold random_choice at 1, bind at 1, emit, ret. cbn [kind_of].
  unfold recorded at 1; cbn [trace].
  rewrite calls_snoc_other by discriminate.
  match goal with
  | |- context [run_with_file w u ?file ?st] =>
      destruct (run_with_file w u file st) as [[[success posted]|e] s4] eqn:E
  end.
  - unfold recorded in *. cbn [trace log_buffer] in *. rewrite E.
    reflexivity.
  - unfold recorded in *. cbn [trace log_buffer] in *. rewrite E.
    reflexivity.
Qed.

(** X10: when the first authentication and listing of an account go
    through and some file is eligible, the file that is posted is one of
    the eligible files of that first listing, and the count in the summary
    line is their number.  The line names the file and the outcome when the
    publish attempt returns, and reads "no file posted." when the run
    crashes. *)
Theorem chosen_file_is_reported (w : World) (a : account) (s : state)
    (u : uploader) (s1 s2 : state) (l : list file) (f0 : file)
    (rest : list file) :
  init w a s = (Ok u, s1) ->
  authenticate_dropbox w u s1 = (Ok tt, s2) ->
  list_folder w (calls KListFolder (trace s2)) = Ok l ->
  eligible w l = f0 :: rest ->
  let files := eligible w l in
  let s3 := recorded (recorded s2 (EListFolder (dropbox_folder u)))
              (EChoice (length files)) in
  let f := nth (rand w (calls KChoice (trace s2)) mod length files)
             files f0 in
  let out := process_account w a s in
  In f files
  /\ (forall success s4,
        attempt_returns w u f s3 success s4 ->
        name f <> [] ->
        fst out
        = Ok (Count (length files),
              acc_account_name a ++ lit ": " ++ str_of_nat (length files)
              ++ lit " files, posted: " ++ name f ++ lit ", "
              ++ (if success then check_mark ++ lit " Success"
                  else cross_mark ++ lit " Failed")))
  /\ (forall e s4,
        attempt_raises w u f s3 e s4 ->
        fst out
        = Ok (Count (length files),
              acc_account_name a ++ lit ": " ++ str_of_nat (length files)
              ++ lit " files, no file posted.")).
Proof.
  intros Hinit Hauth Hlist Hfiles files s3 f out.
  pose proof (process_account_chosen w a s u s1 s2 l f0 rest
                Hinit Hauth Hlist Hfiles) as Hout.
  cbv zeta in Hout. fold files in Hout. fold s3 in Hout. fold f in Hout.
  fold out in Hout.
  split; [|split].
  - apply nth_In. apply Nat.mod_upper_bound.
    unfold files. rewrite Hfiles. discriminate.
  - intros success s4 Hret Hname.
    rewrite Hout, (run_with_file_returned w u f s3 success s4 Hret).
    cbn [fst]. unfold summary_line.
    destruct (name f) as [|c cs]; [contradiction|]. reflexivity.
  - intros e s4 Hraise.
    rewrite Hout, (run_with_file_crashed w u f s3 e s4 Hraise).
    reflexivity.
Qed.

Lemma chosen_file_is_reported_witness :
  fst (process_account no_container inkwisp_account fresh)
  = Ok (Count 1,
        lit "inkwisp: 1 files, posted: Sunset.JPG, " ++ cross_mark
        ++ lit " Failed")
  /\ fst (process_account connection_lost inkwisp_account fresh)
     = Ok (Count 1, lit "inkwisp: 1 files, no file posted.").
Proof.
  split.
  - assert (H := chosen_file_is_reported no_container inkwisp_account fresh
                   inkwisp
                   (snd (init no_container inkwisp_account fresh))
                   (snd (authenticate_dropbox no_container inkwisp
                           (snd (init no_container inkwisp_account fresh))))
                   [photo] photo [] eq_refl eq_refl eq_refl eq_refl).
    cbv zeta in H. destruct H as [_ [H _]].
    eapply (H false); [|discriminate].
    do 3 eexists. split; [|split]; vm_compute; reflexivity.
  - assert (H := chosen_file_is_reported connection_lost inkwisp_account
                   fresh inkwisp
                   (snd (init connection_lost inkwisp_account fresh))
                   (snd (authenticate_dropbox connection_lost inkwisp
                           (snd (init connection_lost inkwisp_account
                                   fresh))))
                   [photo] photo [] eq_refl eq_refl eq_refl eq_refl).
    cbv zeta in H. destruct H as [_ [_ H]].
    eapply H. do 2 eexists. split; [vm_compute; reflexivity|].
    right. eexists. split; vm_compute; reflexivity.
Defined.

(** *** The loop over the accounts *)

Lemma summary_line_starts (a : account) (c : count) (posted : option pystr)
    (success : bool) :
  exists rest,
    summary_line a c posted success = acc_account_name a ++ lit ": " ++ rest.
Proof.
  unfold summary_line. destruct c as [n|].
  - destruct posted as [[|ch name]|]; eexists; reflexivity.
  - exists (lit "Dropbox error, could not count files."). reflexivity.
Qed.

Section Accounts.

Variable w : World.

Lemma process_account_line a :
  returns (process_account w a)
    (fun r => exists rest, snd r = acc_account_name a ++ lit ": " ++ rest).
Proof.
  unfold process_account.
  apply returns_bind. intros u.
  apply returns_bind. intros [c files].
  apply returns_bind. intros [success posted].
  intros s r s' H. inversion H. cbn [snd]. apply summary_line_starts.
Qed.

Lemma never_raises_run_with_file u f : never_raises (run_with_file w u f).
Proof.
  intros s. rewrite run_with_file_shape.
  match goal with
  | |- context [try_except ?m ?h ?st] =>
      destruct (never_raises_try_except m h) with (s := st) as [p [s' E]]
  end.
  - intros e. apply never_raises_bind.
    + apply never_raises_script_crashed.
    + intros _. apply never_raises_ret.
  - rewrite E. cbn [fst snd]. eauto.
Qed.

(** [__init__] raises only when making the bot does. *)
Lemma never_raises_init a :
  getenv w (lit "TELEGRAM_BOT_TOKEN") = None
  \/ (forall n, bot_new w n = Ok tt) ->
  never_raises (init w a).
Proof.
  intros H s. unfold init, or_getenv. cbn [of_env truthy].
  destruct (getenv w (lit "TELEGRAM_BOT_TOKEN")) as [t|] eqn:Htoken.
  - destruct H as [H|H]; [discriminate|].
    unfold bind, emit, lift, set_log_buffer, ret. rewrite H. eauto.
  - unfold bind, emit, set_log_buffer, ret. eauto.
Qed.

Lemma never_raises_process_account a :
  getenv w (lit "TELEGRAM_BOT_TOKEN") = None
  \/ (forall n, bot_new w n = Ok tt) ->
  never_raises (process_account w a).
Proof.
  intros H. unfold process_account.
  apply never_raises_bind; [apply never_raises_init; exact H|intros u].
  apply never_raises_bind.
  - apply never_raises_try_except. intros e. apply never_raises_ret.
  - intros [c files]. apply never_raises_bind.
    + destruct files as [|f0 files].
      * apply never_raises_bind; [apply never_raises_run|].
        intros _. apply never_raises_ret.
      * apply never_raises_bind.
        -- intros s. unfold random_choice, bind, emit, ret. eauto.
        -- intros f. apply never_raises_run_with_file.
    + intros [success posted]. apply never_raises_ret.
Qed.

Lemma never_raises_for_accounts accounts :
  getenv w (lit "TELEGRAM_BOT_TOKEN") = None
  \/ (forall n, bot_new w n = Ok tt) ->
  forall lines, never_raises (for_accounts w accounts lines).
Proof.
  intros H. induction accounts as [|a accounts IH]; intros lines;
    cbn [for_accounts].
  - apply never_raises_ret.
  - apply never_raises_bind; [apply never_raises_process_account; exact H|].
    intros r. apply IH.
Qed.

Lemma for_accounts_lines accounts :
  forall lines0 s lines s',
    for_accounts w accounts lines0 s = (Ok lines, s') ->
    exists new,
      lines = lines0 ++ new
      /\ Forall2
           (fun a line =>
              exists rest, line = acc_account_name a ++ lit ": " ++ rest)
           accounts new.
Proof.
  induction accounts as [|a accounts IH]; intros lines0 s lines s' H.
  - inversion H; subst. exists []. rewrite app_nil_r. auto.
  - cbn [for_accounts] in H. unfold bind in H.
    destruct (process_account w a s) as [[r|e] s1] eqn:Ha; [|discriminate].
    destruct (IH _ _ _ _ H) as [new [-> Hnew]].
    exists (snd r :: new). split.
    + rewrite <- app_assoc. reflexivity.
    + constructor; [|exact Hnew].
      exact (process_account_line a s r s1 Ha).
Qed.

End Accounts.

(** X11: when the loop over the accounts returns, it has added one line per
    account, in the order of the accounts, and each line starts with the
    name of its account followed by a colon and a space. *)
Theorem summary_follows_accounts (w : World) (accounts : list account)
    (lines0 : list pystr) (s : state) (lines : list pystr) (s' : state) :
  for_accounts w accounts lines0 s = (Ok lines, s') ->
  exists new,
    lines = lines0 ++ new
    /\ length new = length accounts
    /\ Forall2
         (fun a line =>
            exists rest, line = acc_account_name a ++ lit ": " ++ rest)
         accounts new.
Proof.
  intros H. destruct (for_accounts_lines w accounts lines0 s lines s' H)
    as [new [Hlines Hnew]].
  exists new. split; [exact Hlines|]. split; [|exact Hnew].
  symmetry. eapply Forall2_length. exact Hnew.
Qed.

Lemma summary_follows_accounts_witness :
  exists new,
    length new = 3
    /\ fst (for_accounts calm (ACCOUNTS calm) [] fresh) = Ok new.
Proof.
  destruct (summary_follows_accounts calm (ACCOUNTS calm) [] fresh
              (match fst (for_accounts calm (ACCOUNTS calm) [] fresh) with
               | Ok lines => lines
               | Raise _ => []
               end)
              (snd (for_accounts calm (ACCOUNTS calm) [] fresh)))
    as [new [Hlines [Hlen _]]].
  - vm_compute. reflexivity.
  - exists new. split; [exact Hlen|].
    cbn [app] in Hlines. rewrite <- Hlines. vm_compute. reflexivity.
Defined.

(** X12: the main block raises only when making the bot raises in an
    [__init__].  When TELEGRAM_BOT_TOKEN is unset, or making the bot never
    raises, it returns normally whatever else fails.  When the token is set
    and making the first bot raises, it raises there: no account is
    processed and no summary is sent. *)
Theorem main_stops_only_for_the_bot (w : World) (s : state) :
  (getenv w (lit "TELEGRAM_BOT_TOKEN") = None
   \/ (forall n, bot_new w n = Ok tt) ->
   fst (main w s) = Ok tt)
  /\ (forall t e,
        getenv w (lit "TELEGRAM_BOT_TOKEN") = Some t ->
        bot_new w (calls KBotNew (trace s)) = Raise e ->
        main w s = (Raise e, recorded s (EBotNew (PStr t)))).
Proof.
  split.
  - intros H. unfold main, bind.
    destruct (never_raises_for_accounts w (ACCOUNTS w) H [] s)
      as [lines [s' E]].
    rewrite E.
    destruct (send_overall_summary_run w lines
                (of_env (getenv w (lit "TELEGRAM_BOT_TOKEN")))
                (of_env (getenv w (lit "TELEGRAM_CHAT_ID"))) s')
      as [k [tail [E' _]]].
    rewrite E'. reflexivity.
  - intros t e Htoken Hbot.
    unfold main, ACCOUNTS. cbn [for_accounts].
    unfold bind at 1. unfold bind at 1.
    unfold process_account. unfold bind at 1.
    unfold init, or_getenv. cbn [of_env truthy]. rewrite Htoken.
    unfold bind at 1. unfold bind at 1. unfold bind at 1, emit, lift.
    cbn [kind_of]. rewrite Hbot. reflexivity.
Qed.

Lemma main_stops_only_for_the_bot_witness :
  fst (main calm fresh) = Ok tt
  /\ main bad_token fresh
     = (Raise (Exn (lit "Invalid token")),
        recorded fresh (EBotNew (PStr (lit "not-a-token")))).
Proof.
  split.
  - apply (main_stops_only_for_the_bot calm fresh). right. reflexivity.
  - apply (main_stops_only_for_the_bot bad_token fresh); reflexivity.
Defined.

(** *** Without a Telegram token *)

Section Quiet.

Variable w : World.

Lemma quiet_send_message u msg lvl :
  keeps KTelegram (send_message w u msg lvl false).
Proof.
  intros s. rewrite send_message_plain. cbn [snd].
  apply calls_logged. discriminate.
Qed.

Lemma quiet_send_log_summary u :
  telegram_bot u = false -> keeps KTelegram (send_log_summary w u).
Proof.
  intros H. unfold send_log_summary. rewrite H. cbn [andb]. keeps_all.
Qed.

Lemma quiet_post_to_threads u f caption :
  keeps KTelegram (post_to_threads w u f caption).
Proof.
  intros s. rewrite !calls_total. apply within_zero_keeps.
  - apply extends_post_to_threads.
  - apply (cost_post_to_threads w (counts KTelegram) 0 0 0 0 0 0);
      intros; cbn; lia.
Qed.

Lemma quiet_run_started u : keeps KTelegram (run_started w u).
Proof. unfold run_started. keeps_all. apply quiet_send_message. Qed.

Lemma quiet_run_complete u :
  telegram_bot u = false -> keeps KTelegram (run_complete w u).
Proof.
  intros H. unfold run_complete. keeps_all.
  - apply quiet_send_message.
  - apply quiet_send_log_summary. exact H.
Qed.

Lemma quiet_delete_after_attempt u f :
  keeps KTelegram (delete_after_attempt w u f).
Proof.
  unfold delete_after_attempt. keeps_all; apply quiet_send_message.
Qed.

Lemma quiet_get_caption_from_config u :
  keeps KTelegram (get_caption_from_config w u).
Proof. apply keeps_get_caption_from_config; discriminate. Qed.

Lemma quiet_authenticate_dropbox u :
  keeps KTelegram (authenticate_dropbox w u).
Proof. apply keeps_authenticate_dropbox; discriminate. Qed.

Lemma quiet_run u : telegram_bot u = false -> keeps KTelegram (run w u).
Proof.
  intros H. unfold run, script_crashed.
  apply keeps_bind; [apply quiet_run_started|intros _].
  apply keeps_finally; [|apply quiet_run_complete; exact H].
  apply keeps_try_except; [|intros e; apply quiet_send_message].
  apply keeps_bind; [apply quiet_get_caption_from_config|intros caption].
  apply keeps_bind; [apply quiet_authenticate_dropbox|intros _].
  apply keeps_bind;
    [apply keeps_list_dropbox_files; discriminate|intros files].
  destruct files as [|f0 files]; [apply quiet_send_message|].
  apply keeps_bind; [apply keeps_random_choice; discriminate|intros f].
  apply keeps_bind; [apply quiet_post_to_threads|intros _].
  apply quiet_delete_after_attempt.
Qed.

Lemma quiet_run_with_file u f :
  telegram_bot u = false -> keeps KTelegram (run_with_file w u f).
Proof.
  intros H. unfold run_with_file, script_crashed.
  apply keeps_bind; [apply quiet_run_started|intros _].
  apply keeps_finally; [|apply quiet_run_complete; exact H].
  apply keeps_try_except.
  - apply keeps_bind; [apply quiet_get_caption_from_config|intros caption].
    apply keeps_bind; [apply quiet_authenticate_dropbox|intros _].
    apply keeps_bind; [apply quiet_post_to_threads|intros success].
    apply keeps_bind; [apply quiet_delete_after_attempt|intros _].
    apply keeps_ret.
  - intros e. apply keeps_bind; [apply quiet_send_message|intros _].
    apply keeps_ret.
Qed.

(** Without the token [__init__] makes no bot. *)
Lemma init_without_token a :
  getenv w (lit "TELEGRAM_BOT_TOKEN") = None ->
  returns (init w a) (fun u => telegram_bot u = false)
  /\ keeps KBotNew (init w a).
Proof.
  intros Htoken. unfold init, or_getenv. cbn [of_env truthy].
  rewrite Htoken. split.
  - intros s u s' H. unfold bind, emit, set_log_buffer, ret in H.
    inversion H. reflexivity.
  - keeps_all.
Qed.

Lemma botless_delete_after_attempt u f :
  keeps KBotNew (delete_after_attempt w u f).
Proof.
  unfold delete_after_attempt.
  keeps_all; apply keeps_send_message; discriminate.
Qed.

Lemma botless_run u : keeps KBotNew (run w u).
Proof.
  unfold run, script_crashed.
  apply keeps_bind; [apply keeps_run_started; discriminate|intros _].
  apply keeps_finally; [|apply keeps_run_complete; discriminate].
  apply keeps_try_except;
    [|intros e; apply keeps_send_message; discriminate].
  apply keeps_bind;
    [apply keeps_get_caption_from_config; discriminate|intros caption].
  apply keeps_bind;
    [apply keeps_authenticate_dropbox; discriminate|intros _].
  apply keeps_bind;
    [apply keeps_list_dropbox_files; discriminate|intros files].
  destruct files as [|f0 files];
    [apply keeps_send_message; discriminate|].
  apply keeps_bind; [apply keeps_random_choice; discriminate|intros f].
  apply keeps_bind; [apply keeps_post_to_threads; discriminate|intros _].
  apply botless_delete_after_attempt.
Qed.

Lemma botless_run_with_file u f : keeps KBotNew (run_with_file w u f).
Proof.
  unfold run_with_file, script_crashed.
  apply keeps_bind; [apply keeps_run_started; discriminate|intros _].
  apply keeps_finally; [|apply keeps_run_complete; discriminate].
  apply keeps_try_except.
  - apply keeps_bind;
      [apply keeps_get_caption_from_config; discriminate|intros caption].
    apply keeps_bind;
      [apply keeps_authenticate_dropbox; discriminate|intros _].
    apply keeps_bind;
      [apply keeps_post_to_threads; discriminate|intros success].
    apply keeps_bind; [apply botless_delete_after_attempt|intros _].
    apply keeps_ret.
  - intros e.
    apply keeps_bind; [apply keeps_send_message; discriminate|intros _].
    apply keeps_ret.
Qed.

End Quiet.

(** X13: when TELEGRAM_BOT_TOKEN is unset, processing an account makes no
    bot and hands nothing to Telegram, whatever happens in the run. *)
Theorem no_token_no_telegram (w : World) (a : account) (s : state) :
  getenv w (lit "TELEGRAM_BOT_TOKEN") = None ->
  let out := process_account w a s in
  calls KBotNew (trace (snd out)) = calls KBotNew (trace s)
  /\ calls KTelegram (trace (snd out)) = calls KTelegram (trace s).
Proof.
  intros Htoken out. unfold out.
  destruct (init_without_token w a Htoken) as [Hbot Hinit].
  split.
  - apply (keeps_bind_returns KBotNew (init w a) _ (fun _ => True)).
    + exact Hinit.
    + intros s0 u s' _. exact I.
    + intros u _.
      apply keeps_bind.
      * apply keeps_try_except; [|intros e; apply keeps_ret].
        apply keeps_bind;
          [apply keeps_authenticate_dropbox; discriminate|intros _].
        apply keeps_bind;
          [apply keeps_list_dropbox_files; discriminate|intros files].
        apply keeps_ret.
      * intros [c files]. apply keeps_bind; [|intros [b nm]; apply keeps_ret].
        destruct files as [|f0 files].
        -- apply keeps_bind; [apply botless_run|].
           intros _. apply keeps_ret.
        -- apply keeps_bind;
             [apply keeps_random_choice; discriminate|intros f].
           apply botless_run_with_file.
  - apply (keeps_bind_returns KTelegram (init w a) _
             (fun u => telegram_bot u = false)).
    + apply keeps_init; discriminate.
    + exact Hbot.
    + intros u Hu.
      apply keeps_bind.
      * apply keeps_try_except; [|intros e; apply keeps_ret].
        apply keeps_bind; [apply quiet_authenticate_dropbox|intros _].
        apply keeps_bind;
          [apply keeps_list_dropbox_files; discriminate|intros files].
        apply keeps_ret.
      * intros [c files]. apply keeps_bind; [|intros [b nm]; apply keeps_ret].
        destruct files as [|f0 files].
        -- apply keeps_bind; [apply quiet_run; exact Hu|].
           intros _. apply keeps_ret.
        -- apply keeps_bind;
             [apply keeps_random_choice; discriminate|intros f].
           apply quiet_run_with_file. exact Hu.
Qed.

Lemma no_token_no_telegram_witness :
  calls KTelegram (trace (snd (process_account silent inkwisp_account fresh)))
  = 0.
Proof.
  apply (no_token_no_telegram silent inkwisp_account fresh). reflexivity.
Defined.
